(** * jc: the syslog (RFC 5424) streaming parser, [jc/parsers/syslog_s.py]

    A shallow embedding of the parser and of the part of Python it uses
    (string methods, the backtracking regular-expression matcher of [re],
    insertion-ordered dictionaries, exceptions and generators), followed by
    the properties of the parser.

    Conventions.
    - A Python [str] is a [string]; a character is a code point below 256,
      and the character classes ([\s], [\d], [\w], [str.strip]) are the
      Unicode ones restricted to that range.
    - A [dict] is an association list in insertion order.
    - A function that can raise returns [res A]: [inl e] is the raised
      exception.
    - A generator is the list of the values it yields, with the exception
      that ended it, if any, and what it wrote to the diagnostic channel. *)

From Stdlib Require Import String Ascii List ZArith NArith Lia Bool.
From Stdlib Require Import DecimalString.
Import ListNotations.
Local Open Scope string_scope.
Local Open Scope list_scope.

Abbreviation s2l := list_ascii_of_string.
Abbreviation l2s := string_of_list_ascii.

(** ** Python strings *)

Module Py.

Definition code (c : ascii) : N := N_of_ascii c.

Definition in_range (lo hi : N) (c : ascii) : bool :=
  ((lo <=? code c) && (code c <=? hi))%N.

(** [str.isspace] on one character (Py_UNICODE_ISSPACE): TAB..CR, FS..US,
    SPACE, NEL, NBSP. *)
Definition isspace (c : ascii) : bool :=
  in_range 9 13 c || in_range 28 32 c || (code c =? 133)%N || (code c =? 160)%N.

(** Unicode decimal digits below 256. *)
Definition isdecimal (c : ascii) : bool := in_range 48 57 c.

(** Py_UNICODE_ISALNUM below 256: letters, decimal digits, and the
    superscript digits, ordinal indicators, micro sign and vulgar fractions
    of Latin-1. *)
Definition isalnum (c : ascii) : bool :=
  isdecimal c || in_range 65 90 c || in_range 97 122 c
  || (code c =? 170)%N || (code c =? 178)%N || (code c =? 179)%N
  || (code c =? 181)%N || (code c =? 185)%N || (code c =? 186)%N
  || in_range 188 190 c || in_range 192 214 c || in_range 216 246 c
  || in_range 248 255 c.

Fixpoint lstrip_l (l : list ascii) : list ascii :=
  match l with
  | c :: t => if isspace c then lstrip_l t else l
  | [] => []
  end.

Definition rstrip_l (l : list ascii) : list ascii := rev (lstrip_l (rev l)).
Definition strip_l (l : list ascii) : list ascii := rstrip_l (lstrip_l l).

(** [s.rstrip()] and [s.strip()] *)
Definition rstrip (s : string) : string := l2s (rstrip_l (s2l s)).
Definition strip (s : string) : string := l2s (strip_l (s2l s)).

Fixpoint prefixb (p l : list ascii) : bool :=
  match p, l with
  | [], _ => true
  | a :: p', b :: l' => Ascii.eqb a b && prefixb p' l'
  | _ :: _, [] => false
  end.

(** [s.replace(old, new)] for a non-empty [old]: the occurrences of [old]
    are found left to right and do not overlap; [skip] counts the
    characters of an occurrence still to be passed over. *)
Fixpoint replace_l (old new : list ascii) (skip : nat) (l : list ascii)
  : list ascii :=
  match l with
  | [] => []
  | c :: t =>
      match skip with
      | S k => replace_l old new k t
      | O => if prefixb old l
             then new ++ replace_l old new (length old - 1) t
             else c :: replace_l old new 0 t
      end
  end.

Definition replace (old new s : string) : string :=
  l2s (replace_l (s2l old) (s2l new) 0 (s2l s)).

(** [s[1:-1]] *)
Definition slice_1_m1_l (l : list ascii) : list ascii := removelast (tl l).
Definition slice_1_m1 (s : string) : string := l2s (slice_1_m1_l (s2l s)).

End Py.

(** ** The regular expressions of [re]

    The matcher is the backtracking one: alternatives are tried in order, a
    greedy repeat tries one more iteration before it tries to stop, a lazy
    one the other way round, and the first success is the result. *)

Module Re.

Inductive regex : Type :=
| Eps
| Cls (p : ascii -> bool)                 (* one character of a class *)
| Seq (a b : regex)
| Alt (a b : regex)
| Group (name : string) (a : regex)       (* (?P<name>a) *)
| Rep (a : regex) (lo : nat) (hi : option nat) (greedy : bool)
| NotBehind (p : ascii -> bool).          (* (?<!c), c one character *)

(** A position in the subject: the characters before it, nearest first,
    the characters after it, and the groups closed so far, latest first. *)
Record mstate : Type := MState
  { before : list ascii;
    after : list ascii;
    caps : list (string * list ascii) }.

Definition start (l : list ascii) : mstate := MState [] l [].

Definition advance (c : ascii) (rest : list ascii) (st : mstate) : mstate :=
  MState (c :: before st) rest (caps st).

(** The text between two positions of one run. *)
Definition consumed (st0 st1 : mstate) : list ascii :=
  rev (firstn (length (before st1) - length (before st0)) (before st1)).

Definition close_group (name : string) (st0 st1 : mstate) : mstate :=
  MState (before st1) (after st1) ((name, consumed st0 st1) :: caps st1).

Definition cont : Type := mstate -> option mstate.

Section Repeat.
Variable ma : mstate -> cont -> option mstate.
Variable greedy : bool.

(** [need] iterations are still required and at most [fuel] are allowed.
    Every repeated expression of this file consumes at least one
    character per iteration, so that the number of characters left
    bounds the iterations of an unbounded repeat. *)
Fixpoint rep (need fuel : nat) (st : mstate) (k : cont) {struct fuel}
  : option mstate :=
  match fuel with
  | O => match need with O => k st | S _ => None end
  | S fuel' =>
      match need with
      | S need' => ma st (fun st1 => rep need' fuel' st1 k)
      | O =>
          if greedy then
            match ma st (fun st1 => rep 0 fuel' st1 k) with
            | Some x => Some x
            | None => k st
            end
          else
            match k st with
            | Some x => Some x
            | None => ma st (fun st1 => rep 0 fuel' st1 k)
            end
      end
  end.
End Repeat.

Definition rep_fuel (hi : option nat) (st : mstate) : nat :=
  match hi with
  | Some h => h
  | None => length (after st)
  end.

Fixpoint m (r : regex) (st : mstate) (k : cont) {struct r} : option mstate :=
  match r with
  | Eps => k st
  | Cls p =>
      match after st with
      | c :: rest => if p c then k (advance c rest st) else None
      | [] => None
      end
  | Seq a b => m a st (fun st1 => m b st1 k)
  | Alt a b =>
      match m a st k with
      | Some x => Some x
      | None => m b st k
      end
  | Group name a => m a st (fun st1 => k (close_group name st st1))
  | Rep a lo hi greedy => rep (m a) greedy lo (rep_fuel hi st) st k
  | NotBehind p =>
      match before st with
      | c :: _ => if p c then None else k st
      | [] => k st
      end
  end.

(** One attempt at the current position. *)
Definition match_here (r : regex) (st : mstate) : option mstate :=
  m r (MState (before st) (after st) []) Some.

(** [pattern.match(s)]: at the start of the subject only. *)
Definition re_match (r : regex) (s : string) : option mstate :=
  match_here r (start (s2l s)).

(** The leftmost position from [st] on at which [r] matches. *)
Fixpoint search_from (r : regex) (bef aft : list ascii) : option mstate :=
  match match_here r (MState bef aft []) with
  | Some st => Some st
  | None =>
      match aft with
      | c :: rest => search_from r (c :: bef) rest
      | [] => None
      end
  end.

(** [pattern.search(s)] *)
Definition re_search (r : regex) (s : string) : option mstate :=
  search_from r [] (s2l s).

(** The successive non-overlapping matches, left to right.  [skip] counts
    the characters of the last match still to be passed over.  (No pattern
    of this file matches the empty text.) *)
Fixpoint finditer_from (r : regex) (skip : nat) (bef aft : list ascii)
  {struct aft} : list mstate :=
  match aft with
  | [] =>
      match skip with
      | O => match match_here r (MState bef [] []) with
             | Some st => [st]
             | None => []
             end
      | S _ => []
      end
  | c :: rest =>
      match skip with
      | S k => finditer_from r k (c :: bef) rest
      | O =>
          match match_here r (MState bef aft []) with
          | Some st =>
              st :: finditer_from r (length (before st) - length bef - 1)
                                  (c :: bef) rest
          | None => finditer_from r 0 (c :: bef) rest
          end
      end
  end.

Definition finditer (r : regex) (s : string) : list mstate :=
  finditer_from r 0 [] (s2l s).

(** [match.group(name)]: [None] when the group took no part in the match. *)
Definition group (st : mstate) (name : string) : option string :=
  match find (fun p => String.eqb (fst p) name) (caps st) with
  | Some p => Some (l2s (snd p))
  | None => None
  end.

(** What [findall] reports for a group: the empty string when the group
    took no part in the match. *)
Definition group_or_empty (st : mstate) (name : string) : string :=
  match group st name with
  | Some s => s
  | None => ""
  end.

(** *** Pattern syntax *)

Definition chr (c : ascii) : regex := Cls (Ascii.eqb c).
Definition digit : regex := Cls Py.isdecimal.                          (* \d *)
Definition space : regex := Cls Py.isspace.                            (* \s *)
Definition nonspace : regex := Cls (fun c => negb (Py.isspace c)).     (* [\S] *)
Definition is_word (c : ascii) : bool := Py.isalnum c || Ascii.eqb c "_".
Definition word : regex := Cls is_word.                                (* \w *)
Definition not_newline (c : ascii) : bool := negb (Ascii.eqb c "010").
Definition dot : regex := Cls not_newline.                             (* . *)
Definition mem (set : string) (c : ascii) : bool :=
  existsb (Ascii.eqb c) (s2l set).
Definition oneof (set : string) : regex := Cls (mem set).              (* [set] *)
Definition noneof (set : string) : regex :=
  Cls (fun c => negb (mem set c)).                                     (* [^set] *)
Definition range (a b : ascii) : regex :=
  Cls (Py.in_range (Py.code a) (Py.code b)).                           (* [a-b] *)
Definition opt (r : regex) : regex := Rep r 0 (Some 1) true.           (* r? *)
Definition star (r : regex) : regex := Rep r 0 None true.              (* r* *)
Definition plus (r : regex) : regex := Rep r 1 None true.              (* r+ *)
Definition plus_lazy (r : regex) : regex := Rep r 1 None false.        (* r+? *)
Definition times (n : nat) (r : regex) : regex := Rep r n (Some n) true.
Definition upto (lo hi : nat) (r : regex) : regex := Rep r lo (Some hi) true.

End Re.

Declare Scope regex_scope.
Delimit Scope regex_scope with re.
Bind Scope regex_scope with Re.regex.
Infix ">>" := Re.Seq (at level 41, right associativity) : regex_scope.
Infix "<|>" := Re.Alt (at level 51, right associativity) : regex_scope.

(** ** Dictionaries *)

Module Dict.
Section WithValue.
Context {V : Type}.

Definition t : Type := list (string * V).

(** [d.get(k)] *)
Fixpoint get (k : string) (d : t) : option V :=
  match d with
  | [] => None
  | (k', v) :: d' => if String.eqb k' k then Some v else get k d'
  end.

(** [d[k] = v]: a present key keeps its place. *)
Fixpoint set (k : string) (v : V) (d : t) : t :=
  match d with
  | [] => [(k, v)]
  | (k', v') :: d' =>
      if String.eqb k' k then (k', v) :: d' else (k', v') :: set k v d'
  end.

Definition keys (d : t) : list string := map fst d.

(** [d.update(e)] *)
Definition update (d e : t) : t :=
  fold_left (fun acc kv => set (fst kv) (snd kv) acc) e d.
End WithValue.
Arguments t : clear implicits.
End Dict.

(** ** Values, exceptions, generators *)

(** One element of [structured_data]:
    [{'identity': ..., 'parameters': {...}}]. *)
Record struct_obj : Type := StructObj
  { identity : option string;
    parameters : Dict.t string }.

Inductive value : Type :=
| VNone
| VStr (s : string)
| VInt (z : Z)
| VList (l : list struct_obj).

Definition record : Type := Dict.t value.

Definition of_option (o : option string) : value :=
  match o with
  | Some s => VStr s
  | None => VNone
  end.

Definition of_optionZ (o : option Z) : value :=
  match o with
  | Some z => VInt z
  | None => VNone
  end.

(** Python truth value. *)
Definition truthy (v : value) : bool :=
  match v with
  | VNone => false
  | VStr s => negb (String.eqb s "")
  | VInt z => negb (Z.eqb z 0)
  | VList l => match l with [] => false | _ :: _ => true end
  end.

Record exn : Type := Exn { exn_class : string; exn_msg : string }.

Definition res (A : Type) : Type := (exn + A)%type.
Definition ret {A : Type} (a : A) : res A := inr a.
Definition raise {A : Type} (e : exn) : res A := inl e.
Definition bind {A B : Type} (x : res A) (f : A -> res B) : res B :=
  match x with
  | inl e => inl e
  | inr a => f a
  end.

Notation "x <- e ;; k" := (bind e (fun x => k))
  (at level 61, e at next level, right associativity).

Fixpoint mmap {A B : Type} (f : A -> res B) (l : list A) : res (list B) :=
  match l with
  | [] => ret []
  | a :: l' => b <- f a ;; bs <- mmap f l' ;; ret (b :: bs)
  end.

(** What the input iterable can yield. *)
Inductive item : Type :=
| PyStr (s : string)
| PyBytes (b : string)
| PyInt (z : Z)
| PyNone.

(** What is handed to [parse] as [data]. *)
Inductive source : Type :=
| Iterable (items : list item)
| Scalar (o : item).           (* a bare str or bytes, or no iterable at all *)

(** One call of [jc.utils.warning_message]: the lines of the message. *)
Definition warning : Type := list string.

(** The result of [jc.utils.timestamp]: its [naive] and [utc] attributes. *)
Record timestamp_obj : Type := Timestamp { naive : option Z; utc : option Z }.

(** What the wrapped generator yields. *)
Inductive output : Type :=
| Bare (r : record)                       (* the record, no envelope *)
| Success (r : record)                    (* with _jc_meta: {success: true} *)
| Failure (error : string) (line : item). (* _jc_meta: {success: false, ...} *)

(** A run of the generator: the values yielded in order, what went to the
    diagnostic channel, and the exception that ended the run, if any. *)
Record stream : Type := Stream
  { yielded : list output;
    diagnostics : list warning;
    raised : option exn }.

Definition emit (os : list output) (ws : list warning) (s : stream) : stream :=
  Stream (os ++ yielded s) (ws ++ diagnostics s) (raised s).

Definition dquote : string := String "034"%char "".
Definition backslash : string := "\".

(** ** [jc.streaming] *)

(** Modelled from the spec: [jc.streaming.streaming_input_type_check] is not
    part of the sources; the data handed to the parser has to be a sequence
    of lines. *)
Definition streaming_input_type_check (data : source) : res (list item) :=
  match data with
  | Iterable items => ret items
  | Scalar _ =>
      raise (Exn "TypeError" "Input data must be a non-string iterable object.")
  end.

(** Modelled from the spec: [jc.streaming.streaming_line_input_type_check] is
    not part of the sources; an item of the input that is not text is an
    error. *)
Definition streaming_line_input_type_check (line : item) : res string :=
  match line with
  | PyStr s => ret s
  | _ => raise (Exn "TypeError" "Input line must be a 'str' object.")
  end.

(** Modelled from the spec: [jc.streaming.raise_or_yield] is not part of the
    sources; by default the exception propagates and ends the stream, in
    ignore-exceptions mode the exception and the offending line are handed
    on to be reported. *)
Definition raise_or_yield (ignore_exceptions : bool) (e : exn) (line : item)
  : res (exn * item) :=
  if ignore_exceptions then ret (e, line) else raise e.

(** Modelled from the spec: [jc.streaming.add_jc_meta] is not part of the
    sources; in tolerant mode every record is wrapped with the envelope
    [success: true], otherwise no envelope is attached. *)
Definition stream_success (r : record) (ignore_exceptions : bool) : output :=
  if ignore_exceptions then Success r else Bare r.

(** Modelled from the spec: [jc.streaming.add_jc_meta] is not part of the
    sources; the envelope of a failure carries [success: false], the
    description of the error and the offending raw line. *)
Definition stream_error (e : exn) (line : item) : output :=
  Failure (exn_class e ++ ": " ++ exn_msg e) line.

(** ** The parser: [jc/parsers/syslog_s.py] *)

Import Re.
Local Open Scope regex_scope.

(** [info.compatible] *)
Definition compatible : list string :=
  ["linux"; "darwin"; "cygwin"; "win32"; "aix"; "freebsd"].

(** [escape_map], in the order of its items. *)
Definition escape_map : Dict.t string :=
  [ ((backslash ++ backslash)%string, backslash);
    ((backslash ++ dquote)%string, dquote);
    ((backslash ++ "]")%string, "]") ].

(** The loop
    [for esc, esc_sub in escape_map.items(): val = val.replace(esc, esc_sub)]
    which [_extract_kv] and [_process] both run. *)
Definition fixup_escaped (val : string) : string :=
  fold_left (fun v kv => Py.replace (fst kv) (snd kv) v) escape_map val.

(** [(?P<eachstruct>\[.+?(?<!\\)\])] *)
Definition struct_match : regex :=
  Group "eachstruct"
    (chr "[" >> plus_lazy dot >> NotBehind (Ascii.eqb "\") >> chr "]").

Definition _extract_structs (structs_string : string) : list string :=
  map (fun st => group_or_empty st "eachstruct")
      (finditer struct_match structs_string).

(** The class [[^\[\=\x22\]\x20]]. *)
Definition ident_char (c : ascii) : bool :=
  negb (Ascii.eqb c "[" || Ascii.eqb c "=" || Ascii.eqb c "034"
        || Ascii.eqb c "]" || Ascii.eqb c " ").

(** [\[(?P<ident>[^\[\=\x22\]\x20]{1,32})\s] *)
Definition ident : regex :=
  chr "[" >> Group "ident" (upto 1 32 (Cls ident_char)) >> space.

Definition _extract_ident (struct_string : string) : option string :=
  match re_search ident struct_string with
  | Some ident_match => group ident_match "ident"
  | None => None
  end.

(** [(?P<key>\w+)=(?P<val>Q[^Q]*Q)], where Q is the escaped double quote. *)
Definition key_vals : regex :=
  Group "key" (plus word) >> chr "=" >>
  Group "val" (chr "034" >> star (Cls (fun c => negb (Ascii.eqb c "034")))
               >> chr "034").

(** The result is a list of one-entry dictionaries. *)
Definition _extract_kv (struct_string : string) : list (Dict.t string) :=
  map (fun kv =>
         let key := group_or_empty kv "key" in
         let val := group_or_empty kv "val" in
         let val := fixup_escaped val in
         [(key, Py.slice_1_m1 val)])
      (finditer key_vals struct_string).

(** The body of the loop over the structures in [_process]. *)
Definition struct_of (a_struct : string) : struct_obj :=
  let my_values := fold_left Dict.update (_extract_kv a_struct) [] in
  StructObj (_extract_ident a_struct) my_values.

(** The pattern [syslog] of [parse], written in verbose mode in the source:
    blanks and [(?#...)] comments of the pattern are not part of it.  The
    unnamed group inside [priority] does not appear in [groupdict()] and is
    plain grouping here. *)
Definition syslog : regex :=
  opt (Group "priority"
         (chr "<" >>
          (digit <|> times 2 digit <|> (chr "1" >> range "1" "8" >> digit)
           <|> (chr "1" >> chr "9" >> oneof "01")) >>
          chr ">")) >>
  opt (Group "version" (upto 1 2 digit)) >> star space >>
  Group "timestamp"
    (chr "-" <|>
     (Group "fullyear" (oneof "12" >> times 3 digit) >> chr "-" >>
      Group "month" ((chr "0" >> digit) <|> (oneof "1" >> oneof "012")) >>
      chr "-" >>
      Group "mday" ((oneof "012" >> digit) <|> (chr "3" >> oneof "01")) >>
      chr "T" >>
      Group "hour" ((oneof "01" >> digit) <|> (chr "2" >> range "0" "4")) >>
      chr ":" >>
      Group "minute" (range "0" "5" >> digit) >> chr ":" >>
      Group "second" ((range "0" "5" >> digit) <|> (chr "6" >> chr "0")) >>
      opt (chr "." >> Group "secfrac" (upto 1 6 digit)) >>
      Group "numoffset"
        (chr "Z" <|>
         (oneof "+-" >> times 2 digit >> chr ":" >> times 2 digit)))) >>
  space >>
  Group "hostname" (upto 1 255 nonspace) >> space >>
  Group "appname" (upto 1 48 nonspace) >> space >>
  Group "procid" (upto 1 128 nonspace) >> space >>
  Group "msgid" (upto 1 32 nonspace) >> space >>
  Group "structureddata"
    (chr "-" <|>
     plus (chr "[" >> plus_lazy dot >> NotBehind (Ascii.eqb "\") >> chr "]")) >>
  opt (space >> Group "msg" (plus dot)).

(** [syslog_match.groupdict()] followed by the loop that turns every [-]
    into [None]; read at one key. *)
Definition syslog_dict (syslog_match : mstate) (key : string) : option string :=
  match group syslog_match key with
  | Some s => if String.eqb s "-" then None else Some s
  | None => None
  end.

(** The [output_line] built from a match. *)
Definition matched_line (syslog_match : mstate) : record :=
  let priority :=
    match syslog_dict syslog_match "priority" with
    | Some p => if String.eqb p "" then None else Some (Py.slice_1_m1 p)
    | None => None
    end in
  [ ("priority", of_option priority);
    ("version", of_option (syslog_dict syslog_match "version"));
    ("timestamp", of_option (syslog_dict syslog_match "timestamp"));
    ("hostname", of_option (syslog_dict syslog_match "hostname"));
    ("appname", of_option (syslog_dict syslog_match "appname"));
    ("proc_id", of_option (syslog_dict syslog_match "procid"));
    ("msg_id", of_option (syslog_dict syslog_match "msgid"));
    ("structured_data", of_option (syslog_dict syslog_match "structureddata"));
    ("message", of_option (syslog_dict syslog_match "msg")) ].

(** [int_list] *)
Definition int_list : list string := ["priority"; "version"; "proc_id"].

Definition in_int_list (key : string) : bool :=
  existsb (String.eqb key) int_list.

(** [value.strip()] under [if proc_data[key]]; only a [str] has [strip]. *)
Definition strip_value (v : value) : res value :=
  if truthy v then
    match v with
    | VStr s => ret (VStr (Py.strip s))
    | _ => raise (Exn "AttributeError" "object has no attribute 'strip'")
    end
  else ret v.

(** The body of the first loop of [_process], on one item of the record. *)
Definition strip_entry (kv : string * value) : res (string * value) :=
  v <- strip_value (snd kv) ;; ret (fst kv, v).

(** A field that is present and true; after the first loop of [_process]
    such a field is a [str]. *)
Definition present (key : string) (proc_data : record) : option string :=
  match Dict.get key proc_data with
  | Some (VStr s) => if truthy (VStr s) then Some s else None
  | _ => None
  end.

Section Parser.
(** The functions of [jc.utils], which are not part of the sources.  Each
    may raise. *)
Variable compatibility : string -> list string -> bool -> list warning.
Variable timestamp : string -> list Z -> res timestamp_obj.
Variable convert_to_int : value -> res (option Z).

Definition _process (proc_data : record) : res record :=
  (* remove any spaces around values *)
  proc_data <- mmap strip_entry proc_data ;;
  (* add timestamp fields *)
  proc_data <-
    match present "timestamp" proc_data with
    | Some ts =>
        dt <- timestamp ts [1300; 1310]%Z ;;
        ret (Dict.set "timestamp_epoch_utc" (of_optionZ (utc dt))
               (Dict.set "timestamp_epoch" (of_optionZ (naive dt)) proc_data))
    | None => ret proc_data
    end ;;
  (* fixup escaped characters *)
  let proc_data :=
    match present "message" proc_data with
    | Some msg => Dict.set "message" (VStr (fixup_escaped msg)) proc_data
    | None => proc_data
    end in
  (* parse identity and key value pairs in the structured data section *)
  let proc_data :=
    match present "structured_data" proc_data with
    | Some sd =>
        Dict.set "structured_data"
                 (VList (map struct_of (_extract_structs sd))) proc_data
    | None => proc_data
    end in
  (* integer conversions *)
  mmap (fun kv =>
          if in_int_list (fst kv)
          then z <- convert_to_int (snd kv) ;; ret (fst kv, of_optionZ z)
          else ret kv)
       proc_data.

(** The body of [try] for one line: what is written to the diagnostic
    channel, and the record to yield ([None] for a skipped line) or the
    exception raised.  ([output_line] is never empty where the source tests
    [if output_line].) *)
Definition parse_line (raw quiet : bool) (line : item)
  : list warning * res (option record) :=
  match streaming_line_input_type_check line with
  | inl e => ([], raise e)
  | inr line =>
      (* skip blank lines *)
      if String.eqb (Py.strip line) "" then ([], ret None)
      else
        match re_match syslog line with
        | Some syslog_match =>
            let output_line := matched_line syslog_match in
            ([], if raw then ret (Some output_line)
                 else r <- _process output_line ;; ret (Some r))
        | None =>
            let output_line := [("unparsable", VStr (Py.rstrip line))] in
            (if quiet then []
             else [[("Unparsable line found: " ++ Py.rstrip line)%string]],
             if raw then ret (Some output_line)
             else r <- _process output_line ;; ret (Some r))
        end
  end.

(** The loop [for line in data] with its [except] clause, seen through the
    [add_jc_meta] wrapper. *)
Fixpoint parse_lines (raw quiet ignore_exceptions : bool) (data : list item)
  : stream :=
  match data with
  | [] => Stream [] [] None
  | line :: data' =>
      let (ws, r) := parse_line raw quiet line in
      match r with
      | inr None => emit [] ws (parse_lines raw quiet ignore_exceptions data')
      | inr (Some output_line) =>
          emit [stream_success output_line ignore_exceptions] ws
               (parse_lines raw quiet ignore_exceptions data')
      | inl e =>
          match raise_or_yield ignore_exceptions e line with
          | inr (e, line) =>
              emit [stream_error e line] ws
                   (parse_lines raw quiet ignore_exceptions data')
          | inl e => Stream [] ws (Some e)
          end
      end
  end.

Definition parse (data : source) (raw quiet ignore_exceptions : bool)
  : stream :=
  let ws := compatibility "jc.parsers.syslog_s" compatible quiet in
  match streaming_input_type_check data with
  | inl e => Stream [] ws (Some e)
  | inr lines => emit [] ws (parse_lines raw quiet ignore_exceptions lines)
  end.
End Parser.

(** ** [jc.utils], from the specification *)

Module Utils.
Local Open Scope Z_scope.

Definition digit_val (c : ascii) : Z := Z.of_N (Py.code c) - 48.

Fixpoint digits_val (acc : Z) (l : list ascii) : option Z :=
  match l with
  | [] => Some acc
  | c :: t =>
      if Py.isdecimal c then digits_val (10 * acc + digit_val c) t else None
  end.

Definition int_of_text (s : string) : option Z :=
  match s2l s with
  | [] => None
  | "-"%char :: (_ :: _) as ds => option_map Z.opp (digits_val 0 ds)
  | ds => digits_val 0 ds
  end.

(** Modelled from the spec: [jc.utils.convert_to_int] is not part of the
    sources; integer fields are coerced from their text form, and a
    non-numeric or missing value resolves to null. *)
Definition convert_to_int (v : value) : res (option Z) :=
  match v with
  | VStr s => ret (int_of_text s)
  | VInt z => ret (Some z)
  | _ => ret None
  end.

(** The fully specified date-time of the RFC layout: fractional seconds of
    one to six digits and an offset [Z] or [+HH:MM] / [-HH:MM]. *)
Definition rfc_layout : regex :=
  (Group "Y" (times 4 digit) >> chr "-" >> Group "m" (times 2 digit) >>
   chr "-" >> Group "d" (times 2 digit) >> chr "T" >>
   Group "H" (times 2 digit) >> chr ":" >> Group "M" (times 2 digit) >>
   chr ":" >> Group "S" (times 2 digit) >> chr "." >>
   Group "f" (upto 1 6 digit) >>
   Group "z" (chr "Z" <|>
              (oneof "+-" >> times 2 digit >> chr ":" >> times 2 digit)))%re.

Definition num (st : mstate) (name : string) : Z :=
  match int_of_text (group_or_empty st name) with
  | Some z => z
  | None => 0
  end.

Definition is_leap (y : Z) : bool :=
  ((y mod 4 =? 0) && (negb (y mod 100 =? 0) || (y mod 400 =? 0)))%Z.

Definition days_in_month (y mo : Z) : Z :=
  if (mo =? 2)%Z then (if is_leap y then 29 else 28)
  else if ((mo =? 4) || (mo =? 6) || (mo =? 9) || (mo =? 11))%Z then 30
  else 31.

(** Days from 1970-01-01 to the given date of the proleptic Gregorian
    calendar. *)
Definition days_from_civil (y mo d : Z) : Z :=
  let y := if (mo <=? 2)%Z then y - 1 else y in
  let era := y / 400 in
  let yoe := y - era * 400 in
  let doy := (153 * (if (mo >? 2)%Z then mo - 3 else mo + 9) + 2) / 5 + d - 1 in
  let doe := yoe * 365 + yoe / 4 - yoe / 100 + doy in
  era * 146097 + doe - 719468.

(** The wall-clock reading of a text in the RFC layout, in seconds, and
    whether its offset is literally UTC. *)
Definition read_rfc (data : string) : option (Z * bool) :=
  match re_match rfc_layout data with
  | Some st =>
      let y := num st "Y" in let mo := num st "m" in let d := num st "d" in
      let h := num st "H" in let mi := num st "M" in let s := num st "S" in
      let z := group_or_empty st "z" in
      match after st with
      | [] =>
          if ((1 <=? mo) && (mo <=? 12) && (1 <=? d)
              && (d <=? days_in_month y mo) && (h <=? 23) && (mi <=? 59)
              && (s <=? 59))%Z
          then Some (days_from_civil y mo d * 86400 + h * 3600 + mi * 60 + s,
                     String.eqb z "Z" || String.eqb z "+00:00")
          else None
      | _ :: _ => None
      end
  | None => None
  end.

(** Modelled from the spec: [jc.utils.timestamp] is not part of the sources;
    for a timestamp parsable under the RFC layout it computes two epoch
    representations, one interpreted against the local system clock (naive)
    and one UTC-aware, the latter only if the offset is literally UTC ([Z]
    or [+00:00]); otherwise the fields are null.  [local_offset] is the
    offset of the local clock from UTC, in seconds, at a wall-clock
    reading. *)
Definition timestamp (local_offset : Z -> Z) (data : string) (format : list Z)
  : res timestamp_obj :=
  match read_rfc data with
  | Some (wall, is_utc) =>
      ret (Timestamp (Some (wall - local_offset wall))
                     (if is_utc then Some wall else None))
  | None => ret (Timestamp None None)
  end.

(** Modelled from the spec: [jc.utils.compatibility] is not part of the
    sources, and the specification leaves the detection of the environment
    out of its scope; this is the function on a platform of the list of
    compatible ones, where nothing is written. *)
Definition compatibility (mod_name : string) (compatible : list string)
                         (quiet : bool) : list warning := [].

End Utils.

(** ** What a successful match looks like

    [Run r st st'] says that [r] can take the matcher from position [st] to
    position [st']: the declarative reading of the pattern, with no order
    among the alternatives. *)

Module Runs.

Section Iter.
Variable R : mstate -> mstate -> Prop.

Fixpoint iter (n : nat) (st st' : mstate) : Prop :=
  match n with
  | O => st' = st
  | S n' => exists st1, R st st1 /\ iter n' st1 st'
  end.
End Iter.

Fixpoint Run (r : regex) (st st' : mstate) : Prop :=
  match r with
  | Eps => st' = st
  | Cls p =>
      exists c rest, after st = c :: rest /\ p c = true /\ st' = advance c rest st
  | Seq a b => exists st1, Run a st st1 /\ Run b st1 st'
  | Alt a b => Run a st st' \/ Run b st st'
  | Group name a => exists st1, Run a st st1 /\ st' = close_group name st st1
  | Rep a lo hi _ =>
      exists n, lo <= n <= rep_fuel hi st /\ iter (Run a) n st st'
  | NotBehind p =>
      st' = st /\ forall c l, before st = c :: l -> p c = false
  end.

(** The names of the groups of a pattern. *)
Fixpoint gnames (r : regex) : list string :=
  match r with
  | Eps | Cls _ | NotBehind _ => []
  | Seq a b | Alt a b => gnames a ++ gnames b
  | Group name a => name :: gnames a
  | Rep a _ _ _ => gnames a
  end.

(** [st'] is [st] moved forward over the text [w], with the groups [d]
    closed on the way. *)
Definition moved (st st' : mstate) (w : list ascii)
                 (d : list (string * list ascii)) : Prop :=
  before st' = rev w ++ before st /\ after st = w ++ after st'
  /\ caps st' = d ++ caps st.

(** Whether every match of a pattern reads at least one character. *)
Fixpoint consuming (r : regex) : bool :=
  match r with
  | Eps | NotBehind _ => false
  | Cls _ => true
  | Seq a b => consuming a || consuming b
  | Alt a b => consuming a && consuming b
  | Group _ a => consuming a
  | Rep a lo _ _ => match lo with O => false | S _ => consuming a end
  end.

(** Whether every unbounded repeat of a pattern repeats a pattern that
    reads at least one character per iteration. *)
Fixpoint productive (r : regex) : bool :=
  match r with
  | Eps | Cls _ | NotBehind _ => true
  | Seq a b | Alt a b => productive a && productive b
  | Group _ a => productive a
  | Rep a _ hi _ =>
      productive a && match hi with None => consuming a | Some _ => true end
  end.

(** The matcher with [extra] more iterations allowed to every unbounded
    repeat than there are characters left. *)
Fixpoint m_more (extra : nat) (r : regex) (st : mstate) (k : cont) {struct r}
  : option mstate :=
  match r with
  | Eps => k st
  | Cls p =>
      match after st with
      | c :: rest => if p c then k (advance c rest st) else None
      | [] => None
      end
  | Seq a b => m_more extra a st (fun st1 => m_more extra b st1 k)
  | Alt a b =>
      match m_more extra a st k with
      | Some x => Some x
      | None => m_more extra b st k
      end
  | Group name a => m_more extra a st (fun st1 => k (close_group name st st1))
  | Rep a lo hi greedy =>
      rep (m_more extra a) greedy lo
          (match hi with
           | Some h => h
           | None => length (after st) + extra
           end) st k
  | NotBehind p =>
      match before st with
      | c :: _ => if p c then None else k st
      | [] => k st
      end
  end.

(** The result of [ma] depends on the continuation only at positions not
    before the current one, and after it when [ca] says that [ma] reads a
    character. *)
Definition local (ca : bool) (ma : mstate -> cont -> option mstate) : Prop :=
  forall st k k',
    (forall st1,
        length (after st1) + Nat.b2n ca <= length (after st) ->
        k st1 = k' st1) ->
    ma st k = ma st k'.

End Runs.

(** ** Parts of the pattern [syslog] *)

Module TokenParts.

(** The parts of [syslog] after the version: the rest of the timestamp
    after the year, and the fields after the timestamp. *)
Definition date_time_tail : regex :=
  (chr "-" >>
   Group "month" ((chr "0" >> digit) <|> (oneof "1" >> oneof "012")) >>
   chr "-" >>
   Group "mday" ((oneof "012" >> digit) <|> (chr "3" >> oneof "01")) >>
   chr "T" >>
   Group "hour" ((oneof "01" >> digit) <|> (chr "2" >> range "0" "4")) >>
   chr ":" >>
   Group "minute" (range "0" "5" >> digit) >> chr ":" >>
   Group "second" ((range "0" "5" >> digit) <|> (chr "6" >> chr "0")) >>
   opt (chr "." >> Group "secfrac" (upto 1 6 digit)) >>
   Group "numoffset"
     (chr "Z" <|>
      (oneof "+-" >> times 2 digit >> chr ":" >> times 2 digit)))%re.

(** One block of structured data. *)
Definition block : regex :=
  (chr "[" >> plus_lazy dot >> NotBehind (Ascii.eqb "\") >> chr "]")%re.

Definition data_and_msg : regex :=
  (Group "structureddata" (chr "-" <|> plus block) >>
   opt (space >> Group "msg" (plus dot)))%re.

Definition fields : regex :=
  (space >>
   Group "hostname" (upto 1 255 nonspace) >> space >>
   Group "appname" (upto 1 48 nonspace) >> space >>
   Group "procid" (upto 1 128 nonspace) >> space >>
   Group "msgid" (upto 1 32 nonspace) >> space >>
   data_and_msg)%re.

(** The priority, and the pattern after it. *)
Definition prio : regex :=
  (Group "priority"
     (chr "<" >>
      (digit <|> times 2 digit <|> (chr "1" >> range "1" "8" >> digit)
       <|> (chr "1" >> chr "9" >> oneof "01")) >>
      chr ">"))%re.

Definition after_prio : regex :=
  (opt (Group "version" (upto 1 2 digit)) >> star space >>
   Group "timestamp"
     (chr "-" <|>
      (Group "fullyear" (oneof "12" >> times 3 digit) >> date_time_tail)) >>
   fields)%re.

End TokenParts.

(** ** Reference definitions, in the words of the specification *)

(** Whether the text [l], read after the character [prev], has a closing
    bracket that is not escaped by a backslash just before it. *)
Fixpoint has_unescaped_close (prev : ascii) (l : list ascii) : bool :=
  match l with
  | [] => false
  | c :: t =>
      (Ascii.eqb "]" c && negb (Ascii.eqb "\" prev)) || has_unescaped_close c t
  end.

(** A body of one structured-data block: not empty, on one line, every
    closing bracket after its first character escaped, and not ending in a
    backslash. *)
Definition block_body (body : string) : bool :=
  match s2l body with
  | [] => false
  | c :: w =>
      negb (has_unescaped_close c w) && forallb not_newline (c :: w)
      && negb (Ascii.eqb "\" (last w c))
  end.

(** The leading run of characters of the identity class, at most [n] of
    them. *)
Fixpoint leading_run (n : nat) (l : list ascii) : list ascii :=
  match n, l with
  | S n', c :: t => if ident_char c then c :: leading_run n' t else []
  | _, _ => []
  end.

(** The identity of an entry in the words of the specification: the leading
    run of 1 to 32 characters, excluding brackets, equals sign, double quote
    and space, directly following the opening bracket; null when there is
    none. *)
Definition leading_ident (entry : string) : option string :=
  match s2l entry with
  | "["%char :: l =>
      match leading_run 32 l with
      | [] => None
      | run => Some (l2s run)
      end
  | _ => None
  end.

(** The line with its trailing line break removed. *)
Definition strip_trailing_newline (line : string) : string :=
  match rev (s2l line) with
  | "010"%char :: l => l2s (rev l)
  | _ => line
  end.

(** Escape resolution in one pass over the original text: each escape
    sequence (backslash-backslash, backslash-quote, backslash-bracket)
    stands for its second character. *)
Fixpoint resolve_escapes_l (l : list ascii) : list ascii :=
  match l with
  | [] => []
  | c :: t =>
      match t with
      | e :: t' =>
          if Ascii.eqb c "\"
             && (Ascii.eqb e "\" || Ascii.eqb e "034" || Ascii.eqb e "]")
          then e :: resolve_escapes_l t'
          else c :: resolve_escapes_l t
      | [] => [c]
      end
  end.

Definition resolve_escapes (s : string) : string :=
  l2s (resolve_escapes_l (s2l s)).

(** The keys of a record built from a match, those [_process] adds for a
    timestamp, and the key of a line that did not match. *)
Definition parsed_keys : list string :=
  ["priority"; "version"; "timestamp"; "hostname"; "appname"; "proc_id";
   "msg_id"; "structured_data"; "message"].

Definition epoch_keys : list string :=
  ["timestamp_epoch"; "timestamp_epoch_utc"].

(** [keys] after [d[k] = v]. *)
Definition add_key (k : string) (ks : list string) : list string :=
  if existsb (fun k' => String.eqb k' k) ks then ks else ks ++ [k].

(** A blank line: text that [strip] empties. *)
Definition is_blank (line : item) : bool :=
  match line with
  | PyStr s => String.eqb (Py.strip s) ""
  | _ => false
  end.

Definition is_text (line : item) : bool :=
  match line with
  | PyStr _ => true
  | _ => false
  end.

(** ** Sample lines *)

(** Scenario A of the specification. *)
Definition scenario_a : string :=
  "<165>1 2003-08-24T05:14:15.000003Z host01 app - - -".

(** The record of scenario A, given its two epoch timestamps. *)
Definition scenario_a_record (naive utc : option Z) : record :=
  [ ("priority", VInt 165); ("version", VInt 1);
    ("timestamp", VStr "2003-08-24T05:14:15.000003Z");
    ("hostname", VStr "host01"); ("appname", VStr "app");
    ("proc_id", VNone); ("msg_id", VNone);
    ("structured_data", VNone); ("message", VNone);
    ("timestamp_epoch", of_optionZ naive);
    ("timestamp_epoch_utc", of_optionZ utc) ].

Definition scenario_a_match : mstate :=
  match re_match syslog scenario_a with
  | Some st => st
  | None => start []
  end.

(** A line with structured data that has an escaped closing bracket. *)
Definition scenario_sd : string :=
  "<165>1 2003-08-24T05:14:15.000003Z host01 app - - [a b=x\]y] msg".

Definition scenario_sd_match : mstate :=
  match re_match syslog scenario_sd with
  | Some st => st
  | None => start []
  end.

Definition decimal (n : nat) : string :=
  NilEmpty.string_of_uint (Nat.to_uint n).

(** The priority [n] between its angle brackets, and the position of the
    matcher after it, with the group [priority] closed. *)
Definition bracketed (n : nat) : list ascii :=
  s2l ("<" ++ decimal n ++ ">").

Definition after_priority (n : nat) (rest : list ascii) : mstate :=
  MState (rev (bracketed n)) rest [("priority", bracketed n)].

(** The line of scenario A with another priority. *)
Definition with_priority (n : nat) : string :=
  ("<" ++ decimal n ++ ">1 2003-08-24T05:14:15.000003Z host01 app - - -")%string.

(** Whether the tokenizer does not match [with_priority n] for [n] from
    100 to 109, and otherwise matches it and reports [n]. *)
Definition priority_check (n : nat) : bool :=
  match re_match syslog (with_priority n) with
  | Some st =>
      match Dict.get "priority" (matched_line st) with
      | Some (VStr p) =>
          String.eqb p (decimal n) && negb ((100 <=? n) && (n <=? 109))%nat
      | _ => false
      end
  | None => ((100 <=? n) && (n <=? 109))%nat
  end.

(** The parser with [jc.utils] as the specification has it, on a machine
    on UTC. *)
Definition parse_utc : source -> bool -> bool -> bool -> stream :=
  parse Utils.compatibility (Utils.timestamp (fun _ => 0%Z))
        Utils.convert_to_int.

Definition parse_line_utc : bool -> bool -> item -> list warning * res (option record) :=
  parse_line (Utils.timestamp (fun _ => 0%Z)) Utils.convert_to_int.

(** ** Reference definitions for the stream *)

(** A line of text that is not blank and that the tokenizer does not
    match. *)
Definition is_unparsable (line : item) : bool :=
  match line with
  | PyStr s =>
      negb (String.eqb (Py.strip s) "")
      && match re_match syslog s with Some _ => false | None => true end
  | _ => false
  end.

(** The warning [parse] writes for a line that does not match. *)
Definition unparsable_warning (line : item) : warning :=
  match line with
  | PyStr s => [("Unparsable line found: " ++ Py.rstrip s)%string]
  | _ => []
  end.

(** A value of a raw record: text or null. *)
Definition is_raw_value (v : value) : bool :=
  match v with
  | VNone | VStr _ => true
  | _ => false
  end.

(** The record of an output, when it has one. *)
Definition record_of (o : output) : option record :=
  match o with
  | Bare r | Success r => Some r
  | Failure _ _ => None
  end.

(** The characters a line that matches [syslog] can start with: the opening
    bracket of a priority, a digit of a version or of a year, white space,
    or the placeholder of the timestamp. *)
Definition can_start (c : ascii) : bool :=
  Ascii.eqb c "<" || Py.isdecimal c || Py.isspace c || Ascii.eqb c "-".

(** [match.group(name)] read in a list of closed groups. *)
Definition lookup (name : string) (l : list (string * list ascii))
  : option string :=
  match find (fun p => String.eqb (fst p) name) l with
  | Some p => Some (l2s (snd p))
  | None => None
  end.

(** A token of at most [n] characters: not empty, no white space. *)
Definition token (n : nat) (s : string) : Prop :=
  1 <= String.length s <= n
  /\ Forall (fun c => Py.isspace c = false) (s2l s).

Definition all_space (s : string) : Prop :=
  Forall (fun c => Py.isspace c = true) (s2l s).

(** Whether every character class of a pattern lies within the class [q]:
    what the pattern reads is then made of characters of [q]. *)
Definition all_ascii : list ascii := map ascii_of_nat (seq 0 256).

Definition class_within (q p : ascii -> bool) : bool :=
  forallb (fun c => implb (p c) (q c)) all_ascii.

Fixpoint within (q : ascii -> bool) (r : regex) : bool :=
  match r with
  | Eps | NotBehind _ => true
  | Cls p => class_within q p
  | Seq a b | Alt a b => within q a && within q b
  | Group _ a | Rep a _ _ _ => within q a
  end.

Definition not_space (c : ascii) : bool := negb (Py.isspace c).

(** The digits the pattern [syslog] admits between the angle brackets of a
    priority: [\d], [\d{2}], [1[1-8]\d] or [19[01]]. *)
Definition priority_digits (ds : list ascii) : bool :=
  match ds with
  | [a] => Py.isdecimal a
  | [a; b] => Py.isdecimal a && Py.isdecimal b
  | [a; b; c] =>
      Ascii.eqb "1" a
      && ((Py.in_range (Py.code "1") (Py.code "8") b && Py.isdecimal c)
          || (Ascii.eqb "9" b && mem "01" c))
  | _ => false
  end.

(** The raw priority of a match: the text between the angle brackets. *)
Definition raw_priority (syslog_match : mstate) : option string :=
  match syslog_dict syslog_match "priority" with
  | Some p => if String.eqb p "" then None else Some (Py.slice_1_m1 p)
  | None => None
  end.

(** A field that [_process] leaves as it is: null, or a text that is not
    empty and does not change when stripped. *)
Definition clean (o : option string) : Prop :=
  forall s, o = Some s -> Py.strip s = s /\ s <> "".

Section Normalized.
Variable timestamp : string -> list Z -> res timestamp_obj.
Variable convert_to_int : value -> res (option Z).

(** The record of nine fields, given as null or text, after normalization,
    written field by field: the calls to [jc.utils] in the order the code
    makes them, then the record. *)
Definition normalized_fields
    (priority version ts hostname appname proc_id msg_id sd msg : option string)
  : res record :=
  epochs <-
    match ts with
    | Some t =>
        dt <- timestamp t [1300; 1310]%Z ;;
        ret [("timestamp_epoch", of_optionZ (naive dt));
             ("timestamp_epoch_utc", of_optionZ (utc dt))]
    | None => ret []
    end ;;
  priority <- convert_to_int (of_option priority) ;;
  version <- convert_to_int (of_option version) ;;
  proc_id <- convert_to_int (of_option proc_id) ;;
  ret ([ ("priority", of_optionZ priority);
         ("version", of_optionZ version);
         ("timestamp", of_option ts);
         ("hostname", of_option hostname);
         ("appname", of_option appname);
         ("proc_id", of_optionZ proc_id);
         ("msg_id", of_option msg_id);
         ("structured_data",
          match sd with
          | Some s => VList (map struct_of (_extract_structs s))
          | None => VNone
          end);
         ("message",
          match msg with
          | Some m => VStr (fixup_escaped (Py.strip m))
          | None => VNone
          end) ] ++ epochs).

(** The normalized record of a match. *)
Definition normalized (syslog_match : mstate) : res record :=
  normalized_fields
    (raw_priority syslog_match)
    (syslog_dict syslog_match "version")
    (syslog_dict syslog_match "timestamp")
    (syslog_dict syslog_match "hostname")
    (syslog_dict syslog_match "appname")
    (syslog_dict syslog_match "procid")
    (syslog_dict syslog_match "msgid")
    (syslog_dict syslog_match "structureddata")
    (syslog_dict syslog_match "msg").
End Normalized.

(** The number a text of decimal digits writes. *)
Definition digit_value (c : ascii) : nat := N.to_nat (Py.code c) - 48.

Definition digits_value (ds : list ascii) : nat :=
  fold_left (fun acc c => 10 * acc + digit_value c) ds 0.

(** Whether no backslash follows a backslash. *)
Fixpoint no_double_backslash (l : list ascii) : bool :=
  match l with
  | [] => true
  | c :: t =>
      negb (Ascii.eqb c "\"
            && match t with
               | e :: _ => Ascii.eqb e "\"
               | [] => false
               end)
      && no_double_backslash t
  end.

(** The text made of gaps and entries in turn: a gap, an entry, a gap, ...,
    the last gap. *)
Fixpoint interleave_l (gaps entries : list (list ascii)) : list ascii :=
  match gaps, entries with
  | g :: gaps', e :: entries' => g ++ e ++ interleave_l gaps' entries'
  | g :: _, [] => g
  | [], _ => []
  end.

Definition interleave (gaps entries : list string) : string :=
  l2s (interleave_l (map s2l gaps) (map s2l entries)).

(** The loop of [parse] in strict, normalizing, non-quiet mode, with
    [jc.utils] as the specification has it, on a machine on UTC. *)
Definition parse_line_stream_utc (data : list item) : stream :=
  parse_lines (Utils.timestamp (fun _ => 0%Z)) Utils.convert_to_int
              false false false data.

(** The pattern of the group [timestamp] of [syslog]. *)
Definition stamp : regex :=
  (chr "-" <|>
   (Group "fullyear" (oneof "12" >> times 3 digit) >>
    TokenParts.date_time_tail))%re.

(** * Properties *)

#[local] Arguments Ascii.eqb : simpl never.

(** Replace a closed term by its value. *)
Ltac compute_closed t :=
  let x := eval vm_compute in t in
  replace t with x by (vm_compute; reflexivity).

(** ** The matcher *)

Module ReFacts.
Import Runs.

Lemma rep_sound (ma : mstate -> cont -> option mstate)
      (R : mstate -> mstate -> Prop) (greedy : bool) :
  (forall st k x, ma st k = Some x -> exists st', R st st' /\ k st' = Some x) ->
  forall fuel need st k x,
    rep ma greedy need fuel st k = Some x ->
    exists n st', need <= n <= fuel /\ iter R n st st' /\ k st' = Some x.
Proof.
  intros Hma. induction fuel as [|fuel IH]; intros need st k x H; simpl in H.
  - destruct need; [|discriminate]. exists 0, st. simpl. repeat split; auto.
  - destruct need as [|need].
    + assert (Hiter : forall y, ma st (fun st1 => rep ma greedy 0 fuel st1 k) = Some y ->
                exists n st', 0 <= n <= S fuel /\ iter R n st st' /\ k st' = Some y).
      { intros y Hy. apply Hma in Hy as (st1 & HR & Hy).
        apply IH in Hy as (n & st' & Hn & Hit & Hk).
        exists (S n), st'. repeat split; try lia; auto. simpl. eauto. }
      assert (Hstop : forall y, k st = Some y ->
                exists n st', 0 <= n <= S fuel /\ iter R n st st' /\ k st' = Some y).
      { intros y Hy. exists 0, st. simpl. repeat split; auto; lia. }
      destruct greedy.
      * destruct (ma st _) eqn:E.
        -- inversion H; subst. auto.
        -- auto.
      * destruct (k st) eqn:E.
        -- inversion H; subst. auto.
        -- auto.
    + apply Hma in H as (st1 & HR & H).
      apply IH in H as (n & st' & Hn & Hit & Hk).
      exists (S n), st'. repeat split; try lia; auto. simpl. eauto.
Qed.

(** Every result of the matcher is a run of the pattern, handed to the
    continuation. *)
Lemma m_sound (r : regex) :
  forall st k x, m r st k = Some x -> exists st', Run r st st' /\ k st' = Some x.
Proof.
  induction r as [|p|a IHa b IHb|a IHa b IHb|name a IHa|a IHa lo hi g|p];
    intros st k x H; simpl in H.
  - exists st. simpl. auto.
  - destruct (after st) as [|c rest] eqn:E; [discriminate|].
    destruct (p c) eqn:Ep; [|discriminate].
    exists (advance c rest st). split; auto. simpl. eauto.
  - apply IHa in H as (st1 & Ha & H). apply IHb in H as (st' & Hb & H).
    exists st'. split; auto. simpl. eauto.
  - destruct (m a st k) eqn:E.
    + inversion H; subst. apply IHa in E as (st' & Ha & E).
      exists st'. simpl. auto.
    + apply IHb in H as (st' & Hb & H). exists st'. simpl. auto.
  - apply IHa in H as (st1 & Ha & H).
    exists (close_group name st st1). split; auto. simpl. eauto.
  - apply (rep_sound _ (Run a) g IHa) in H as (n & st' & Hn & Hit & Hk).
    exists st'. split; auto. simpl. eauto.
  - destruct (before st) as [|c l] eqn:E.
    + exists st. split; auto. simpl. split; auto. intros; congruence.
    + destruct (p c) eqn:Ep; [discriminate|].
      exists st. split; auto. simpl. split; auto. intros c' l' Hc.
      rewrite E in Hc. inversion Hc; subst. assumption.
Qed.

Lemma Run_Rep a lo hi g st st' :
  Run (Rep a lo hi g) st st' -> exists n, lo <= n /\ iter (Run a) n st st'.
Proof. cbn [Run]. intros (n & Hn & H). exists n. split; [lia|assumption]. Qed.

Lemma moved_refl st : moved st st [] [].
Proof. unfold moved. simpl. auto. Qed.

Lemma moved_trans st0 st1 st2 w1 d1 w2 d2 :
  moved st0 st1 w1 d1 -> moved st1 st2 w2 d2 ->
  moved st0 st2 (w1 ++ w2) (d2 ++ d1).
Proof.
  unfold moved. intros (B1 & A1 & C1) (B2 & A2 & C2).
  rewrite B2, B1, A1, A2, C2, C1, rev_app_distr, !app_assoc. auto.
Qed.

Lemma moved_consumed st st' w d : moved st st' w d -> consumed st st' = w.
Proof.
  unfold moved, consumed. intros (B & _ & _). rewrite B.
  rewrite length_app, length_rev.
  replace (length w + length (before st) - length (before st))
    with (length (rev w) + 0) by (rewrite length_rev; lia).
  rewrite firstn_app_2. simpl. rewrite app_nil_r. apply rev_involutive.
Qed.

Lemma iter_moved (R : mstate -> mstate -> Prop) (names : list string) :
  (forall st st', R st st' ->
     exists w d, moved st st' w d /\ Forall (fun p => In (fst p) names) d) ->
  forall n st st', iter R n st st' ->
     exists w d, moved st st' w d /\ Forall (fun p => In (fst p) names) d.
Proof.
  intros HR. induction n as [|n IH]; intros st st' H; simpl in H.
  - subst. exists [], []. split; [apply moved_refl|constructor].
  - destruct H as (st1 & H1 & H). apply HR in H1 as (w1 & d1 & M1 & F1).
    apply IH in H as (w2 & d2 & M2 & F2).
    exists (w1 ++ w2), (d2 ++ d1). split.
    + eapply moved_trans; eauto.
    + apply Forall_app. auto.
Qed.

(** A run moves forward over a piece of the subject and closes only groups
    of the pattern. *)
Lemma Run_moved (r : regex) :
  forall st st', Run r st st' ->
    exists w d, moved st st' w d /\ Forall (fun p => In (fst p) (gnames r)) d.
Proof.
  induction r as [|p|a IHa b IHb|a IHa b IHb|name a IHa|a IHa lo hi g|p];
    intros st st' H; simpl in H.
  - subst. exists [], []. split; [apply moved_refl|constructor].
  - destruct H as (c & rest & E & _ & ->). exists [c], [].
    split; [|constructor]. unfold moved, advance. simpl. auto.
  - destruct H as (st1 & Ha & Hb).
    apply IHa in Ha as (w1 & d1 & M1 & F1). apply IHb in Hb as (w2 & d2 & M2 & F2).
    exists (w1 ++ w2), (d2 ++ d1). split; [eapply moved_trans; eauto|].
    simpl. apply Forall_app. split; eapply Forall_impl; eauto; simpl;
      intros; apply in_or_app; auto.
  - destruct H as [H|H]; [apply IHa in H|apply IHb in H];
      destruct H as (w & d & M & F); exists w, d; split; auto;
      eapply Forall_impl; eauto; simpl; intros; apply in_or_app; auto.
  - destruct H as (st1 & Ha & ->). apply IHa in Ha as (w & d & M & F).
    exists w, ((name, consumed st st1) :: d). split.
    + destruct M as (B & A & C). unfold moved, close_group. simpl.
      rewrite C. auto.
    + constructor; simpl; auto. eapply Forall_impl; eauto. simpl. auto.
  - destruct H as (n & _ & H). eapply iter_moved; eauto.
  - destruct H as (-> & _). exists [], []. split; [apply moved_refl|constructor].
Qed.

(** Iterating a character class reads characters of the class. *)
Lemma iter_Cls (p : ascii -> bool) :
  forall n st st', iter (Run (Cls p)) n st st' ->
    exists w, moved st st' w [] /\ length w = n /\ Forall (fun c => p c = true) w.
Proof.
  induction n as [|n IH]; intros st st' H; simpl in H.
  - subst. exists []. split; [apply moved_refl|]. split; auto.
  - destruct H as (st1 & (c & rest & E & Ep & ->) & H).
    apply IH in H as (w & M & L & F). exists (c :: w). split.
    + apply (moved_trans st (advance c rest st) st' [c] [] w []); auto.
      unfold moved, advance. simpl. auto.
    + split; simpl; auto.
Qed.

Lemma Run_Cls p st st' :
  Run (Cls p) st st' -> exists c, moved st st' [c] [] /\ p c = true.
Proof.
  simpl. intros (c & rest & E & Ep & ->). exists c. split; auto.
  unfold moved, advance. simpl. auto.
Qed.

End ReFacts.

(** ** The bound on the iterations of an unbounded repeat

    The matcher allows an unbounded repeat as many iterations as there are
    characters left.  For the patterns of the parser, whose repeated parts
    read at least one character per iteration, allowing more changes
    nothing. *)

Module Fuel.
Import Runs.

Lemma local_weaken ca ma : local ca ma -> local false ma.
Proof.
  intros H st k k' Hk. apply H. intros st1 H1. apply Hk.
  destruct ca; simpl in *; lia.
Qed.

Lemma rep_local ma g ca :
  local ca ma ->
  forall fuel need st k k',
    (forall st1,
        length (after st1) + Nat.b2n (match need with O => false | S _ => ca end)
        <= length (after st) -> k st1 = k' st1) ->
    rep ma g need fuel st k = rep ma g need fuel st k'.
Proof.
  intros Hma. induction fuel as [|fuel IH]; intros need st k k' Hk.
  - destruct need; cbn [rep]; [|reflexivity]. apply Hk. simpl. lia.
  - destruct need as [|need]; cbn [rep].
    + assert (E : ma st (fun st1 => rep ma g 0 fuel st1 k)
                  = ma st (fun st1 => rep ma g 0 fuel st1 k')).
      { apply Hma. intros st1 H1. apply IH. intros st2 H2. apply Hk.
        simpl in *. lia. }
      assert (E' : k st = k' st) by (apply Hk; simpl; lia).
      rewrite E, E'. reflexivity.
    + apply Hma. intros st1 H1. apply IH. intros st2 H2. apply Hk.
      destruct need, ca; simpl in *; lia.
Qed.

Lemma m_more_local (extra : nat) (r : regex) :
  local (consuming r) (m_more extra r).
Proof.
  induction r as [|p|a IHa b IHb|a IHa b IHb|name a IHa|a IHa lo hi g|p];
    intros st k k' Hk; cbn [m_more consuming] in *.
  - apply Hk. simpl. lia.
  - destruct (after st) as [|c rest] eqn:E; [reflexivity|].
    destruct (p c); [|reflexivity]. apply Hk.
    unfold advance. cbn [after Nat.b2n]. try rewrite E. simpl. lia.
  - apply IHa. intros st1 H1. apply IHb. intros st2 H2. apply Hk.
    destruct (consuming a), (consuming b); simpl in *; lia.
  - rewrite (IHa st k k'), (IHb st k k'); [reflexivity| |];
      intros st1 H1; apply Hk;
      destruct (consuming a), (consuming b); simpl in *; lia.
  - apply IHa. intros st1 H1. apply Hk. unfold close_group. cbn [after].
    exact H1.
  - apply (rep_local _ g (consuming a) IHa). exact Hk.
  - destruct (before st) as [|c l]; [|destruct (p c); [reflexivity|]];
      apply Hk; simpl; lia.
Qed.

Lemma rep_ext ma ma' g :
  (forall st k, ma st k = ma' st k) -> local false ma ->
  forall fuel need st k, rep ma g need fuel st k = rep ma' g need fuel st k.
Proof.
  intros He Hl. induction fuel as [|fuel IH]; intros need st k; cbn [rep];
    [reflexivity|].
  assert (E : forall n, ma st (fun st1 => rep ma g n fuel st1 k)
                        = ma' st (fun st1 => rep ma' g n fuel st1 k)).
  { intros n. rewrite <- He. apply Hl. intros st1 _. apply IH. }
  destruct need; rewrite E; reflexivity.
Qed.

(** With a part that reads a character per iteration, any two bounds that
    are at least the number of characters left give the same result. *)
Lemma rep_more_fuel ma g :
  local true ma ->
  (forall st, ma st (fun _ => None) = None) ->
  forall f f' need st k,
    length (after st) <= f -> length (after st) <= f' ->
    rep ma g need f st k = rep ma g need f' st k.
Proof.
  intros Hl Hn.
  assert (Hend : forall st K, length (after st) = 0 -> ma st K = None).
  { intros st K H0. transitivity (ma st (fun _ => None)); [|apply Hn].
    apply Hl. intros st1 H1. simpl in H1. lia. }
  assert (Hzero : forall f need st k,
             length (after st) = 0 -> rep ma g need f st k = rep ma g need 0 st k).
  { intros f need st k H0. destruct f as [|f]; [reflexivity|].
    destruct need as [|need]; cbn [rep]; rewrite Hend by assumption.
    - destruct g; [reflexivity|]. destruct (k st); reflexivity.
    - reflexivity. }
  induction f as [|f IH]; intros f' need st k Hf Hf'.
  - symmetry. apply Hzero. lia.
  - destruct f' as [|f']; [apply Hzero; lia|].
    assert (E : forall n, ma st (fun st1 => rep ma g n f st1 k)
                          = ma st (fun st1 => rep ma g n f' st1 k)).
    { intros n. apply Hl. intros st1 H1. simpl in H1. apply IH; lia. }
    destruct need; cbn [rep]; rewrite E; reflexivity.
Qed.

Lemma rep_none ma g :
  local false ma -> (forall st, ma st (fun _ => None) = None) ->
  forall fuel need st, rep ma g need fuel st (fun _ => None) = None.
Proof.
  intros Hl Hn. induction fuel as [|fuel IH]; intros need st; cbn [rep].
  - destruct need; reflexivity.
  - assert (E : forall n, ma st (fun st1 => rep ma g n fuel st1 (fun _ => None))
                          = None).
    { intros n. transitivity (ma st (fun _ => None)); [|apply Hn].
      apply Hl. intros st1 _. apply IH. }
    destruct need; rewrite E; [destruct g|]; reflexivity.
Qed.

Lemma m_more_none (extra : nat) (r : regex) :
  forall st, m_more extra r st (fun _ => None) = None.
Proof.
  induction r as [|p|a IHa b IHb|a IHa b IHb|name a IHa|a IHa lo hi g|p];
    intros st; cbn [m_more].
  - reflexivity.
  - destruct (after st); [reflexivity|]. destruct (p a); reflexivity.
  - transitivity (m_more extra a st (fun _ => None)); [|apply IHa].
    apply (local_weaken _ _ (m_more_local extra a)). intros st1 _. apply IHb.
  - now rewrite IHa, IHb.
  - apply IHa.
  - apply rep_none; [|assumption].
    apply (local_weaken _ _ (m_more_local extra a)).
  - destruct (before st); [reflexivity|]. destruct (p a); reflexivity.
Qed.

(** More iterations allowed to the unbounded repeats of a productive
    pattern change nothing. *)
Theorem more_fuel_same (r : regex) :
  productive r = true ->
  forall extra st k, m_more extra r st k = m r st k.
Proof.
  induction r as [|p|a IHa b IHb|a IHa b IHb|name a IHa|a IHa lo hi g|p];
    cbn [productive]; intros Hp extra st k; cbn [m_more m];
    try reflexivity.
  - apply andb_true_iff in Hp as (Ha & Hb).
    rewrite <- (IHa Ha extra).
    apply (local_weaken _ _ (m_more_local extra a)). intros st1 _.
    now apply IHb.
  - apply andb_true_iff in Hp as (Ha & Hb).
    now rewrite (IHa Ha), (IHb Hb).
  - now apply IHa.
  - apply andb_true_iff in Hp as (Ha & Hc).
    rewrite (rep_ext (m_more extra a) (m a) g (IHa Ha extra)
               (local_weaken _ _ (m_more_local extra a))).
    destruct hi as [h|]; [reflexivity|]. cbn [rep_fuel].
    apply rep_more_fuel; try lia.
    + intros st0 k0 k0' Hk. rewrite <- !(IHa Ha extra).
      pose proof (m_more_local extra a) as Hl. rewrite Hc in Hl.
      now apply Hl.
    + intros st0. transitivity (m_more extra a st0 (fun _ => None));
        [symmetry; apply (IHa Ha)|apply m_more_none].
Qed.

(** The patterns of the parser are productive: their matches do not
    depend on the bound. *)
Lemma patterns_productive :
  productive syslog = true /\ productive struct_match = true
  /\ productive ident = true /\ productive key_vals = true.
Proof. split; [|split; [|split]]; reflexivity. Qed.

Corollary patterns_more_fuel (extra : nat) (st : mstate) (k : cont) :
  m_more extra syslog st k = m syslog st k
  /\ m_more extra struct_match st k = m struct_match st k
  /\ m_more extra ident st k = m ident st k
  /\ m_more extra key_vals st k = m key_vals st k.
Proof.
  split; [|split; [|split]]; apply more_fuel_same; reflexivity.
Qed.

End Fuel.

(** ** Strings and lists of characters *)

Lemma s2l_app (a b : string) : s2l (a ++ b) = s2l a ++ s2l b.
Proof. induction a as [|c a IH]; simpl; [reflexivity|]. now rewrite IH. Qed.

Lemma l2s_app (a b : list ascii) : l2s (a ++ b) = (l2s a ++ l2s b)%string.
Proof. induction a as [|c a IH]; simpl; [reflexivity|]. now rewrite IH. Qed.

Lemma l2s_inj (a b : list ascii) : l2s a = l2s b -> a = b.
Proof.
  intros H. rewrite <- (list_ascii_of_string_of_list_ascii a),
    <- (list_ascii_of_string_of_list_ascii b). now rewrite H.
Qed.

(** ** Splitting the structured data *)

Module Structs.
Import Runs ReFacts TokenParts.

Lemma finditer_from_in (r : regex) :
  forall aft skip bef st,
    In st (finditer_from r skip bef aft) ->
    exists bef' aft', match_here r (MState bef' aft' []) = Some st.
Proof.
  induction aft as [|c rest IH]; intros skip bef st H; simpl in H.
  - destruct skip; [|contradiction].
    destruct (match_here r _) eqn:E; [|contradiction].
    destruct H as [->|[]]. eauto.
  - destruct skip as [|k]; [|eauto].
    destruct (match_here r _) eqn:E; [|eauto].
    destruct H as [->|H]; eauto.
Qed.

Lemma group_close (name : string) (st0 st1 : mstate) :
  group (close_group name st0 st1) name = Some (l2s (consumed st0 st1)).
Proof. unfold group, close_group. simpl. now rewrite String.eqb_refl. Qed.

(** The text of one block: a bracket, a non-empty body on one line whose
    last character is not a backslash, and the closing bracket. *)
Lemma block_text st st' :
  Run block st st' ->
  exists w c,
    moved st st' ("["%char :: w ++ [c; "]"%char]) []
    /\ c <> "\"%char /\ Forall (fun c => not_newline c = true) (w ++ [c]).
Proof.
  unfold block, plus_lazy. cbn [Run].
  intros (sta & Ha & stb & (n & Hn & Hb) & stc & (-> & Hc) & Hd).
  apply Run_Cls in Ha as (a & Ma & Ea). apply Ascii.eqb_eq in Ea. subst a.
  apply (iter_Cls not_newline) in Hb as (w & Mb & Lw & Fw).
  apply Run_Cls in Hd as (d & Md & Ed). apply Ascii.eqb_eq in Ed. subst d.
  destruct (exists_last (l := w)) as (w' & c & ->).
  { intros ->. simpl in Lw. lia. }
  exists w', c. split; [|split; [|assumption]].
  - pose proof (moved_trans _ _ _ _ _ _ _ Ma (moved_trans _ _ _ _ _ _ _ Mb Md)) as M.
    cbn [app] in M. now rewrite <- app_assoc in M.
  - intros ->. destruct Mb as (B & _ & _). rewrite rev_app_distr in B.
    cbn [rev app] in B. specialize (Hc _ _ B). discriminate.
Qed.

(** One block or more: the text starts with a bracket and ends with a
    closing bracket that no backslash precedes. *)
Lemma blocks_text n st st' :
  iter (Run block) (S n) st st' ->
  exists w c,
    moved st st' ("["%char :: w ++ [c; "]"%char]) [] /\ c <> "\"%char.
Proof.
  revert st. induction n as [|n IH]; intros st (st1 & H1 & H).
  - cbn [iter] in H. subst st'.
    apply block_text in H1 as (w & c & M & Hc & _). eauto.
  - apply block_text in H1 as (w1 & c1 & M1 & _).
    apply IH in H as (w & c & M & Hc).
    exists (w1 ++ [c1; "]"%char] ++ "["%char :: w), c. split; [|assumption].
    pose proof (moved_trans _ _ _ _ _ _ _ M1 M) as M'.
    cbn [app] in M'. rewrite <- !app_assoc in M'. cbn [app] in M'.
    rewrite <- !app_assoc. exact M'.
Qed.

(** The text of a match of [struct_match]. *)
Lemma struct_match_text st0 st :
  match_here struct_match st0 = Some st ->
  exists w c,
    group_or_empty st "eachstruct" = l2s ("["%char :: w ++ [c; "]"%char])
    /\ c <> "\"%char /\ Forall (fun c => not_newline c = true) (w ++ [c]).
Proof.
  unfold match_here. intros H.
  apply m_sound in H as (st' & H & E). inversion E; subst st'; clear E.
  change struct_match with (Group "eachstruct" block) in H. cbn [Run] in H.
  destruct H as (st1 & H & ->).
  apply block_text in H as (w & c & M & Hc & F).
  exists w, c. split; [|split; assumption].
  unfold group_or_empty. rewrite group_close.
  apply moved_consumed in M. now rewrite M.
Qed.

End Structs.

(** Every entry of the split is an opening bracket, a non-empty body
    without line break whose last character is not a backslash, and the
    closing bracket. *)
Lemma extract_structs_entry_shape (structs_string entry : string) :
  In entry (_extract_structs structs_string) ->
  exists (body : string) (c : ascii),
    entry = ("[" ++ body ++ String c "]")%string
    /\ c <> "\"%char
    /\ Forall (fun c => not_newline c = true) (s2l body ++ [c]).
Proof.
  intros H. unfold _extract_structs, finditer in H.
  apply in_map_iff in H as (st & <- & H).
  apply Structs.finditer_from_in in H as (bef & aft & H).
  apply Structs.struct_match_text in H as (w & c & E & Hc & F).
  exists (l2s w), c. rewrite E. split; [|split; auto].
  - simpl. f_equal. now rewrite l2s_app.
  - now rewrite list_ascii_of_string_of_list_ascii.
Qed.

Module Blocks.
Import Runs ReFacts.

Lemma last_cons {A : Type} (c d : A) (w : list A) : last (c :: w) d = last w c.
Proof.
  revert c d. induction w as [|a w IH]; intros c d; [reflexivity|].
  change (last (c :: a :: w) d) with (last (a :: w) d).
  rewrite (IH a d). symmetry. apply (IH a c).
Qed.

(** The lazy repeat walks over a body with no unescaped closing bracket and
    stops at the bracket after it. *)
Lemma lazy_scan (k K : cont) (x : mstate) :
  (forall st, k st = m (NotBehind (Ascii.eqb "\") >> chr "]") st K) ->
  forall w prev bef rest cs fuel,
    has_unescaped_close prev w = false ->
    forallb not_newline w = true ->
    Ascii.eqb "\" (last w prev) = false ->
    length w <= fuel ->
    K (MState ("]"%char :: rev w ++ prev :: bef) rest cs) = Some x ->
    rep (m dot) false 0 fuel (MState (prev :: bef) (w ++ "]"%char :: rest) cs) k
    = Some x.
Proof.
  intros Hk. induction w as [|c w IH]; intros prev bef rest cs fuel Hu Hn Hl Hf HK.
  - assert (E : k (MState (prev :: bef) ("]"%char :: rest) cs) = Some x).
    { rewrite Hk. cbn [m before after chr]. simpl in Hl. rewrite Hl.
      cbn [m after chr]. exact HK. }
    destruct fuel; simpl; rewrite E; reflexivity.
  - destruct fuel as [|fuel]; [simpl in Hf; lia|].
    simpl in Hu. apply orb_false_iff in Hu as (Hu1 & Hu2).
    simpl in Hn. apply andb_true_iff in Hn as (Hn1 & Hn2).
    rewrite last_cons in Hl.
    assert (E : k (MState (prev :: bef) ((c :: w) ++ "]"%char :: rest) cs) = None).
    { rewrite Hk. cbn [m before after chr app].
      destruct (Ascii.eqb "\" prev) eqn:Ep; [reflexivity|].
      cbn [m after chr]. simpl in Hu1.
      rewrite andb_true_r in Hu1. rewrite Hu1. reflexivity. }
    cbn [rep]. rewrite E. unfold dot at 1. cbn [m after app]. rewrite Hn1.
    unfold advance. cbn [before caps].
    apply IH; auto.
    + simpl in Hf. lia.
    + cbn [rev] in HK. rewrite <- app_assoc in HK. exact HK.
Qed.

(** The match of [struct_match] at a block with a well-formed body. *)
Lemma struct_match_block bef c w rest :
  has_unescaped_close c w = false ->
  forallb not_newline (c :: w) = true ->
  Ascii.eqb "\" (last w c) = false ->
  match_here struct_match (MState bef ("["%char :: c :: w ++ "]"%char :: rest) [])
  = Some (MState ("]"%char :: rev w ++ c :: "["%char :: bef) rest
                 [("eachstruct", "["%char :: c :: w ++ ["]"%char])]).
Proof.
  intros Hu Hn Hl. unfold match_here, struct_match, plus_lazy.
  cbn [m before after caps chr]. rewrite Ascii.eqb_refl.
  unfold rep_fuel, advance. cbn [before after caps length rep].
  simpl in Hn. apply andb_true_iff in Hn as (Hn1 & Hn2).
  unfold dot at 1. cbn [m after]. rewrite Hn1. unfold advance. cbn [before caps].
  apply lazy_scan with
    (K := fun st1 => Some (close_group "eachstruct"
                             (MState bef ("["%char :: c :: w ++ "]"%char :: rest) []) st1));
    auto.
  - rewrite length_app. simpl. lia.
  - unfold close_group. cbn [before after caps]. do 2 f_equal.
    f_equal. unfold consumed. cbn [before].
    replace (length ("]"%char :: rev w ++ c :: "["%char :: bef) - length bef)
      with (length ("]"%char :: rev w ++ [c; "["%char]) + 0).
    2:{ cbn [length]. rewrite !length_app. cbn [length]. lia. }
    replace ("]"%char :: rev w ++ c :: "["%char :: bef)
      with (("]"%char :: rev w ++ [c; "["%char]) ++ bef).
    2:{ simpl. rewrite <- app_assoc. reflexivity. }
    rewrite firstn_app_2. simpl firstn. rewrite app_nil_r.
    simpl. rewrite rev_app_distr. simpl. rewrite rev_involutive.
    reflexivity.
Qed.

Lemma finditer_skip_all (r : regex) :
  (forall bef, match_here r (MState bef [] []) = None) ->
  forall aft bef, finditer_from r (length aft) bef aft = [].
Proof.
  intros H. induction aft as [|c aft IH]; intros bef; simpl.
  - now rewrite H.
  - apply IH.
Qed.

Lemma finditer_match (r : regex) bef c rest st :
  match_here r (MState bef (c :: rest) []) = Some st ->
  finditer_from r 0 bef (c :: rest)
  = st :: finditer_from r (length (before st) - length bef - 1) (c :: bef) rest.
Proof. intros H. simpl. now rewrite H. Qed.

End Blocks.

(** A block with a well-formed body, escaped closing brackets included, is
    one entry of the split. *)
Lemma extract_structs_whole_block (body : string) :
  block_body body = true ->
  _extract_structs ("[" ++ body ++ "]") = [("[" ++ body ++ "]")%string].
Proof.
  unfold block_body. intros H.
  unfold _extract_structs, finditer. simpl s2l. rewrite s2l_app.
  destruct (s2l body) as [|c w] eqn:E; [discriminate|].
  apply andb_true_iff in H as (H & Hl). apply andb_true_iff in H as (Hu & Hn).
  apply negb_true_iff in Hu, Hl. simpl s2l. simpl app.
  rewrite (Blocks.finditer_match _ _ _ _ _
             (Blocks.struct_match_block [] c w [] Hu Hn Hl)).
  cbn [before].
  replace (length ("]"%char :: rev w ++ [c; "["%char]) - length (@nil ascii) - 1)
    with (length (c :: w ++ ["]"%char])).
  2:{ cbn [length]. rewrite !length_app, length_rev. cbn [length]. lia. }
  rewrite Blocks.finditer_skip_all by reflexivity.
  cbn [map]. f_equal. unfold group_or_empty, group.
  cbn [caps find fst]. rewrite String.eqb_refl. cbn [snd].
  change ("["%char :: c :: w ++ ["]"%char]) with ("["%char :: (c :: w) ++ ["]"%char]).
  rewrite <- E.
  change (l2s ("["%char :: s2l body ++ ["]"%char]))
    with (String "[" (l2s (s2l body ++ ["]"%char]))).
  rewrite l2s_app. now rewrite string_of_list_ascii_of_string.
Qed.

(** ** Identity and parameters of an entry *)

Module Idents.
Import Runs ReFacts.

(** A greedy repeat of a class reads a whole run of the class when the
    continuation accepts what follows the run. *)
Lemma greedy_run (p : ascii -> bool) (k : cont) (x : mstate) :
  forall w need fuel bef c rest cs,
    Forall (fun a => p a = true) w -> p c = false ->
    need <= length w <= fuel ->
    k (MState (rev w ++ bef) (c :: rest) cs) = Some x ->
    rep (m (Cls p)) true need fuel (MState bef (w ++ c :: rest) cs) k = Some x.
Proof.
  induction w as [|a w IH]; intros need fuel bef c rest cs Hw Hc Hn Hk.
  - simpl in Hn. assert (need = 0) by lia. subst need.
    destruct fuel; simpl; [assumption|]. now rewrite Hc.
  - inversion Hw as [|? ? Ha Hw']; subst.
    destruct fuel as [|fuel]; [simpl in Hn; lia|].
    assert (E : forall n, n <= length w ->
              rep (m (Cls p)) true n fuel (advance a (w ++ c :: rest)
                    (MState bef ((a :: w) ++ c :: rest) cs)) k = Some x).
    { intros n Hn'. unfold advance. cbn [before caps]. apply IH; auto.
      - simpl in Hn. lia.
      - cbn [rev] in Hk. now rewrite <- app_assoc in Hk. }
    destruct need as [|need]; cbn [rep m after app]; rewrite Ha.
    + rewrite E by lia. reflexivity.
    + apply E. simpl in Hn. lia.
Qed.

Lemma search_from_some (r : regex) :
  forall aft bef st,
    search_from r bef aft = Some st ->
    exists bef' aft',
      rev bef' ++ aft' = rev bef ++ aft
      /\ match_here r (MState bef' aft' []) = Some st.
Proof.
  induction aft as [|c rest IH]; intros bef st H; simpl in H.
  - destruct (match_here r _) eqn:E; [|discriminate].
    inversion H; subst. eauto.
  - destruct (match_here r _) eqn:E.
    + inversion H; subst. eauto.
    + apply IH in H as (bef' & aft' & Hs & H). exists bef', aft'.
      split; auto. rewrite Hs. simpl. now rewrite <- app_assoc.
Qed.

Lemma finditer_from_some (r : regex) :
  forall aft skip bef st,
    In st (finditer_from r skip bef aft) ->
    exists bef' aft',
      rev bef' ++ aft' = rev bef ++ aft
      /\ match_here r (MState bef' aft' []) = Some st.
Proof.
  assert (Hcons : forall (c : ascii) bef rest, rev (c :: bef) ++ rest = rev bef ++ c :: rest).
  { intros. simpl. now rewrite <- app_assoc. }
  induction aft as [|c rest IH]; intros skip bef st H; simpl in H.
  - destruct skip; [|contradiction].
    destruct (match_here r _) eqn:E; [|contradiction].
    destruct H as [->|[]]. eauto.
  - destruct skip as [|k].
    + destruct (match_here r _) eqn:E.
      * destruct H as [->|H]; [eauto|].
        apply IH in H as (bef' & aft' & Hs & H). rewrite Hcons in Hs. eauto.
      * apply IH in H as (bef' & aft' & Hs & H). rewrite Hcons in Hs. eauto.
    + apply IH in H as (bef' & aft' & Hs & H). rewrite Hcons in Hs. eauto.
Qed.

(** A match of [ident] has read a white-space character of the subject. *)
Lemma ident_reads_space bef aft st :
  match_here ident (MState bef aft []) = Some st ->
  exists c, In c aft /\ Py.isspace c = true.
Proof.
  unfold match_here. intros H. apply m_sound in H as (st' & H & _).
  unfold ident, chr, space, upto in H. cbn [Run] in H.
  destruct H as (st1 & H1 & st2 & (st3 & H3 & ->) & H2).
  apply Run_Cls in H1 as (a & M1 & _).
  apply (Run_moved (Rep (Cls ident_char) 1 (Some 32) true))
    in H3 as (w3 & d3 & M3 & _).
  apply Run_Cls in H2 as (c & M2 & Hc).
  exists c. split; auto.
  destruct M1 as (_ & A1 & _), M3 as (_ & A3 & _), M2 as (_ & A2 & _).
  cbn [after close_group] in *. rewrite A1, A3, A2.
  simpl. right. apply in_or_app. right. simpl. auto.
Qed.

(** A match of [key_vals] has read an equals sign of the subject. *)
Lemma key_vals_reads_equals bef aft st :
  match_here key_vals (MState bef aft []) = Some st -> In "="%char aft.
Proof.
  unfold match_here. intros H. apply m_sound in H as (st' & H & _).
  unfold key_vals, chr in H. cbn [Run] in H.
  destruct H as (st1 & (st2 & H2 & ->) & st3 & H3 & _).
  apply (Run_moved (Rep (Cls is_word) 1 None true))
    in H2 as (w2 & d2 & M2 & _).
  apply Run_Cls in H3 as (c & M3 & Hc). apply Ascii.eqb_eq in Hc. subst c.
  destruct M2 as (_ & A2 & _), M3 as (_ & A3 & _).
  cbn [after close_group] in *. rewrite A2, A3.
  apply in_or_app. right. simpl. auto.
Qed.

Lemma extract_ident_run (run rest : string) :
  s2l run <> [] -> length (s2l run) <= 32 ->
  Forall (fun c => ident_char c = true) (s2l run) ->
  _extract_ident ("[" ++ run ++ " " ++ rest) = Some run.
Proof.
  intros Hne Hlen Hrun. unfold _extract_ident, re_search.
  simpl s2l. rewrite s2l_app. simpl s2l.
  assert (E : match_here ident (MState [] ("["%char :: s2l run ++ " "%char :: s2l rest) [])
              = Some (MState (" "%char :: rev (s2l run) ++ ["["%char]) (s2l rest)
                             [("ident", s2l run)])).
  { unfold match_here, ident, upto. cbn [m before after caps chr].
    rewrite Ascii.eqb_refl. unfold advance, rep_fuel. cbn [before after caps].
    apply greedy_run; auto.
    - assert (length (s2l run) <> 0)
        by (destruct (s2l run); cbn [length]; congruence).
      lia.
    - unfold close_group, consumed. cbn [before after caps].
      replace (length (rev (s2l run) ++ ["["%char]) - length ["["%char])
        with (length (rev (s2l run)) + 0)
        by (rewrite length_app; cbn [length]; lia).
      rewrite firstn_app_2. cbn [firstn]. rewrite app_nil_r, rev_involutive.
      unfold space. cbn [m after]. reflexivity. }
  destruct (s2l run ++ " "%char :: s2l rest) eqn:E'; cbn [search_from];
    rewrite E; unfold group; cbn [caps find fst]; rewrite String.eqb_refl;
    cbn [snd]; now rewrite string_of_list_ascii_of_string.
Qed.

Lemma extract_ident_no_space (entry : string) :
  (forall c, In c (s2l entry) -> Py.isspace c = false) ->
  _extract_ident entry = None.
Proof.
  intros H. unfold _extract_ident, re_search.
  destruct (search_from ident [] (s2l entry)) as [st|] eqn:E; [|reflexivity].
  exfalso. apply search_from_some in E as (bef & aft & Hs & E).
  apply ident_reads_space in E as (c & Hin & Hc).
  rewrite (H c) in Hc; [discriminate|].
  simpl in Hs. rewrite <- Hs. apply in_or_app. auto.
Qed.

Lemma extract_kv_no_equals (entry : string) :
  ~ In "="%char (s2l entry) -> _extract_kv entry = [].
Proof.
  intros H. unfold _extract_kv, finditer.
  destruct (finditer_from key_vals 0 [] (s2l entry)) as [|st l] eqn:E;
    [reflexivity|].
  exfalso. apply H.
  destruct (finditer_from_some key_vals (s2l entry) 0 [] st) as (bef & aft & Hs & Hm).
  { rewrite E. simpl. auto. }
  apply key_vals_reads_equals in Hm. simpl in Hs. rewrite <- Hs.
  apply in_or_app. auto.
Qed.

End Idents.

(** C6, as the code has it.  The identity is the leading run of 1 to 32
    characters (no bracket, equals sign, double quote or space) directly
    after the opening bracket when a space follows the run; an entry with
    no white space at all has identity null; an entry with no key/value
    pair has an empty parameters mapping, and an entry with no equals sign
    has no key/value pair. *)
Theorem struct_of_identity_and_parameters :
  (forall run rest : string,
      s2l run <> [] -> length (s2l run) <= 32 ->
      Forall (fun c => ident_char c = true) (s2l run) ->
      identity (struct_of ("[" ++ run ++ " " ++ rest)) = Some run)
  /\ (forall entry : string,
         (forall c, In c (s2l entry) -> Py.isspace c = false) ->
         identity (struct_of entry) = None)
  /\ (forall entry : string,
         _extract_kv entry = [] -> parameters (struct_of entry) = [])
  /\ (forall entry : string,
         ~ In "="%char (s2l entry) -> _extract_kv entry = []).
Proof.
  split; [|split; [|split]].
  - intros run rest H1 H2 H3. unfold struct_of. cbn [identity].
    now apply Idents.extract_ident_run.
  - intros entry H. unfold struct_of. cbn [identity].
    now apply Idents.extract_ident_no_space.
  - intros entry H. unfold struct_of. cbn [parameters].
    now rewrite H.
  - exact Idents.extract_kv_no_equals.
Qed.

Lemma struct_of_identity_and_parameters_witness :
  identity (struct_of "[exampleSDID@32473 iut=3]") = Some "exampleSDID@32473"
  /\ identity (struct_of "[abc]") = None
  /\ parameters (struct_of "[abc]") = []
  /\ _extract_kv "[abc]" = [].
Proof.
  destruct struct_of_identity_and_parameters as (Ha & Hb & Hc & Hd).
  split; [|split; [|split]].
  - apply (Ha "exampleSDID@32473" "iut=3]").
    + discriminate.
    + vm_compute. lia.
    + vm_compute. repeat constructor.
  - apply Hb. intros c H.
    assert (F : forallb (fun c => negb (Py.isspace c)) (s2l "[abc]") = true)
      by reflexivity.
    rewrite forallb_forall in F. apply negb_true_iff, F, H.
  - apply Hc. reflexivity.
  - apply Hd. cbn [s2l]. intros H.
    repeat (destruct H as [H|H]; [discriminate|]). contradiction.
Defined.

(** C6 as stated fails: the entry [[abc]] has a leading run but, with no
    white space after it, its identity is null; and the identity of
    [[a=[b c]] is found at its second bracket. *)
Lemma extract_ident_differs_from_leading_run :
  (_extract_ident "[abc]" = None
   /\ leading_ident "[abc]" = Some "abc"
   /\ identity (struct_of "[abc]") <> leading_ident "[abc]")
  /\ (_extract_structs "[a=[b c]" = ["[a=[b c]"]
      /\ _extract_ident "[a=[b c]" = Some "b"
      /\ leading_ident "[a=[b c]" = Some "a").
Proof. vm_compute. repeat split. discriminate. Qed.

(** ** Dictionaries and [strip] *)

Module DictFacts.

Lemma keys_set {V : Type} (k : string) (v : V) (d : Dict.t V) :
  Dict.keys (Dict.set k v d) = add_key k (Dict.keys d).
Proof.
  unfold add_key. induction d as [|[k' v'] d IH]; simpl; [reflexivity|].
  destruct (String.eqb k' k) eqn:E; simpl; [reflexivity|].
  rewrite IH. unfold Dict.keys.
  destruct (existsb _ (map fst d)); reflexivity.
Qed.

Lemma get_some_add_key {V : Type} (k : string) (d : Dict.t V) (v : V) :
  Dict.get k d = Some v -> add_key k (Dict.keys d) = Dict.keys d.
Proof.
  unfold add_key. intros H.
  replace (existsb (fun k' => String.eqb k' k) (Dict.keys d)) with true;
    [reflexivity|].
  symmetry. induction d as [|[k' v'] d IH]; simpl in *; [discriminate|].
  destruct (String.eqb k' k); simpl; auto.
Qed.

Lemma get_not_key {V : Type} (k : string) (d : Dict.t V) :
  ~ In k (Dict.keys d) -> Dict.get k d = None.
Proof.
  induction d as [|[k' v'] d IH]; simpl; intros H; [reflexivity|].
  destruct (String.eqb k' k) eqn:E.
  - apply String.eqb_eq in E. tauto.
  - apply IH. tauto.
Qed.

Lemma mmap_inr {A B : Type} (f : A -> res B) (l : list A) (l' : list B) :
  mmap f l = inr l' -> Forall2 (fun a b => f a = inr b) l l'.
Proof.
  revert l'. induction l as [|a l IH]; intros l' H; simpl in H.
  - inversion H. constructor.
  - unfold bind, ret in H. destruct (f a) eqn:Ea; [discriminate|].
    destruct (mmap f l) eqn:El; [discriminate|].
    inversion H; subst. constructor; auto.
Qed.

Lemma mmap_keys {V W : Type} (f : string * V -> res (string * W))
      (d : Dict.t V) (d' : Dict.t W) :
  (forall kv kv', f kv = inr kv' -> fst kv' = fst kv) ->
  mmap f d = inr d' -> Dict.keys d' = Dict.keys d.
Proof.
  intros Hf H. apply mmap_inr in H.
  induction H as [|kv kv' d d' Hkv _ IH]; simpl; [reflexivity|].
  f_equal; auto.
Qed.

End DictFacts.

Module StripFacts.
Import Py.

Lemma lstrip_l_app (a b : list ascii) :
  lstrip_l (a ++ b)
  = match lstrip_l a with [] => lstrip_l b | x => x ++ b end.
Proof.
  induction a as [|c a IH]; simpl; [reflexivity|].
  destruct (isspace c); [exact IH|reflexivity].
Qed.

Lemma lstrip_l_idem (l : list ascii) : lstrip_l (lstrip_l l) = lstrip_l l.
Proof.
  induction l as [|c l IH]; simpl; [reflexivity|].
  destruct (isspace c) eqn:E; [exact IH|]. simpl. now rewrite E.
Qed.

Lemma rstrip_l_cons (c : ascii) (t : list ascii) :
  rstrip_l (c :: t)
  = match rstrip_l t with
    | [] => if isspace c then [] else [c]
    | _ => c :: rstrip_l t
    end.
Proof.
  unfold rstrip_l. simpl rev. rewrite lstrip_l_app.
  destruct (lstrip_l (rev t)) as [|x l] eqn:E.
  - simpl. destruct (isspace c); reflexivity.
  - rewrite rev_app_distr. simpl.
    destruct (rev l ++ [x]) eqn:E'; [|reflexivity].
    destruct (rev l); discriminate.
Qed.

Lemma lstrip_rstrip_comm (l : list ascii) :
  lstrip_l (rstrip_l l) = rstrip_l (lstrip_l l).
Proof.
  induction l as [|c t IH]; [reflexivity|].
  rewrite rstrip_l_cons. cbn [lstrip_l].
  destruct (rstrip_l t) as [|x r] eqn:E.
  - destruct (isspace c) eqn:Ec.
    + rewrite <- IH. reflexivity.
    + rewrite rstrip_l_cons, E, Ec. simpl. now rewrite Ec.
  - cbn [lstrip_l]. destruct (isspace c) eqn:Ec.
    + rewrite <- IH. reflexivity.
    + rewrite rstrip_l_cons, E. reflexivity.
Qed.

Lemma rstrip_l_idem (l : list ascii) : rstrip_l (rstrip_l l) = rstrip_l l.
Proof.
  unfold rstrip_l. now rewrite rev_involutive, lstrip_l_idem.
Qed.

Lemma strip_l_rstrip_l (l : list ascii) : strip_l (rstrip_l l) = strip_l l.
Proof.
  unfold strip_l. now rewrite lstrip_rstrip_comm, rstrip_l_idem.
Qed.

(** [line.rstrip().strip()] is [line.strip()]. *)
Lemma strip_rstrip (s : string) : strip (rstrip s) = strip s.
Proof.
  unfold strip, rstrip.
  now rewrite list_ascii_of_string_of_list_ascii, strip_l_rstrip_l.
Qed.

Lemma rstrip_empty (s : string) : rstrip s = "" -> strip s = "".
Proof. intros H. rewrite <- strip_rstrip, H. reflexivity. Qed.

Lemma lstrip_l_nil (l : list ascii) :
  lstrip_l l = [] -> Forall (fun c => isspace c = true) l.
Proof.
  induction l as [|c l IH]; simpl; intros H; [constructor|].
  destruct (isspace c) eqn:E; [|discriminate]. constructor; auto.
Qed.

(** A text whose first character is not white space keeps it. *)
Lemma strip_nonempty (c : ascii) (s : string) :
  isspace c = false -> strip (String c s) <> "".
Proof.
  intros Hc H. unfold strip, strip_l in H. simpl s2l in H.
  cbn [lstrip_l] in H. rewrite Hc in H.
  assert (E : rstrip_l (c :: s2l s) = []).
  { apply l2s_inj. exact H. }
  unfold rstrip_l in E.
  assert (E' : lstrip_l (rev (c :: s2l s)) = []).
  { destruct (lstrip_l (rev (c :: s2l s))); [reflexivity|].
    simpl in E. destruct (rev l); discriminate. }
  apply lstrip_l_nil in E'. rewrite Forall_forall in E'.
  rewrite (E' c) in Hc; [discriminate|].
  apply in_rev. rewrite rev_involutive. simpl. auto.
Qed.

End StripFacts.

(** ** The tokenizer *)

Module Tokens.
Import Runs ReFacts TokenParts.

Lemma syslog_parts :
  exists prio vers : regex,
    syslog
    = (opt prio >> opt vers >> star space >>
       Group "timestamp"
         (chr "-" <|>
          (Group "fullyear" (oneof "12" >> times 3 digit) >> date_time_tail)) >>
       fields)%re.
Proof. do 2 eexists. reflexivity. Qed.

Lemma find_skip {A : Type} (f : A -> bool) (d l : list A) :
  Forall (fun p => f p = false) d -> find f (d ++ l) = find f l.
Proof.
  induction 1 as [|p d Hp _ IH]; simpl; [reflexivity|]. now rewrite Hp.
Qed.

Lemma moved_close name st0 st1 w d :
  moved st0 st1 w d ->
  moved st0 (close_group name st0 st1) w ((name, consumed st0 st1) :: d).
Proof.
  unfold moved, close_group. cbn [before after caps].
  intros (B & A & C). rewrite C. auto.
Qed.

(** The timestamp of a matched line is the placeholder, read as null, or a
    text that starts with the digit 1 or 2. *)
Lemma syslog_timestamp (line : string) (st : mstate) :
  re_match syslog line = Some st ->
  syslog_dict st "timestamp" = None
  \/ exists c s,
      syslog_dict st "timestamp" = Some (String c s) /\ Py.isspace c = false.
Proof.
  unfold re_match, match_here. intros H.
  apply m_sound in H as (st' & H & E). inversion E; subst st'; clear E.
  destruct syslog_parts as (prio & vers & E). rewrite E in H. clear E.
  cbn [Run] in H.
  destruct H as (st1 & _ & st2 & _ & st3 & _ & st4 & (st5 & Hts & ->) & Hf).
  apply Run_moved in Hf as (wf & df & (_ & _ & C) & Ff).
  assert (G : group st "timestamp" = Some (l2s (consumed st3 st5))).
  { unfold group. rewrite C. cbn [close_group caps]. rewrite find_skip.
    - cbn [find fst]. rewrite String.eqb_refl. reflexivity.
    - eapply Forall_impl; [|exact Ff]. intros [n t] Hin. cbn [fst] in *.
      vm_compute in Hin.
      repeat (destruct Hin as [<-|Hin]; [reflexivity|]). contradiction. }
  unfold syslog_dict. rewrite G. clear G C Ff.
  destruct Hts as [Hd|(stA & (stB & (stC & Hy & Hyy) & ->) & Ht)].
  - left. apply Run_Cls in Hd as (c & M & Ec). apply Ascii.eqb_eq in Ec. subst c.
    apply moved_consumed in M. rewrite M. reflexivity.
  - right. apply Run_Cls in Hy as (c & My & Ec).
    apply Run_moved in Hyy as (w1 & d1 & M1 & _).
    apply Run_moved in Ht as (w2 & d2 & M2 & _).
    pose proof (moved_trans _ _ _ _ _ _ _
                  (moved_close "fullyear" _ _ _ _
                     (moved_trans _ _ _ _ _ _ _ My M1)) M2) as M.
    apply moved_consumed in M. rewrite M. cbn [app string_of_list_ascii].
    assert (Hc : c = "1"%char \/ c = "2"%char).
    { unfold mem in Ec. cbn [s2l existsb] in Ec.
      apply orb_true_iff in Ec as [Ec|Ec]; [left|right].
      - now apply Ascii.eqb_eq.
      - apply orb_true_iff in Ec as [Ec|Ec]; [|discriminate].
        now apply Ascii.eqb_eq. }
    exists c, (l2s (w1 ++ w2)).
    destruct Hc as [-> | ->]; split; reflexivity.
Qed.

(** The structured data of a matched line is the placeholder, read as
    null, or blocks: a text from an opening bracket to a closing bracket
    that no backslash precedes. *)
Lemma syslog_structureddata (line : string) (st : mstate) :
  re_match syslog line = Some st ->
  syslog_dict st "structureddata" = None
  \/ exists (body : string) (c : ascii),
      syslog_dict st "structureddata"
      = Some ("[" ++ body ++ String c "]")%string
      /\ c <> "\"%char.
Proof.
  unfold re_match, match_here. intros H.
  apply m_sound in H as (st' & H & E). inversion E; subst st'; clear E.
  destruct syslog_parts as (prio & vers & E). rewrite E in H. clear E.
  cbn [Run] in H.
  destruct H as (st1 & _ & st2 & _ & st3 & _ & st4 & _ & Hf).
  unfold fields in Hf. cbn [Run] in Hf.
  destruct Hf as (s1 & _ & s2 & _ & s3 & _ & s4 & _ & s5 & _ & s6 & _
                  & s7 & _ & s8 & _ & s9 & _ & Hd).
  unfold data_and_msg in Hd. cbn [Run] in Hd.
  destruct Hd as (s10 & (s9' & Hsd & ->) & Hm).
  apply Run_moved in Hm as (wm & dm & (_ & _ & C) & Fm).
  assert (G : group st "structureddata" = Some (l2s (consumed s9 s9'))).
  { unfold group. rewrite C. cbn [close_group caps]. rewrite find_skip.
    - cbn [find fst]. rewrite String.eqb_refl. reflexivity.
    - eapply Forall_impl; [|exact Fm]. intros [n t] Hin. cbn [fst] in *.
      vm_compute in Hin.
      repeat (destruct Hin as [<-|Hin]; [reflexivity|]). contradiction. }
  unfold syslog_dict. rewrite G. clear G C Fm.
  destruct Hsd as [Hd|Hb].
  - left. apply Run_Cls in Hd as (c & M & Ec). apply Ascii.eqb_eq in Ec. subst c.
    apply moved_consumed in M. rewrite M. reflexivity.
  - right. apply (Run_Rep block 1 None true) in Hb as (n & Hn & Hb).
    destruct n as [|n]; [lia|].
    apply Structs.blocks_text in Hb as (w & c & M & Hc).
    apply moved_consumed in M. rewrite M.
    exists (l2s w), c. split; [|assumption].
    change (l2s ("["%char :: w ++ [c; "]"%char]))
      with (String "[" (l2s (w ++ [c; "]"%char]))).
    rewrite l2s_app. reflexivity.
Qed.

End Tokens.

(** C5. However the structured-data text reads, no entry of the split ends
    at an escaped closing bracket: the last character before the closing
    bracket of an entry is not a backslash.  A block whose closing brackets
    inside the body are all escaped is not cut at any of them: it is one
    entry.  And the structured-data field the tokenizer hands to the split
    does not end at an escaped closing bracket either. *)
Theorem extract_structs_escaped_bracket :
  (forall structs_string entry : string,
      In entry (_extract_structs structs_string) ->
      exists (body : string) (c : ascii),
        entry = ("[" ++ body ++ String c "]")%string
        /\ c <> "\"%char
        /\ Forall (fun c => not_newline c = true) (s2l body ++ [c]))
  /\ (forall body : string,
         block_body body = true ->
         _extract_structs ("[" ++ body ++ "]")
         = [("[" ++ body ++ "]")%string])
  /\ (forall (line : string) (st : mstate),
         re_match syslog line = Some st ->
         syslog_dict st "structureddata" = None
         \/ exists (body : string) (c : ascii),
             syslog_dict st "structureddata"
             = Some ("[" ++ body ++ String c "]")%string
             /\ c <> "\"%char).
Proof.
  split; [|split].
  - exact extract_structs_entry_shape.
  - exact extract_structs_whole_block.
  - exact Tokens.syslog_structureddata.
Qed.

Lemma extract_structs_escaped_bracket_witness :
  (exists (body : string) (c : ascii),
      "[a b=x\]y]" = ("[" ++ body ++ String c "]")%string
      /\ c <> "\"%char
      /\ Forall (fun c => not_newline c = true) (s2l body ++ [c]))
  /\ _extract_structs ("[" ++ "a b=x\]y" ++ "]")
     = [("[" ++ "a b=x\]y" ++ "]")%string]
  /\ (syslog_dict scenario_sd_match "structureddata" = None
      \/ exists (body : string) (c : ascii),
          syslog_dict scenario_sd_match "structureddata"
          = Some ("[" ++ body ++ String c "]")%string
          /\ c <> "\"%char).
Proof.
  destruct extract_structs_escaped_bracket as (Ha & Hb & Hc).
  split; [|split].
  - apply (Ha "[a b=x\]y][c d=e]"). vm_compute. left. reflexivity.
  - apply (Hb "a b=x\]y"). vm_compute. reflexivity.
  - apply (Hc scenario_sd). vm_compute. reflexivity.
Defined.

(** ** The normalizer and the stream driver *)

Section ParserFacts.
Variable compatibility : string -> list string -> bool -> list warning.
Variable timestamp : string -> list Z -> res timestamp_obj.
Variable convert_to_int : value -> res (option Z).

#[local] Abbreviation process := (_process timestamp convert_to_int).
#[local] Abbreviation line_of := (parse_line timestamp convert_to_int).
#[local] Abbreviation lines_of := (parse_lines timestamp convert_to_int).
#[local] Abbreviation parser := (parse compatibility timestamp convert_to_int).

Lemma strip_entry_fst kv kv' : strip_entry kv = inr kv' -> fst kv' = fst kv.
Proof.
  unfold strip_entry, bind, ret. destruct (strip_value (snd kv)); [discriminate|].
  intros H. inversion H. reflexivity.
Qed.

Lemma mmap_strip_get (k : string) (d d1 : record) :
  mmap strip_entry d = inr d1 ->
  match Dict.get k d with
  | Some v => exists v1, strip_value v = inr v1 /\ Dict.get k d1 = Some v1
  | None => Dict.get k d1 = None
  end.
Proof.
  intros H. apply DictFacts.mmap_inr in H.
  induction H as [|[k0 v0] [k1 v1] d d1 Hkv _ IH]; [reflexivity|].
  unfold strip_entry, bind, ret in Hkv. cbn [fst snd] in Hkv.
  destruct (strip_value v0) as [|v0'] eqn:E; [discriminate|].
  inversion Hkv; subst. cbn [Dict.get].
  destruct (String.eqb k1 k); [eauto|exact IH].
Qed.

Lemma present_get (k : string) (d : record) (s : string) :
  present k d = Some s -> Dict.get k d = Some (VStr s).
Proof.
  unfold present. destruct (Dict.get k d) as [[|s'|z|l]|]; try discriminate.
  destruct (truthy (VStr s')); [|discriminate]. intros H. now inversion H.
Qed.

Lemma keys_set_present (k : string) (d : record) (s : string) (v : value) :
  present k d = Some s -> Dict.keys (Dict.set k v d) = Dict.keys d.
Proof.
  intros H. rewrite DictFacts.keys_set.
  eapply DictFacts.get_some_add_key, present_get, H.
Qed.

(** The keys of a processed record: those it had, and the two epoch keys
    when its stripped timestamp is present and true. *)
Lemma process_keys (d r : record) :
  process d = inr r ->
  exists d1,
    mmap strip_entry d = inr d1
    /\ Dict.keys r
       = match present "timestamp" d1 with
         | Some _ => add_key "timestamp_epoch_utc"
                       (add_key "timestamp_epoch" (Dict.keys d))
         | None => Dict.keys d
         end.
Proof.
  unfold _process.
  destruct (mmap strip_entry d) as [|d1] eqn:E1; [discriminate|].
  cbn [bind]. intros H. exists d1. split; [reflexivity|].
  rewrite <- (DictFacts.mmap_keys _ _ _ strip_entry_fst E1).
  set (stamped := match present "timestamp" d1 with
                  | Some ts => _
                  | None => _
                  end) in H.
  destruct stamped as [|d2] eqn:E2; [discriminate|]. cbn [bind] in H.
  assert (K2 : Dict.keys d2
               = match present "timestamp" d1 with
                 | Some _ => add_key "timestamp_epoch_utc"
                               (add_key "timestamp_epoch" (Dict.keys d1))
                 | None => Dict.keys d1
                 end).
  { subst stamped. destruct (present "timestamp" d1).
    - unfold bind, ret in E2. revert E2.
      destruct (timestamp s _) as [|dt]; intros E2; [discriminate|].
      inversion E2. now rewrite !DictFacts.keys_set.
    - inversion E2. reflexivity. }
  rewrite <- K2. clear K2 E2 stamped E1.
  set (d3 := match present "message" d2 with
             | Some msg => _
             | None => d2
             end) in H.
  assert (K3 : Dict.keys d3 = Dict.keys d2).
  { subst d3. destruct (present "message" d2) eqn:E; [|reflexivity].
    eapply keys_set_present, E. }
  rewrite <- K3. clearbody d3. clear K3.
  set (d4 := match present "structured_data" d3 with
             | Some sd => _
             | None => d3
             end) in H.
  assert (K4 : Dict.keys d4 = Dict.keys d3).
  { subst d4. destruct (present "structured_data" d3) eqn:E; [|reflexivity].
    eapply keys_set_present, E. }
  rewrite <- K4. clearbody d4. clear K4.
  eapply DictFacts.mmap_keys; [|exact H].
  intros kv kv'. cbv beta. destruct (in_int_list (fst kv)).
  - unfold bind, ret. destruct (convert_to_int (snd kv)); intros E;
      inversion E. reflexivity.
  - unfold ret. intros E. inversion E. reflexivity.
Qed.

Lemma present_other (k k' : string) (v : value) :
  String.eqb k' k = false -> present k [(k', v)] = None.
Proof. intros H. unfold present. cbn [Dict.get]. now rewrite H. Qed.

(** Processing the record of a line that did not match only strips its
    text. *)
Lemma process_unparsable (s : string) :
  s <> "" ->
  process [("unparsable", VStr s)] = inr [("unparsable", VStr (Py.strip s))].
Proof.
  intros Hs. unfold _process, strip_entry. cbn [mmap snd fst].
  unfold strip_value at 1. cbn [truthy].
  apply String.eqb_neq in Hs. rewrite Hs. cbn [negb bind ret].
  rewrite (present_other "timestamp") by reflexivity. cbn [bind ret].
  rewrite (present_other "message") by reflexivity.
  rewrite (present_other "structured_data") by reflexivity.
  cbn [bind ret mmap fst snd].
  change (in_int_list "unparsable") with false. reflexivity.
Qed.

(** The keys of the record of a matched line, raw or processed. *)
Lemma matched_keys (line : string) (st : mstate) (r : record) :
  re_match syslog line = Some st ->
  process (matched_line st) = inr r ->
  Dict.keys r
  = match syslog_dict st "timestamp" with
    | Some _ => parsed_keys ++ epoch_keys
    | None => parsed_keys
    end.
Proof.
  intros Hm Hp. apply process_keys in Hp as (d1 & Hs & ->).
  pose proof (mmap_strip_get "timestamp" _ _ Hs) as Hg.
  change (Dict.get "timestamp" (matched_line st))
    with (Some (of_option (syslog_dict st "timestamp"))) in Hg.
  destruct Hg as (v1 & Hv & Hg).
  destruct (Tokens.syslog_timestamp _ _ Hm) as [E|(c & s & E & Hc)]; rewrite E in *.
  - cbn in Hv. inversion Hv; subst v1.
    unfold present. rewrite Hg. reflexivity.
  - unfold of_option, strip_value in Hv. cbn [truthy String.eqb negb] in Hv.
    inversion Hv; subst v1. unfold present. rewrite Hg. cbn [truthy].
    pose proof (StripFacts.strip_nonempty c s Hc) as Hne.
    apply String.eqb_neq in Hne. rewrite Hne. reflexivity.
Qed.

(** What one line contributes to the stream. *)
Lemma parse_lines_cons raw quiet ign line data :
  lines_of raw quiet ign (line :: data)
  = match snd (line_of raw quiet line) with
    | inr None =>
        emit [] (fst (line_of raw quiet line)) (lines_of raw quiet ign data)
    | inr (Some r) =>
        emit [stream_success r ign] (fst (line_of raw quiet line))
             (lines_of raw quiet ign data)
    | inl e =>
        if ign
        then emit [stream_error e line] (fst (line_of raw quiet line))
                  (lines_of raw quiet ign data)
        else Stream [] (fst (line_of raw quiet line)) (Some e)
    end.
Proof.
  cbn [parse_lines].
  destruct (parse_line timestamp convert_to_int raw quiet line) as [ws [e|[r|]]];
    cbn [fst snd]; try reflexivity.
  unfold raise_or_yield. destruct ign; reflexivity.
Qed.

Lemma line_skipped raw quiet line :
  snd (line_of raw quiet line) = inr None <-> is_blank line = true.
Proof.
  unfold parse_line, is_blank.
  destruct line as [s| | |]; cbn [streaming_line_input_type_check];
    try (split; discriminate).
  unfold ret. destruct (String.eqb (Py.strip s) ""); cbn [snd].
  - split; reflexivity.
  - split; [|discriminate].
    destruct (re_match syslog s); destruct raw; cbn [snd]; unfold bind, ret;
      try discriminate;
      match goal with |- context [_process _ _ ?d] =>
        destruct (_process timestamp convert_to_int d); discriminate end.
Qed.

Lemma yielded_parse data raw quiet ign :
  yielded (parser (Iterable data) raw quiet ign)
  = yielded (lines_of raw quiet ign data).
Proof. reflexivity. Qed.

Lemma raised_parse data raw quiet ign :
  raised (parser (Iterable data) raw quiet ign)
  = raised (lines_of raw quiet ign data).
Proof. reflexivity. Qed.

(** C1, as the code has it.  In tolerant mode the stream never ends with an
    exception, a blank line yields nothing, and the other lines yield one
    output each, in input order: the record under a success envelope, or,
    when the processing of the line raised, a failure envelope with the
    description of the error and the raw line. *)
Theorem tolerant_stream_one_output_per_line :
  forall (raw quiet : bool) (data : list item),
    let s := parse compatibility timestamp convert_to_int
                   (Iterable data) raw quiet true in
    raised s = None
    /\ Forall2
         (fun line o =>
            match snd (parse_line timestamp convert_to_int raw quiet line) with
            | inr (Some r) => o = Success r
            | inr None => False
            | inl e => o = Failure (exn_class e ++ ": " ++ exn_msg e) line
            end)
         (filter (fun line => negb (is_blank line)) data)
         (yielded s).
Proof.
  intros raw quiet data s. subst s.
  rewrite yielded_parse, raised_parse.
  induction data as [|line data [IHr IHy]]; [split; [reflexivity|constructor]|].
  rewrite parse_lines_cons. cbn [filter].
  pose proof (line_skipped raw quiet line) as Hb.
  destruct (snd (line_of raw quiet line)) as [e|[r|]] eqn:E.
  - destruct (is_blank line); [destruct Hb as [_ Hb]; now specialize (Hb eq_refl)|].
    cbn [negb emit yielded raised app]. split; [assumption|].
    constructor; [|assumption]. rewrite E. reflexivity.
  - destruct (is_blank line); [destruct Hb as [_ Hb]; now specialize (Hb eq_refl)|].
    cbn [negb emit yielded raised app]. split; [assumption|].
    constructor; [|assumption]. rewrite E. reflexivity.
  - destruct Hb as [Hb _]. rewrite (Hb eq_refl).
    cbn [negb emit yielded raised app]. split; assumption.
Qed.

(** Which line an output comes from. *)
Lemma yielded_origin raw quiet ign data o :
  In o (yielded (lines_of raw quiet ign data)) ->
  exists line,
    In line data
    /\ ((exists r, snd (line_of raw quiet line) = inr (Some r)
                   /\ o = stream_success r ign)
        \/ (exists e, snd (line_of raw quiet line) = inl e
                      /\ o = stream_error e line)).
Proof.
  induction data as [|line data IH]; [intros []|].
  rewrite parse_lines_cons.
  destruct (snd (line_of raw quiet line)) as [e|[r|]] eqn:E.
  - destruct ign; cbn [emit yielded app]; [|intros []].
    intros [<-|H].
    + exists line. split; [left; reflexivity|]. right. eauto.
    + apply IH in H as (l & Hl & H). exists l. split; [right|]; assumption.
  - cbn [emit yielded app]. intros [<-|H].
    + exists line. split; [left; reflexivity|]. left. eauto.
    + apply IH in H as (l & Hl & H). exists l. split; [right|]; assumption.
  - cbn [emit yielded app]. intros H.
    apply IH in H as (l & Hl & H). exists l. split; [right|]; assumption.
Qed.

(** The record of a line, when there is one: from a match, or the
    [unparsable] one. *)
Lemma line_record raw quiet line r :
  snd (line_of raw quiet line) = inr (Some r) ->
  exists s, line = PyStr s
    /\ match re_match syslog s with
       | Some st => if raw then r = matched_line st
                    else process (matched_line st) = inr r
       | None => if raw then r = [("unparsable", VStr (Py.rstrip s))]
                 else process [("unparsable", VStr (Py.rstrip s))] = inr r
       end
    /\ Py.strip s <> "".
Proof.
  unfold parse_line.
  destruct line as [s| | |]; cbn [streaming_line_input_type_check];
    try discriminate.
  unfold ret. intros H. exists s. split; [reflexivity|].
  destruct (String.eqb (Py.strip s) "") eqn:Eb; [discriminate|].
  apply String.eqb_neq in Eb. split; [|assumption].
  destruct (re_match syslog s); destruct raw; cbn [snd] in H;
    unfold bind, ret in H.
  - now inversion H.
  - destruct (process _); [discriminate|]. now inversion H.
  - now inversion H.
  - destruct (process _); [discriminate|]. now inversion H.
Qed.

(** C4. Whatever the mode, a record of the stream has the parsed fields, all
    nine of them and possibly the two epoch fields, and no [unparsable]
    field, or it has the [unparsable] field alone. *)
Theorem record_parsed_or_unparsable :
  forall (data : list item) (raw quiet ignore_exceptions : bool)
         (o : output) (r : record),
    In o (yielded (parse compatibility timestamp convert_to_int
                         (Iterable data) raw quiet ignore_exceptions)) ->
    o = Bare r \/ o = Success r ->
    Dict.keys r = ["unparsable"]
    \/ ((Dict.keys r = parsed_keys \/ Dict.keys r = parsed_keys ++ epoch_keys)
        /\ ~ In "unparsable" (Dict.keys r)).
Proof.
  intros data raw quiet ign o r Hin Ho.
  rewrite yielded_parse in Hin.
  apply yielded_origin in Hin as (line & _ & [(r' & Hl & ->)|(e & _ & ->)]).
  2:{ destruct Ho as [Ho|Ho]; discriminate. }
  assert (r' = r) as ->.
  { unfold stream_success in Ho. destruct ign, Ho as [Ho|Ho];
      now inversion Ho. }
  clear Ho. apply line_record in Hl as (s & -> & Hr & Hs).
  assert (Hshape : forall ks, ks = parsed_keys \/ ks = parsed_keys ++ epoch_keys ->
            (ks = parsed_keys \/ ks = parsed_keys ++ epoch_keys)
            /\ ~ In "unparsable" ks).
  { intros ks Hks. split; [assumption|].
    destruct Hks as [-> | ->]; intros H;
      repeat (destruct H as [H|H]; [discriminate|]); contradiction. }
  destruct (re_match syslog s) as [st|] eqn:Em; destruct raw.
  - right. apply Hshape. left. subst r. reflexivity.
  - right. apply Hshape. rewrite (matched_keys _ _ _ Em Hr).
    destruct (syslog_dict st "timestamp"); auto.
  - left. subst r. reflexivity.
  - left. rewrite process_unparsable in Hr.
    + inversion Hr. reflexivity.
    + intros E. apply Hs. now apply StripFacts.rstrip_empty.
Qed.

(** C8, as the code has it.  A line that is not blank and does not match
    yields the record with the [unparsable] field alone, set to the line
    with its trailing white space stripped, and in normalized mode its
    leading white space too; one warning is written unless [quiet]; nothing
    is raised. *)
Theorem unparsable_line_record :
  forall (raw quiet : bool) (line : string),
    Py.strip line <> "" ->
    re_match syslog line = None ->
    parse_line timestamp convert_to_int raw quiet (PyStr line)
    = (if quiet then []
       else [[("Unparsable line found: " ++ Py.rstrip line)%string]],
       inr (Some [("unparsable",
                   VStr (if raw then Py.rstrip line else Py.strip line))])).
Proof.
  intros raw quiet line Hb Hm. unfold parse_line.
  cbn [streaming_line_input_type_check]. unfold ret.
  apply String.eqb_neq in Hb. rewrite Hb, Hm. f_equal.
  destruct raw; [reflexivity|].
  rewrite process_unparsable.
  - cbn [bind]. unfold ret. now rewrite StripFacts.strip_rstrip.
  - intros E. apply StripFacts.rstrip_empty in E. apply String.eqb_neq in Hb.
    contradiction.
Qed.

(** C9, as the code has it.  An item of the input that is not text makes
    the type check of the line fail inside the [try]: the parser raises for
    it unless exceptions are ignored, and then it yields a failure envelope
    for the item and goes on with the next one. *)
Theorem non_text_item :
  forall (raw quiet : bool) (line : item) (data : list item),
    is_text line = false ->
    let strict := parse compatibility timestamp convert_to_int
                        (Iterable (line :: data)) raw quiet false in
    let tolerant := parse compatibility timestamp convert_to_int
                          (Iterable (line :: data)) raw quiet true in
    let rest := parse compatibility timestamp convert_to_int
                      (Iterable data) raw quiet true in
    (yielded strict = []
     /\ raised strict
        = Some (Exn "TypeError" "Input line must be a 'str' object."))
    /\ (yielded tolerant
        = Failure "TypeError: Input line must be a 'str' object." line
          :: yielded rest
        /\ raised tolerant = raised rest).
Proof.
  intros raw quiet line data Ht strict tolerant rest.
  subst strict tolerant rest.
  rewrite !yielded_parse, !raised_parse, !parse_lines_cons.
  assert (E : line_of raw quiet line
              = ([], inl (Exn "TypeError" "Input line must be a 'str' object."))).
  { destruct line; try discriminate; reflexivity. }
  rewrite E. cbn [fst snd emit yielded raised app]. repeat split.
Qed.

(** C10. The record of a line that matched has the nine parsed keys; in
    normalized mode it has each of the two epoch keys exactly when the
    timestamp of the match, after the placeholder is read as null, is not
    null. *)
Theorem matched_line_keys :
  forall (raw quiet : bool) (line : string) (st : mstate)
         (ws : list warning) (r : record),
    re_match syslog line = Some st ->
    parse_line timestamp convert_to_int raw quiet (PyStr line)
    = (ws, inr (Some r)) ->
    (forall k, In k parsed_keys -> In k (Dict.keys r))
    /\ (raw = false ->
        forall k, In k epoch_keys ->
                  (In k (Dict.keys r) <-> syslog_dict st "timestamp" <> None)).
Proof.
  intros raw quiet line st ws r Hm Hl.
  assert (Hl' : snd (line_of raw quiet (PyStr line)) = inr (Some r)).
  { now rewrite Hl. }
  apply line_record in Hl' as (s & Es & Hr & _). inversion Es; subst s.
  rewrite Hm in Hr. destruct raw.
  - subst r. split; [auto|discriminate].
  - rewrite (matched_keys _ _ _ Hm Hr).
    destruct (syslog_dict st "timestamp") as [ts|].
    + split.
      * intros k Hk. apply in_or_app. auto.
      * intros _ k Hk. split; [discriminate|].
        intros _. apply in_or_app. auto.
    + split; [auto|]. intros _ k Hk. split; [|congruence].
      intros H. exfalso.
      destruct Hk as [<-|[<-|[]]];
        repeat (destruct H as [H|H]; [discriminate|]); contradiction.
Qed.

End ParserFacts.

(** ** Scenarios *)

Lemma scenario_a_with (timestamp : string -> list Z -> res timestamp_obj)
      (n u : option Z) (quiet ignore_exceptions : bool) :
  timestamp "2003-08-24T05:14:15.000003Z" [1300; 1310]%Z
  = inr (Timestamp n u) ->
  yielded (parse_lines timestamp Utils.convert_to_int false quiet
                       ignore_exceptions [PyStr scenario_a])
  = [stream_success (scenario_a_record n u) ignore_exceptions].
Proof.
  intros H. unfold parse_lines, parse_line, _process, strip_entry.
  cbn [streaming_line_input_type_check]. unfold ret at 1.
  compute_closed (String.eqb (Py.strip scenario_a) "").
  replace (re_match syslog scenario_a) with (Some scenario_a_match)
    by (vm_compute; reflexivity).
  compute_closed (matched_line scenario_a_match).
  cbn [mmap fst snd].
  repeat match goal with
         | |- context [strip_value ?v] => compute_closed (strip_value v)
         end.
  cbn [bind ret].
  match goal with
  | |- context [present "timestamp" ?d] =>
      compute_closed (present "timestamp" d)
  end.
  rewrite H. cbn [bind ret naive utc].
  destruct ignore_exceptions; vm_compute; reflexivity.
Qed.

Lemma scenario_a_timestamp (local_offset : Z -> Z) :
  Utils.timestamp local_offset "2003-08-24T05:14:15.000003Z" [1300; 1310]%Z
  = inr (Timestamp (Some (1061702055 - local_offset 1061702055)%Z)
                   (Some 1061702055%Z)).
Proof.
  unfold Utils.timestamp.
  replace (Utils.read_rfc "2003-08-24T05:14:15.000003Z")
    with (Some (1061702055%Z, true)) by (vm_compute; reflexivity).
  reflexivity.
Qed.

(** C2, as the code has it.  Scenario A yields one record with priority
    165, version 1, both epoch timestamps (the naive one is the UTC one less
    the offset of the local clock), and null for the structured data and
    for the message. *)
Theorem scenario_a_yields_record :
  forall (compatibility : string -> list string -> bool -> list warning)
         (local_offset : Z -> Z) (quiet ignore_exceptions : bool),
    let s := parse compatibility (Utils.timestamp local_offset)
                   Utils.convert_to_int
                   (Iterable [PyStr scenario_a]) false quiet ignore_exceptions in
    yielded s
    = [stream_success
         (scenario_a_record (Some (1061702055 - local_offset 1061702055)%Z)
                            (Some 1061702055%Z))
         ignore_exceptions]
    /\ raised s = None.
Proof.
  intros compatibility local_offset quiet ign s. subst s.
  rewrite yielded_parse, raised_parse. split.
  - apply scenario_a_with, scenario_a_timestamp.
  - unfold parse_lines, parse_line.
    cbn [streaming_line_input_type_check].
    replace (String.eqb (Py.strip scenario_a) "") with false
      by (vm_compute; reflexivity).
    replace (re_match syslog scenario_a) with (Some scenario_a_match)
      by (vm_compute; reflexivity).
    cbn [ret]. destruct (_process _ _ _); reflexivity.
Qed.

(** C2 as stated fails: the structured data of scenario A is null, not the
    empty sequence. *)
Lemma scenario_a_structured_data_is_null :
  ~ (exists r,
        yielded (parse_utc (Iterable [PyStr scenario_a]) false false false)
        = [Bare r]
        /\ Dict.get "structured_data" r = Some (VList [])).
Proof.
  intros (r & Hy & Hs). vm_compute in Hy. inversion Hy; subst r.
  vm_compute in Hs. discriminate.
Qed.

Lemma priority_table : forallb priority_check (seq 0 192) = true.
Proof. vm_compute. reflexivity. Qed.

(** In front of the line of scenario A: every priority from 0 to 191 is
    reported, except from 100 to 109, where the line does not match. *)
Lemma priority_table_row (n : nat) :
  n <= 191 ->
  match re_match syslog (with_priority n) with
  | Some st =>
      Dict.get "priority" (matched_line st) = Some (VStr (decimal n))
      /\ ~ (100 <= n <= 109)
  | None => 100 <= n <= 109
  end.
Proof.
  intros Hn.
  pose proof priority_table as H. rewrite forallb_forall in H.
  specialize (H n). rewrite in_seq in H. specialize (H ltac:(lia)).
  unfold priority_check in H.
  destruct (re_match syslog (with_priority n)) as [st|].
  - destruct (Dict.get "priority" (matched_line st)) as [[|p|z|l]|];
      try discriminate.
    apply andb_true_iff in H as (Hp & Hr).
    apply String.eqb_eq in Hp. subst p. split; [reflexivity|].
    apply negb_true_iff, andb_false_iff in Hr as [E|E];
      apply Nat.leb_gt in E; lia.
  - apply andb_true_iff in H as (H1 & H2). apply Nat.leb_le in H1, H2. lia.
Qed.

Lemma syslog_prio : syslog = (opt TokenParts.prio >> TokenParts.after_prio)%re.
Proof. reflexivity. Qed.

(** On a priority from 0 to 191, 100 to 109 apart, the optional priority
    group hands the position after the closing bracket to what follows. *)
Lemma prio_step (n : nat) (rest : list ascii) (K : cont) :
  n <= 191 -> ~ (100 <= n <= 109) ->
  m (opt TokenParts.prio) (MState [] (bracketed n ++ rest) []) K
  = match K (after_priority n rest) with
    | Some x => Some x
    | None => K (MState [] (bracketed n ++ rest) [])
    end.
Proof.
  intros H1 H2.
  assert (E : In n (seq 0 100 ++ seq 110 82)).
  { apply in_or_app. rewrite !in_seq. lia. }
  cbn [seq app In] in E.
  repeat (destruct E as [<-|E];
          [vm_compute;
           match goal with
           | |- context [match K ?s with _ => _ end] => destruct (K s)
           end; reflexivity|]).
  contradiction.
Qed.

Lemma slice_bracketed (n : nat) :
  n <= 191 -> Py.slice_1_m1 (l2s (bracketed n)) = decimal n.
Proof.
  intros H.
  assert (T : forallb (fun n => String.eqb (Py.slice_1_m1 (l2s (bracketed n)))
                                           (decimal n)) (seq 0 192) = true)
    by (vm_compute; reflexivity).
  rewrite forallb_forall in T. apply String.eqb_eq, T, in_seq. lia.
Qed.

(** When what follows the priority matches the rest of the pattern, the
    line matches and the priority is reported without its brackets. *)
Lemma priority_reported (n : nat) (rest : string) (st : mstate) :
  n <= 191 -> ~ (100 <= n <= 109) ->
  m TokenParts.after_prio (after_priority n (s2l rest)) Some = Some st ->
  re_match syslog ("<" ++ decimal n ++ ">" ++ rest) = Some st
  /\ Dict.get "priority" (matched_line st) = Some (VStr (decimal n)).
Proof.
  intros H1 H2 Hm. split.
  - unfold re_match, match_here, start. cbn [before after].
    replace (s2l ("<" ++ decimal n ++ ">" ++ rest))
      with (bracketed n ++ s2l rest).
    2:{ unfold bracketed. rewrite !s2l_app, <- !app_assoc. reflexivity. }
    rewrite syslog_prio. cbn [m]. fold (m (opt TokenParts.prio)).
    rewrite (prio_step n (s2l rest) _ H1 H2), Hm. reflexivity.
  - apply ReFacts.m_sound in Hm as (st' & Hr & E).
    inversion E; subst st'; clear E.
    apply ReFacts.Run_moved in Hr as (w & d & (_ & _ & C) & F).
    assert (G : group st "priority" = Some (l2s (bracketed n))).
    { unfold group. rewrite C. cbn [after_priority caps].
      rewrite Tokens.find_skip.
      - cbn [find fst]. rewrite String.eqb_refl. reflexivity.
      - eapply Forall_impl; [|exact F]. intros [nm t] Hin. cbn [fst] in *.
        vm_compute in Hin.
        repeat (destruct Hin as [<-|Hin]; [reflexivity|]). contradiction. }
    unfold matched_line. cbn [Dict.get]. rewrite String.eqb_refl.
    unfold syslog_dict. rewrite G.
    replace (String.eqb (l2s (bracketed n)) "-") with false
      by (unfold bracketed; rewrite string_of_list_ascii_of_string; reflexivity).
    replace (String.eqb (l2s (bracketed n)) "") with false
      by (unfold bracketed; rewrite string_of_list_ascii_of_string; reflexivity).
    cbn [of_option]. now rewrite slice_bracketed.
Qed.

(** Whatever follows it, a priority from 100 to 109 keeps the line from
    matching. *)
Lemma priority_100_to_109_no_match (n : nat) (rest : string) :
  100 <= n <= 109 ->
  re_match syslog ("<" ++ decimal n ++ ">" ++ rest) = None.
Proof.
  intros H.
  assert (E : In n (seq 100 10)) by (apply in_seq; lia).
  cbn [seq In] in E.
  repeat (destruct E as [<-|E]; [vm_compute; reflexivity|]).
  contradiction.
Qed.

(** C3 on the code.  For a priority from 0 to 191, 100 to 109 apart, a
    line whose rest matches the rest of the pattern matches, and its
    priority is reported without the brackets.  For a priority from 100 to
    109 the line does not match, whatever follows the priority. *)
Theorem priority_0_to_191 :
  (forall (n : nat) (rest : string) (st : mstate),
      n <= 191 -> ~ (100 <= n <= 109) ->
      m TokenParts.after_prio (after_priority n (s2l rest)) Some = Some st ->
      re_match syslog ("<" ++ decimal n ++ ">" ++ rest) = Some st
      /\ Dict.get "priority" (matched_line st) = Some (VStr (decimal n)))
  /\ (forall (n : nat) (rest : string),
         100 <= n <= 109 ->
         re_match syslog ("<" ++ decimal n ++ ">" ++ rest) = None).
Proof.
  split.
  - exact priority_reported.
  - exact priority_100_to_109_no_match.
Qed.

Lemma priority_0_to_191_witness :
  (re_match syslog
     ("<" ++ decimal 165 ++ ">" ++ "1 2003-08-24T05:14:15.000003Z host01 app - - -")
   = Some scenario_a_match
   /\ Dict.get "priority" (matched_line scenario_a_match)
      = Some (VStr (decimal 165)))
  /\ re_match syslog
       ("<" ++ decimal 100 ++ ">" ++ "1 2003-08-24T05:14:15.000003Z host01 app - - -")
     = None.
Proof.
  destruct priority_0_to_191 as (Ha & Hb). split.
  - apply (Ha 165); [lia|lia|]. vm_compute. reflexivity.
  - apply (Hb 100). lia.
Defined.

(** The line with priority 100 is reported as unparsable. *)
Lemma priority_100_unparsable :
  yielded (parse_utc (Iterable [PyStr (with_priority 100)]) false false false)
  = [Bare [("unparsable",
            VStr "<100>1 2003-08-24T05:14:15.000003Z host01 app - - -")]].
Proof. vm_compute. reflexivity. Qed.

(** C7 on the code.  The three replacements run one after the other over
    the whole text, so that the backslash an escaped backslash stands for
    is read again as the start of an escape: of backslash, backslash,
    bracket only the bracket is left, in a message and in a parameter
    value alike, where one pass over the original text leaves backslash,
    bracket. *)
Theorem fixup_escaped_resolves_twice :
  fixup_escaped "a\\]b" = "a]b"
  /\ resolve_escapes "a\\]b" = "a\]b"
  /\ (exists r,
         yielded (parse_utc (Iterable [PyStr (scenario_a ++ " a\\]b")])
                            false false false) = [Bare r]
         /\ Dict.get "message" r = Some (VStr "a]b"))
  /\ parameters (struct_of ("[id k=" ++ dquote ++ "a\\" ++ dquote ++ "]"))
     = [("k", "a")]
  /\ resolve_escapes "a\\" = "a\".
Proof.
  split; [vm_compute; reflexivity|]. split; [vm_compute; reflexivity|].
  split; [|split; vm_compute; reflexivity].
  eexists. split; vm_compute; reflexivity.
Qed.

(** ** The claims at sample inputs *)

(** C1 as stated fails: a blank line yields nothing, in tolerant mode too. *)
Lemma blank_line_yields_nothing :
  let data := [PyStr scenario_a; PyStr "   "; PyStr "garbage"] in
  length (yielded (parse_utc (Iterable data) false false true))
  <> length data.
Proof. vm_compute. discriminate. Qed.

Lemma record_parsed_or_unparsable_witness :
  Dict.keys (scenario_a_record (Some 1061702055%Z) (Some 1061702055%Z)) = ["unparsable"]
  \/ ((Dict.keys (scenario_a_record (Some 1061702055%Z) (Some 1061702055%Z)) = parsed_keys
       \/ Dict.keys (scenario_a_record (Some 1061702055%Z) (Some 1061702055%Z))
          = parsed_keys ++ epoch_keys)
      /\ ~ In "unparsable" (Dict.keys (scenario_a_record (Some 1061702055%Z) (Some 1061702055%Z)))).
Proof.
  apply (record_parsed_or_unparsable
           Utils.compatibility (Utils.timestamp (fun _ => 0%Z))
           Utils.convert_to_int [PyStr scenario_a] false false false
           (Bare (scenario_a_record (Some 1061702055%Z) (Some 1061702055%Z)))).
  - vm_compute. left. reflexivity.
  - left. reflexivity.
Defined.

Lemma unparsable_line_record_witness :
  parse_line_utc false false (PyStr "garbage line with no structure")
  = ([["Unparsable line found: garbage line with no structure"]],
     inr (Some [("unparsable", VStr "garbage line with no structure")])).
Proof.
  apply (unparsable_line_record (Utils.timestamp (fun _ => 0%Z))
           Utils.convert_to_int false false "garbage line with no structure").
  - vm_compute. discriminate.
  - vm_compute. reflexivity.
Defined.

(** C8 at the failing input: in normalized mode the value is not the
    original line, its leading white space is stripped too. *)
Lemma unparsable_line_loses_leading_space :
  snd (parse_line_utc false false (PyStr "  garbage"))
  = inr (Some [("unparsable", VStr "garbage")])
  /\ snd (parse_line_utc false false (PyStr "  garbage"))
     <> inr (Some [("unparsable",
                    VStr (strip_trailing_newline "  garbage"))]).
Proof. vm_compute. split; [reflexivity|discriminate]. Qed.

(** C8 in raw mode, on the same line with blanks after it: the leading
    white space is kept, so the two modes differ, and the trailing blanks,
    which are no line break, are lost. *)
Lemma unparsable_line_raw_keeps_leading_space :
  snd (parse_line_utc true false (PyStr "  garbage  "))
  = inr (Some [("unparsable", VStr "  garbage")])
  /\ snd (parse_line_utc false false (PyStr "  garbage  "))
     = inr (Some [("unparsable", VStr "garbage")])
  /\ strip_trailing_newline "  garbage  " = "  garbage  ".
Proof. vm_compute. repeat split. Qed.

Lemma non_text_item_witness :
  (yielded (parse_utc (Iterable [PyBytes "abc"; PyStr scenario_a])
                      false false false) = []
   /\ raised (parse_utc (Iterable [PyBytes "abc"; PyStr scenario_a])
                        false false false)
      = Some (Exn "TypeError" "Input line must be a 'str' object."))
  /\ (yielded (parse_utc (Iterable [PyBytes "abc"; PyStr scenario_a])
                         false false true)
      = Failure "TypeError: Input line must be a 'str' object." (PyBytes "abc")
        :: yielded (parse_utc (Iterable [PyStr scenario_a]) false false true)
      /\ raised (parse_utc (Iterable [PyBytes "abc"; PyStr scenario_a])
                           false false true)
         = raised (parse_utc (Iterable [PyStr scenario_a]) false false true)).
Proof.
  apply (non_text_item Utils.compatibility (Utils.timestamp (fun _ => 0%Z))
           Utils.convert_to_int false false (PyBytes "abc") [PyStr scenario_a]).
  reflexivity.
Defined.

(** C9 as stated fails: in tolerant mode nothing is raised for an item that
    is not text. *)
Lemma non_text_item_not_raised_when_tolerant :
  raised (parse_utc (Iterable [PyBytes "abc"]) false false true) = None
  /\ yielded (parse_utc (Iterable [PyBytes "abc"]) false false true)
     = [Failure "TypeError: Input line must be a 'str' object."
                (PyBytes "abc")].
Proof. vm_compute. split; reflexivity. Qed.

Lemma matched_line_keys_witness :
  (forall k, In k parsed_keys ->
             In k (Dict.keys (scenario_a_record (Some 1061702055%Z) (Some 1061702055%Z))))
  /\ (false = false ->
      forall k, In k epoch_keys ->
        (In k (Dict.keys (scenario_a_record (Some 1061702055%Z) (Some 1061702055%Z)))
         <-> syslog_dict scenario_a_match "timestamp" <> None)).
Proof.
  apply (matched_line_keys (Utils.timestamp (fun _ => 0%Z))
           Utils.convert_to_int false false scenario_a scenario_a_match []
           (scenario_a_record (Some 1061702055%Z) (Some 1061702055%Z))).
  - vm_compute. reflexivity.
  - vm_compute. reflexivity.
Defined.

(** Scenario C of the specification. *)
Example scenario_c :
  map struct_of
      (_extract_structs
         ("[exampleSDID@32473 iut=" ++ dquote ++ "3" ++ dquote
          ++ " eventSource=" ++ dquote ++ "App" ++ dquote ++ "]"))
  = [StructObj (Some "exampleSDID@32473")
               [("iut", "3"); ("eventSource", "App")]].
Proof. vm_compute. reflexivity. Qed.

(** An escaped closing bracket inside a quoted value does not end the
    block. *)
Example escaped_bracket_kept :
  _extract_structs
    ("[a b=" ++ dquote ++ "x\]y" ++ dquote ++ "][c d=" ++ dquote ++ "e"
     ++ dquote ++ "]")
  = [("[a b=" ++ dquote ++ "x\]y" ++ dquote ++ "]")%string;
     ("[c d=" ++ dquote ++ "e" ++ dquote ++ "]")%string].
Proof. vm_compute. reflexivity. Qed.

(** * Further properties of the syslog parser *)

(** ** The stream *)

Section StreamFacts.
Variable timestamp : string -> list Z -> res timestamp_obj.
Variable convert_to_int : value -> res (option Z).

#[local] Abbreviation line_of := (parse_line timestamp convert_to_int).
#[local] Abbreviation lines_of := (parse_lines timestamp convert_to_int).

Lemma emit_emit os ws os' ws' s :
  emit os ws (emit os' ws' s) = emit (os ++ os') (ws ++ ws') s.
Proof. unfold emit. cbn [yielded diagnostics raised]. now rewrite !app_assoc. Qed.

Lemma emit_nil s : emit [] [] s = s.
Proof. destruct s. reflexivity. Qed.

Lemma parse_lines_app raw quiet ign a b :
  lines_of raw quiet ign (a ++ b)
  = match raised (lines_of raw quiet ign a) with
    | Some _ => lines_of raw quiet ign a
    | None => emit (yielded (lines_of raw quiet ign a))
                   (diagnostics (lines_of raw quiet ign a))
                   (lines_of raw quiet ign b)
    end.
Proof.
  induction a as [|line a IH].
  - cbn [app parse_lines raised yielded diagnostics]. now rewrite emit_nil.
  - cbn [app]. rewrite !(parse_lines_cons timestamp convert_to_int).
    destruct (snd (line_of raw quiet line)) as [e|[r|]].
    + destruct ign; [|reflexivity]. rewrite IH. cbn [emit raised].
      destruct (raised (lines_of raw quiet true a)); [reflexivity|].
      rewrite emit_emit. reflexivity.
    + rewrite IH. cbn [emit raised].
      destruct (raised (lines_of raw quiet ign a)); [reflexivity|].
      rewrite emit_emit. reflexivity.
    + rewrite IH. cbn [emit raised].
      destruct (raised (lines_of raw quiet ign a)); [reflexivity|].
      rewrite emit_emit. reflexivity.
Qed.

(** X1. The lines are processed one by one, with no memory of the lines
    before: when the first part of the input raises nothing, the stream of
    the whole input is the stream of the first part followed by the stream
    of the second; when it raises, nothing of the second part is read. *)
Theorem stream_of_concatenation :
  forall (raw quiet ignore_exceptions : bool) (a b : list item),
    let of_ := parse_lines timestamp convert_to_int raw quiet
                           ignore_exceptions in
    (raised (of_ a) = None ->
     yielded (of_ (a ++ b)) = yielded (of_ a) ++ yielded (of_ b)
     /\ diagnostics (of_ (a ++ b)) = diagnostics (of_ a) ++ diagnostics (of_ b)
     /\ raised (of_ (a ++ b)) = raised (of_ b))
    /\ (raised (of_ a) <> None -> of_ (a ++ b) = of_ a).
Proof.
  intros raw quiet ign a b of_. subst of_. rewrite parse_lines_app. split.
  - intros ->. cbn [emit yielded diagnostics raised]. auto.
  - destruct (raised (lines_of raw quiet ign a)); [reflexivity|congruence].
Qed.

Lemma blank_line raw quiet line :
  is_blank line = true -> line_of raw quiet line = ([], inr None).
Proof.
  unfold is_blank, parse_line. destruct line as [s| | |]; try discriminate.
  cbn [streaming_line_input_type_check]. unfold ret. now intros ->.
Qed.

(** X2. Blank lines count for nothing: the stream of an input, what it
    yields, what it writes and how it ends, is the stream of the input
    without its blank lines. *)
Theorem blank_lines_ignored :
  forall (raw quiet ignore_exceptions : bool) (data : list item),
    parse_lines timestamp convert_to_int raw quiet ignore_exceptions data
    = parse_lines timestamp convert_to_int raw quiet ignore_exceptions
                  (filter (fun line => negb (is_blank line)) data).
Proof.
  intros raw quiet ign data. induction data as [|line data IH]; [reflexivity|].
  cbn [filter]. destruct (is_blank line) eqn:E; cbn [negb].
  - rewrite parse_lines_cons, (blank_line _ _ _ E). cbn [fst snd].
    now rewrite emit_nil.
  - rewrite !(parse_lines_cons timestamp convert_to_int), IH. reflexivity.
Qed.

(** What a line writes to the diagnostic channel. *)
Lemma line_warnings raw quiet line :
  fst (line_of raw quiet line)
  = if quiet then []
    else if is_unparsable line then [unparsable_warning line] else [].
Proof.
  unfold parse_line, is_unparsable, unparsable_warning.
  destruct line as [s| | |]; cbn [streaming_line_input_type_check];
    try (destruct quiet; reflexivity).
  unfold ret. destruct (String.eqb (Py.strip s) ""); cbn [negb andb fst];
    [destruct quiet; reflexivity|].
  destruct (re_match syslog s); cbn [fst]; destruct quiet; reflexivity.
Qed.

(** X3. With [quiet] nothing is written for any line, whatever the other
    modes; without it, in tolerant mode, one warning is written for each
    line that is not blank and does not match, in input order, and nothing
    else. *)
Theorem warnings_of_stream :
  forall (raw ignore_exceptions : bool) (data : list item),
    diagnostics (parse_lines timestamp convert_to_int raw true
                             ignore_exceptions data) = []
    /\ diagnostics (parse_lines timestamp convert_to_int raw false true data)
       = map unparsable_warning (filter is_unparsable data).
Proof.
  intros raw ign data. split.
  - induction data as [|line data IH]; [reflexivity|].
    rewrite parse_lines_cons, line_warnings.
    destruct (snd (line_of raw true line)) as [e|[r|]];
      [destruct ign|..]; cbn [emit diagnostics app]; auto.
  - induction data as [|line data IH]; [reflexivity|].
    rewrite parse_lines_cons, line_warnings. cbn [filter].
    destruct (snd (line_of raw false line)) as [e|[r|]];
      destruct (is_unparsable line); cbn [emit diagnostics app map];
      now rewrite IH.
Qed.

(** In raw mode a line of text gives its record without any call to
    [_process]. *)
Lemma raw_line (quiet : bool) (s : string) :
  snd (line_of true quiet (PyStr s))
  = if String.eqb (Py.strip s) "" then inr None
    else match re_match syslog s with
         | Some st => inr (Some (matched_line st))
         | None => inr (Some [("unparsable", VStr (Py.rstrip s))])
         end.
Proof.
  unfold parse_line. cbn [streaming_line_input_type_check]. unfold ret.
  destruct (String.eqb (Py.strip s) ""); [reflexivity|].
  destruct (re_match syslog s); reflexivity.
Qed.

Lemma matched_line_raw (st : mstate) :
  Forall (fun kv => is_raw_value (snd kv) = true) (matched_line st).
Proof.
  unfold matched_line. repeat constructor; cbn [snd];
    match goal with |- is_raw_value (of_option ?o) = true => destruct o end;
    reflexivity.
Qed.

(** X4. In raw mode an input of text lines never raises, in strict mode
    too, and every value of every record of the stream is text or null:
    nothing is converted. *)
Theorem raw_mode_text_input :
  forall (quiet ignore_exceptions : bool) (data : list item),
    Forall (fun line => is_text line = true) data ->
    let s := parse_lines timestamp convert_to_int true quiet
                         ignore_exceptions data in
    raised s = None
    /\ forall o r, In o (yielded s) -> record_of o = Some r ->
                   Forall (fun kv => is_raw_value (snd kv) = true) r.
Proof.
  intros quiet ign data Ht s. subst s.
  induction Ht as [|line data Hl _ [IHr IHy]].
  - split; [reflexivity|]. intros o r [].
  - destruct line as [s| | |]; try discriminate.
    rewrite parse_lines_cons, raw_line.
    destruct (String.eqb (Py.strip s) ""); cbn [emit raised yielded app];
      [split; assumption|].
    assert (Hrec : forall r0,
               Forall (fun kv => is_raw_value (snd kv) = true) r0 ->
               forall o r, In o (stream_success r0 ign
                                 :: yielded (lines_of true quiet ign data)) ->
                           record_of o = Some r ->
                           Forall (fun kv => is_raw_value (snd kv) = true) r).
    { intros r0 H0 o r [<-|Hin] Ho; [|eauto].
      unfold stream_success in Ho. destruct ign; cbn in Ho;
        inversion Ho; subst; assumption. }
    destruct (re_match syslog s) as [st|]; cbn [emit raised yielded app];
      (split; [assumption|]); apply Hrec.
    + apply matched_line_raw.
    + repeat constructor.
Qed.

End StreamFacts.

Lemma stream_of_concatenation_witness :
  raised (parse_line_stream_utc [PyStr scenario_a]) = None
  /\ yielded (parse_line_stream_utc ([PyStr scenario_a] ++ [PyStr "x"]))
     = yielded (parse_line_stream_utc [PyStr scenario_a])
       ++ yielded (parse_line_stream_utc [PyStr "x"])
  /\ diagnostics (parse_line_stream_utc ([PyStr scenario_a] ++ [PyStr "x"]))
     = diagnostics (parse_line_stream_utc [PyStr scenario_a])
       ++ diagnostics (parse_line_stream_utc [PyStr "x"])
  /\ raised (parse_line_stream_utc ([PyStr scenario_a] ++ [PyStr "x"]))
     = raised (parse_line_stream_utc [PyStr "x"]).
Proof.
  split; [vm_compute; reflexivity|].
  apply (proj1 (stream_of_concatenation
                  (Utils.timestamp (fun _ => 0%Z)) Utils.convert_to_int
                  false false false [PyStr scenario_a] [PyStr "x"])).
  vm_compute; reflexivity.
Defined.

Lemma raw_mode_text_input_witness :
  Forall (fun line => is_text line = true) [PyStr scenario_a; PyStr "x"]
  /\ raised (parse_lines (Utils.timestamp (fun _ => 0%Z)) Utils.convert_to_int
                         true false false [PyStr scenario_a; PyStr "x"])
     = None
  /\ forall o r,
       In o (yielded (parse_lines (Utils.timestamp (fun _ => 0%Z))
                                  Utils.convert_to_int true false false
                                  [PyStr scenario_a; PyStr "x"])) ->
       record_of o = Some r ->
       Forall (fun kv => is_raw_value (snd kv) = true) r.
Proof.
  assert (Forall (fun line => is_text line = true)
                 [PyStr scenario_a; PyStr "x"]) as H
      by (repeat constructor).
  split; [exact H|].
  exact (raw_mode_text_input (Utils.timestamp (fun _ => 0%Z))
           Utils.convert_to_int false false [PyStr scenario_a; PyStr "x"] H).
Defined.

(** ** The tokenizer *)

Lemma syslog_needs_start (c : ascii) (rest : string) :
  can_start c = false -> re_match syslog (String c rest) = None.
Proof.
  destruct c as [[] [] [] [] [] [] [] []]; intros H;
    try (vm_compute in H; discriminate H); vm_compute; reflexivity.
Qed.

Section Unparsable.
Variable timestamp : string -> list Z -> res timestamp_obj.
Variable convert_to_int : value -> res (option Z).

(** The record and the warning of a line that is not blank and does not
    match. *)
Lemma unmatched_line (raw quiet : bool) (line : string) :
  Py.strip line <> "" ->
  re_match syslog line = None ->
  parse_line timestamp convert_to_int raw quiet (PyStr line)
  = (if quiet then []
     else [[("Unparsable line found: " ++ Py.rstrip line)%string]],
     inr (Some [("unparsable",
                 VStr (if raw then Py.rstrip line else Py.strip line))])).
Proof.
  intros Hb Hm. unfold parse_line.
  cbn [streaming_line_input_type_check]. unfold ret.
  apply String.eqb_neq in Hb. rewrite Hb, Hm. f_equal.
  destruct raw; [reflexivity|].
  rewrite process_unparsable.
  - cbn [bind]. unfold ret. now rewrite StripFacts.strip_rstrip.
  - intros E. apply StripFacts.rstrip_empty in E. apply String.eqb_neq in Hb.
    contradiction.
Qed.

(** X5. A line whose first character is not an opening angle bracket, a
    digit, white space or a hyphen is never tokenized: it is reported as
    [unparsable], with one warning unless [quiet], and nothing is raised. *)
Theorem line_with_other_start_is_unparsable :
  forall (raw quiet : bool) (c : ascii) (rest : string),
    can_start c = false ->
    parse_line timestamp convert_to_int raw quiet (PyStr (String c rest))
    = (if quiet then []
       else [[("Unparsable line found: " ++ Py.rstrip (String c rest))%string]],
       inr (Some [("unparsable",
                   VStr (if raw then Py.rstrip (String c rest)
                         else Py.strip (String c rest)))])).
Proof.
  intros raw quiet c rest H. apply unmatched_line.
  - apply StripFacts.strip_nonempty.
    unfold can_start in H. apply orb_false_iff in H as (H & _).
    apply orb_false_iff in H as (_ & H). exact H.
  - now apply syslog_needs_start.
Qed.

End Unparsable.

Lemma line_with_other_start_is_unparsable_witness :
  can_start "g" = false
  /\ parse_line (Utils.timestamp (fun _ => 0%Z)) Utils.convert_to_int
                false false (PyStr "garbage line with no structure")
     = ([["Unparsable line found: garbage line with no structure"]],
        inr (Some [("unparsable", VStr "garbage line with no structure")])).
Proof.
  split; [reflexivity|].
  apply (line_with_other_start_is_unparsable
           (Utils.timestamp (fun _ => 0%Z)) Utils.convert_to_int false false
           "g" "arbage line with no structure").
  reflexivity.
Defined.

Module Layout.
Import Runs ReFacts TokenParts.

Lemma group_lookup st name : group st name = lookup name (caps st).
Proof. reflexivity. Qed.

Lemma lookup_skip name d l :
  Forall (fun p => String.eqb (fst p) name = false) d ->
  lookup name (d ++ l) = lookup name l.
Proof. intros H. unfold lookup. now rewrite Tokens.find_skip. Qed.

Lemma lookup_here name w l : lookup name ((name, w) :: l) = Some (l2s w).
Proof. unfold lookup. cbn [find fst]. now rewrite String.eqb_refl. Qed.

Lemma lookup_next name n w l :
  String.eqb n name = false -> lookup name ((n, w) :: l) = lookup name l.
Proof. intros H. unfold lookup. cbn [find fst]. now rewrite H. Qed.

Lemma names_skip name ns (d : list (string * list ascii)) :
  Forall (fun p => In (fst p) ns) d -> ~ In name ns ->
  Forall (fun p => String.eqb (fst p) name = false) d.
Proof.
  intros F Hn. eapply Forall_impl; [|exact F]. intros p Hp.
  apply String.eqb_neq. intros E. apply Hn. now rewrite <- E.
Qed.

Lemma no_names (d : list (string * list ascii)) :
  Forall (fun p => In (fst p) []) d -> d = [].
Proof. destruct d; [reflexivity|]. intros H. inversion H. contradiction. Qed.

Lemma in_all_ascii (c : ascii) : In c all_ascii.
Proof.
  unfold all_ascii. rewrite <- (ascii_nat_embedding c).
  apply in_map, in_seq. pose proof (nat_ascii_bounded c). lia.
Qed.

Lemma class_within_spec (q p : ascii -> bool) (c : ascii) :
  class_within q p = true -> p c = true -> q c = true.
Proof.
  unfold class_within. rewrite forallb_forall. intros H Hp.
  specialize (H c (in_all_ascii c)). now rewrite Hp in H.
Qed.

Lemma iter_within (q : ascii -> bool) (R : mstate -> mstate -> Prop) :
  (forall st st', R st st' ->
     exists w d, moved st st' w d /\ Forall (fun c => q c = true) w) ->
  forall n st st', iter R n st st' ->
     exists w d, moved st st' w d /\ Forall (fun c => q c = true) w.
Proof.
  intros HR. induction n as [|n IH]; intros st st' H; simpl in H.
  - subst. exists [], []. split; [apply moved_refl|constructor].
  - destruct H as (st1 & H1 & H). apply HR in H1 as (w1 & d1 & M1 & F1).
    apply IH in H as (w2 & d2 & M2 & F2).
    exists (w1 ++ w2), (d2 ++ d1). split.
    + eapply moved_trans; eauto.
    + apply Forall_app. auto.
Qed.

Lemma Run_within (q : ascii -> bool) (r : regex) :
  within q r = true ->
  forall st st', Run r st st' ->
    exists w d, moved st st' w d /\ Forall (fun c => q c = true) w.
Proof.
  induction r as [|p|a IHa b IHb|a IHa b IHb|name a IHa|a IHa lo hi g|p];
    intros W st st' H; simpl in H, W.
  - subst. exists [], []. split; [apply moved_refl|constructor].
  - destruct H as (c & rest & E & Ec & ->). exists [c], [].
    split; [unfold moved, advance; simpl; auto|].
    constructor; [|constructor]. eapply class_within_spec; eauto.
  - apply andb_true_iff in W as (Wa & Wb). destruct H as (st1 & Ha & Hb).
    apply IHa in Ha as (w1 & d1 & M1 & F1); [|assumption].
    apply IHb in Hb as (w2 & d2 & M2 & F2); [|assumption].
    exists (w1 ++ w2), (d2 ++ d1). split; [eapply moved_trans; eauto|].
    apply Forall_app. auto.
  - apply andb_true_iff in W as (Wa & Wb).
    destruct H as [H|H]; [apply IHa in H|apply IHb in H]; assumption.
  - destruct H as (st1 & Ha & ->). apply IHa in Ha as (w & d & M & F);
      [|assumption].
    exists w, ((name, consumed st st1) :: d). split; [|assumption].
    now apply Tokens.moved_close.
  - destruct H as (n & _ & H). eapply iter_within; eauto.
  - destruct H as (-> & _). exists [], []. split; [apply moved_refl|constructor].
Qed.

(** What a pattern within [q] reads is made of characters of [q]. *)
Lemma Run_text (q : ascii -> bool) (r : regex) st st' w d :
  within q r = true -> Run r st st' -> moved st st' w d ->
  Forall (fun c => q c = true) w.
Proof.
  intros W H M. apply (Run_within q r W) in H as (w' & d' & M' & F).
  apply moved_consumed in M, M'. congruence.
Qed.

(** A group around a bounded repeat of a class. *)
Lemma class_group_run name lo hi p s s' :
  Run (Group name (upto lo hi (Cls p))) s s' ->
  exists w, moved s s' w [(name, w)] /\ lo <= length w <= hi
            /\ Forall (fun c => p c = true) w.
Proof.
  unfold upto. cbn [Run]. intros (s1 & (n & Hn & Hi) & ->).
  apply (iter_Cls p) in Hi as (w & M & L & F).
  exists w. split; [|split; [cbn [rep_fuel] in Hn; lia|assumption]].
  pose proof (Tokens.moved_close name _ _ _ _ M) as M'.
  now rewrite (moved_consumed _ _ _ _ M) in M'.
Qed.

(** An optional group with no group inside. *)
Lemma opt_group_run (q : ascii -> bool) name a s s' :
  gnames a = [] -> within q a = true ->
  Run (opt (Group name a)) s s' ->
  moved s s' [] []
  \/ exists w, moved s s' w [(name, w)] /\ Forall (fun c => q c = true) w.
Proof.
  intros Hg W H. unfold opt in H. cbn [Run rep_fuel] in H.
  destruct H as (n & Hn & H).
  destruct n as [|[|n]]; [| |lia]; cbn [iter] in H.
  - subst. left. apply moved_refl.
  - right. destruct H as (s1 & (s0 & Ha & ->) & ->).
    pose proof Ha as Ha'.
    apply Run_moved in Ha as (w & d & M & F). rewrite Hg in F.
    apply no_names in F. subst d.
    exists w. split; [|exact (Run_text q a _ _ _ _ W Ha' M)].
    pose proof (Tokens.moved_close name _ _ _ _ M) as M'.
    now rewrite (moved_consumed _ _ _ _ M) in M'.
Qed.

(** A group with no group inside. *)
Lemma plain_group_run name a s s' :
  gnames a = [] ->
  Run (Group name a) s s' -> exists w, moved s s' w [(name, w)].
Proof.
  intros Hg H. cbn [Run] in H. destruct H as (s0 & Ha & ->).
  apply Run_moved in Ha as (w & d & M & F). rewrite Hg in F.
  apply no_names in F. subst d.
  exists w. pose proof (Tokens.moved_close name _ _ _ _ M) as M'.
  now rewrite (moved_consumed _ _ _ _ M) in M'.
Qed.

(** The message, when there is one: a white-space character and a
    non-empty text without a newline. *)
Lemma msg_run s s' :
  Run (opt (space >> Group "msg" (plus dot))) s s' ->
  moved s s' [] []
  \/ exists c msg,
       moved s s' (c :: msg) [("msg", msg)] /\ Py.isspace c = true
       /\ 1 <= length msg /\ Forall (fun x => not_newline x = true) msg.
Proof.
  intros H. unfold opt in H. cbn [Run rep_fuel] in H.
  destruct H as (n & Hn & H).
  destruct n as [|[|n]]; [| |lia]; cbn [iter] in H.
  - subst. left. apply moved_refl.
  - right. destruct H as (s2 & (s1 & Hs & Hg) & ->).
    apply (Run_Cls Py.isspace) in Hs as (c & Mc & Hc).
    unfold plus in Hg. cbn [Run] in Hg.
    destruct Hg as (s3 & (k & Hk & Hi) & ->).
    apply (iter_Cls not_newline) in Hi as (msg & M & L & F).
    exists c, msg. split; [|split; [assumption|split; [lia|assumption]]].
    pose proof (Tokens.moved_close "msg" _ _ _ _ M) as M'.
    rewrite (moved_consumed _ _ _ _ M) in M'.
    exact (moved_trans _ _ _ _ _ _ _ Mc M').
Qed.

Lemma nonspace_all (w : list ascii) :
  Forall (fun c => negb (Py.isspace c) = true) w ->
  Forall (fun c => Py.isspace c = false) w.
Proof.
  apply Forall_impl. intros c H. now apply negb_true_iff in H.
Qed.

(** The structured data: the placeholder, or blocks. *)
Lemma data_run s s' :
  Run (Group "structureddata" (chr "-" <|> plus block)) s s' ->
  exists sd,
    moved s s' sd [("structureddata", sd)]
    /\ (sd = ["-"%char]
        \/ exists w c, sd = "["%char :: w ++ [c; "]"%char] /\ c <> "\"%char).
Proof.
  cbn [Run]. intros (s0 & H & ->).
  assert (exists sd, moved s s0 sd []
            /\ (sd = ["-"%char]
                \/ exists w c, sd = "["%char :: w ++ [c; "]"%char]
                               /\ c <> "\"%char)) as (sd & M & Hsd).
  { destruct H as [Hd|Hb].
    - apply Run_Cls in Hd as (c & M & Ec). apply Ascii.eqb_eq in Ec. subst c.
      exists ["-"%char]. auto.
    - apply (Run_Rep block 1 None true) in Hb as (n & Hn & Hb).
      destruct n as [|n]; [lia|].
      apply Structs.blocks_text in Hb as (w & c & M & Hc).
      exists ("["%char :: w ++ [c; "]"%char]). split; [assumption|].
      right. eauto. }
  exists sd. split; [|assumption].
  pose proof (Tokens.moved_close "structureddata" _ _ _ _ M) as M'.
  now rewrite (moved_consumed _ _ _ _ M) in M'.
Qed.

(** What the fields after the timestamp read, and the groups they close. *)
Lemma fields_run s s' :
  Run fields s s' ->
  exists c0 host c1 app c2 proc c3 mid c4 sd tw td,
    moved s s'
      (c0 :: host ++ c1 :: app ++ c2 :: proc ++ c3 :: mid ++ c4 :: sd ++ tw)
      (td ++ [("structureddata", sd); ("msgid", mid); ("procid", proc);
              ("appname", app); ("hostname", host)])
    /\ (Py.isspace c0 = true /\ Py.isspace c1 = true /\ Py.isspace c2 = true
        /\ Py.isspace c3 = true /\ Py.isspace c4 = true)
    /\ (1 <= length host <= 255 /\ Forall (fun c => Py.isspace c = false) host)
    /\ (1 <= length app <= 48 /\ Forall (fun c => Py.isspace c = false) app)
    /\ (1 <= length proc <= 128 /\ Forall (fun c => Py.isspace c = false) proc)
    /\ (1 <= length mid <= 32 /\ Forall (fun c => Py.isspace c = false) mid)
    /\ (sd = ["-"%char]
        \/ exists w c, sd = "["%char :: w ++ [c; "]"%char] /\ c <> "\"%char)
    /\ ((tw = [] /\ td = [])
        \/ exists c5 msg,
             tw = c5 :: msg /\ td = [("msg", msg)] /\ Py.isspace c5 = true
             /\ 1 <= length msg /\ Forall (fun x => not_newline x = true) msg).
Proof.
  unfold fields, data_and_msg. cbn [Run].
  intros (s1 & H0 & s2 & Hh & s3 & H1 & s4 & Ha & s5 & H2 & s6 & Hp &
          s7 & H3 & s8 & Hm & s9 & H4 & s10 & Hsd & Hmsg).
  apply (Run_Cls Py.isspace) in H0 as (c0 & M0 & E0).
  apply (Run_Cls Py.isspace) in H1 as (c1 & M1 & E1).
  apply (Run_Cls Py.isspace) in H2 as (c2 & M2 & E2).
  apply (Run_Cls Py.isspace) in H3 as (c3 & M3 & E3).
  apply (Run_Cls Py.isspace) in H4 as (c4 & M4 & E4).
  apply (class_group_run "hostname") in Hh as (host & Mh & Lh & Fh).
  apply (class_group_run "appname") in Ha as (app & Ma & La & Fa).
  apply (class_group_run "procid") in Hp as (proc & Mp & Lp & Fp).
  apply (class_group_run "msgid") in Hm as (mid & Mm & Lm & Fm).
  apply data_run in Hsd as (sd & Msd & Hsd).
  apply nonspace_all in Fh, Fa, Fp, Fm.
  assert (forall tw td, moved s10 s' tw td ->
            moved s s'
              (c0 :: host ++ c1 :: app ++ c2 :: proc ++ c3 :: mid ++ c4 :: sd ++ tw)
              (td ++ [("structureddata", sd); ("msgid", mid); ("procid", proc);
                      ("appname", app); ("hostname", host)])) as Hall.
  { intros tw td Mt.
    pose proof (moved_trans _ _ _ _ _ _ _ M0
               (moved_trans _ _ _ _ _ _ _ Mh
               (moved_trans _ _ _ _ _ _ _ M1
               (moved_trans _ _ _ _ _ _ _ Ma
               (moved_trans _ _ _ _ _ _ _ M2
               (moved_trans _ _ _ _ _ _ _ Mp
               (moved_trans _ _ _ _ _ _ _ M3
               (moved_trans _ _ _ _ _ _ _ Mm
               (moved_trans _ _ _ _ _ _ _ M4
               (moved_trans _ _ _ _ _ _ _ Msd Mt)))))))))) as M.
    cbn [List.app] in M. repeat rewrite <- app_assoc in M. cbn [List.app] in M.
    exact M. }
  apply msg_run in Hmsg as [Mt | (c5 & msg & Mt & E5 & Lmsg & Fmsg)].
  - exists c0, host, c1, app, c2, proc, c3, mid, c4, sd, [], [].
    split; [exact (Hall _ _ Mt)|]. do 6 (split; [solve [auto]|]). now left.
  - exists c0, host, c1, app, c2, proc, c3, mid, c4, sd, (c5 :: msg), [("msg", msg)].
    split; [exact (Hall _ _ Mt)|]. do 6 (split; [solve [auto]|]).
    right. exists c5, msg. auto.
Qed.

Lemma after_prio_stamp :
  after_prio
  = (opt (Group "version" (upto 1 2 digit)) >> star space >>
     Group "timestamp" stamp >> fields)%re.
Proof. reflexivity. Qed.

Lemma space_run s s' :
  Run (star space) s s' ->
  exists ws, moved s s' ws [] /\ Forall (fun c => Py.isspace c = true) ws.
Proof.
  intros H. apply Run_Rep in H as (n & _ & H).
  apply (iter_Cls Py.isspace) in H as (ws & M & _ & F). eauto.
Qed.

(** The priority, when there is one. *)
Lemma prio_run s s' :
  Run (opt prio) s s' ->
  moved s s' [] []
  \/ exists ds,
       moved s s' ("<"%char :: ds ++ [">"%char])
             [("priority", "<"%char :: ds ++ [">"%char])]
       /\ priority_digits ds = true.
Proof.
  intros H. unfold opt in H. cbn [Run rep_fuel] in H.
  destruct H as (n & Hn & H).
  destruct n as [|[|n]]; [| |lia]; cbn [iter] in H.
  - subst. left. apply moved_refl.
  - right. destruct H as (s1 & H & ->). unfold prio in H. cbn [Run] in H.
    destruct H as (s0 & (sa & Ho & sb & Hd & Hc) & ->).
    apply Run_Cls in Ho as (o & Mo & Eo). apply Ascii.eqb_eq in Eo. subst o.
    apply Run_Cls in Hc as (c & Mc & Ec). apply Ascii.eqb_eq in Ec. subst c.
    assert (exists ds, moved sa sb ds [] /\ priority_digits ds = true)
      as (ds & Md & Hds).
    { destruct Hd as [H1 | [H2 | [H3 | H4]]].
      - apply (Run_Cls Py.isdecimal) in H1 as (a & Ma & Ea).
        exists [a]. auto.
      - unfold times in H2. cbn [Run rep_fuel] in H2.
        destruct H2 as (k & Hk & Hi).
        apply (iter_Cls Py.isdecimal) in Hi as (w & M & L & F).
        destruct w as [|a [|b [|? ?]]]; cbn [length] in L; try lia.
        exists [a; b]. split; [assumption|].
        inversion F as [|? ? Ea F']; subst. inversion F' as [|? ? Eb ?]; subst.
        cbn [priority_digits]. now rewrite Ea, Eb.
      - destruct H3 as (x & Ha & y & Hb & Hc).
        apply Run_Cls in Ha as (a & Ma & Ea).
        apply Run_Cls in Hb as (b & Mb & Eb).
        apply Run_Cls in Hc as (c & Mc' & Ec).
        exists [a; b; c]. split.
        + exact (moved_trans _ _ _ _ _ _ _ Ma (moved_trans _ _ _ _ _ _ _ Mb Mc')).
        + cbn [priority_digits]. rewrite Ea, Eb, Ec. reflexivity.
      - destruct H4 as (x & Ha & y & Hb & Hc).
        apply Run_Cls in Ha as (a & Ma & Ea).
        apply Run_Cls in Hb as (b & Mb & Eb).
        apply Run_Cls in Hc as (c & Mc' & Ec).
        exists [a; b; c]. split.
        + exact (moved_trans _ _ _ _ _ _ _ Ma (moved_trans _ _ _ _ _ _ _ Mb Mc')).
        + cbn [priority_digits]. rewrite Ea, Eb, Ec.
          now rewrite orb_true_r. }
    pose proof (moved_trans _ _ _ _ _ _ _ Mo (moved_trans _ _ _ _ _ _ _ Md Mc))
      as M.
    cbn [List.app] in M. exists ds.
    split; [|assumption].
    pose proof (Tokens.moved_close "priority" _ _ _ _ M) as M'.
    now rewrite (moved_consumed _ _ _ _ M) in M'.
Qed.

(** The version, when there is one. *)
Lemma version_run s s' :
  Run (opt (Group "version" (upto 1 2 digit))) s s' ->
  moved s s' [] []
  \/ exists w,
       moved s s' w [("version", w)] /\ 1 <= length w <= 2
       /\ Forall (fun c => Py.isdecimal c = true) w.
Proof.
  intros H. unfold opt in H. cbn [Run rep_fuel] in H.
  destruct H as (n & Hn & H).
  destruct n as [|[|n]]; [| |lia]; cbn [iter] in H.
  - subst. left. apply moved_refl.
  - right. destruct H as (s1 & H & ->).
    now apply (class_group_run "version" 1 2 Py.isdecimal) in H.
Qed.

Ltac not_in :=
  let H := fresh in
  cbn [gnames stamp date_time_tail List.app In]; intros H;
  repeat (destruct H as [H|H]; [discriminate H|]); exact H.

Ltac look F :=
  repeat first
    [ rewrite lookup_here
    | rewrite lookup_next by reflexivity
    | rewrite lookup_skip by (apply (names_skip _ _ _ F); not_in) ].

(** What a match of [syslog] at the start of a line reads, piece by piece,
    and what its groups hold. *)
Lemma syslog_layout (line : string) (st : mstate) :
  re_match syslog line = Some st ->
  exists pw vw ws ts c0 host c1 app c2 proc c3 mid c4 sd tw,
    s2l line
    = pw ++ vw ++ ws ++ ts ++ c0 :: host ++ c1 :: app ++ c2 :: proc ++
      c3 :: mid ++ c4 :: sd ++ tw ++ after st
    /\ Forall (fun c => Py.isspace c = true) ws
    /\ (Py.isspace c0 = true /\ Py.isspace c1 = true /\ Py.isspace c2 = true
        /\ Py.isspace c3 = true /\ Py.isspace c4 = true)
    /\ (1 <= length host <= 255 /\ Forall (fun c => Py.isspace c = false) host)
    /\ (1 <= length app <= 48 /\ Forall (fun c => Py.isspace c = false) app)
    /\ (1 <= length proc <= 128 /\ Forall (fun c => Py.isspace c = false) proc)
    /\ (1 <= length mid <= 32 /\ Forall (fun c => Py.isspace c = false) mid)
    /\ ((pw = [] /\ group st "priority" = None)
        \/ (group st "priority" = Some (l2s pw)
            /\ exists ds, pw = "<"%char :: ds ++ [">"%char]
                          /\ priority_digits ds = true))
    /\ ((vw = [] /\ group st "version" = None)
        \/ (group st "version" = Some (l2s vw) /\ 1 <= length vw <= 2
            /\ Forall (fun c => Py.isdecimal c = true) vw))
    /\ (group st "timestamp" = Some (l2s ts)
        /\ Forall (fun c => not_space c = true) ts)
    /\ (group st "hostname" = Some (l2s host)
        /\ group st "appname" = Some (l2s app)
        /\ group st "procid" = Some (l2s proc)
        /\ group st "msgid" = Some (l2s mid)
        /\ group st "structureddata" = Some (l2s sd))
    /\ (sd = ["-"%char]
        \/ exists w c, sd = "["%char :: w ++ [c; "]"%char] /\ c <> "\"%char)
    /\ ((tw = [] /\ group st "msg" = None)
        \/ exists c5 msg,
             tw = c5 :: msg /\ Py.isspace c5 = true /\ 1 <= length msg
             /\ Forall (fun x => not_newline x = true) msg
             /\ group st "msg" = Some (l2s msg)).
Proof.
  unfold re_match, match_here, start. cbn [before after]. intros H.
  apply m_sound in H as (st' & H & E). injection E as ->.
  change syslog with (opt prio >> after_prio)%re in H.
  rewrite after_prio_stamp in H. cbn [Run] in H.
  destruct H as (s1 & Hp & s2 & Hv & s3 & Hw & s4 & (s0 & Hts & ->) & Hf).
  apply prio_run in Hp. apply version_run in Hv.
  apply space_run in Hw as (ws & Mw & Fw).
  pose proof Hts as Hts'.
  apply (Run_moved stamp) in Hts as (ts & dts & Mts & Fts).
  pose proof (Run_text not_space stamp _ _ _ _ ltac:(vm_compute; reflexivity)
                Hts' Mts) as Fs. clear Hts'.
  pose proof (Tokens.moved_close "timestamp" _ _ _ _ Mts) as Mt.
  rewrite (moved_consumed _ _ _ _ Mts) in Mt. clear Mts.
  apply fields_run in Hf
    as (c0 & host & c1 & app & c2 & proc & c3 & mid & c4 & sd & tw & td &
        Mf & Hc & Hh & Ha & Hpr & Hm & Hsd & Hmsg).
  assert (exists pw pd vw vd,
            moved (MState [] (s2l line) []) s3 (pw ++ vw ++ ws) (vd ++ pd)
            /\ ((pw = [] /\ pd = [])
                \/ (pd = [("priority", pw)]
                    /\ exists ds, pw = "<"%char :: ds ++ [">"%char]
                                  /\ priority_digits ds = true))
            /\ ((vw = [] /\ vd = [])
                \/ (vd = [("version", vw)] /\ 1 <= length vw <= 2
                    /\ Forall (fun c => Py.isdecimal c = true) vw)))
    as (pw & pd & vw & vd & Mh & Hpd & Hvd).
  { destruct Hp as [Mp | (ds & Mp & Hds)], Hv as [Mv | (vw & Mv & Lv & Fv)].
    - exists [], [], [], []. split; [|auto].
      exact (moved_trans _ _ _ _ _ _ _ Mp (moved_trans _ _ _ _ _ _ _ Mv Mw)).
    - exists [], [], vw, [("version", vw)]. split; [|auto].
      exact (moved_trans _ _ _ _ _ _ _ Mp (moved_trans _ _ _ _ _ _ _ Mv Mw)).
    - exists ("<"%char :: ds ++ [">"%char]),
        [("priority", "<"%char :: ds ++ [">"%char])], [], [].
      split; [|split; [right; eauto|auto]].
      exact (moved_trans _ _ _ _ _ _ _ Mp (moved_trans _ _ _ _ _ _ _ Mv Mw)).
    - exists ("<"%char :: ds ++ [">"%char]),
        [("priority", "<"%char :: ds ++ [">"%char])], vw, [("version", vw)].
      split; [|split; [right; eauto|auto]].
      exact (moved_trans _ _ _ _ _ _ _ Mp (moved_trans _ _ _ _ _ _ _ Mv Mw)). }
  pose proof (moved_trans _ _ _ _ _ _ _ Mh (moved_trans _ _ _ _ _ _ _ Mt Mf))
    as (_ & A & C).
  cbn [after caps] in A, C. rewrite app_nil_r in C.
  repeat (rewrite <- app_assoc in A || rewrite <- app_comm_cons in A).
  repeat rewrite <- app_assoc in C. cbn [List.app] in C.
  exists pw, vw, ws, ts, c0, host, c1, app, c2, proc, c3, mid, c4, sd, tw.
  split; [exact A|]. do 6 (split; [assumption|]).
  rewrite !group_lookup, C.
  assert (forall name, lookup name td = None ->
            forall l, lookup name (td ++ l) = lookup name l) as Htd.
  { intros name Hn l.
    destruct Hmsg as [(_ & ->) | (c5 & msg & _ & -> & _)]; [reflexivity|].
    unfold lookup in Hn |- *. cbn [find fst List.app] in Hn |- *.
    destruct (String.eqb "msg" name); [discriminate Hn|reflexivity]. }
  assert (forall name, name <> "msg" -> lookup name td = None) as Hno.
  { intros name Hn.
    destruct Hmsg as [(_ & ->) | (c5 & msg & _ & -> & _)]; [reflexivity|].
    unfold lookup. cbn [find fst].
    destruct (String.eqb "msg" name) eqn:E; [|reflexivity].
    apply String.eqb_eq in E. now subst. }
  rewrite !Htd by (apply Hno; discriminate).
  split; [|split; [|split; [|split; [|split; [exact Hsd|]]]]].
  - look Fts.
    destruct Hpd as [(-> & ->) | (-> & Hds)].
    + left. split; [reflexivity|].
      destruct Hvd as [(_ & ->) | (-> & _)]; cbn [List.app]; look Fts;
        reflexivity.
    + right. split; [|exact Hds].
      destruct Hvd as [(_ & ->) | (-> & _)]; cbn [List.app]; look Fts;
        reflexivity.
  - look Fts.
    destruct Hvd as [(-> & ->) | (-> & Lv & Fv)].
    + left. split; [reflexivity|].
      destruct Hpd as [(_ & ->) | (-> & _)]; cbn [List.app]; look Fts;
        reflexivity.
    + right. split; [|auto]. cbn [List.app]. look Fts. reflexivity.
  - split; [|exact Fs]. look Fts. reflexivity.
  - repeat split; look Fts; reflexivity.
  - destruct Hmsg as [(-> & ->) | (c5 & msg & -> & -> & E5 & Lm & Fm)].
    + left. split; [reflexivity|]. cbn [List.app]. look Fts.
      destruct Hvd as [(_ & ->) | (-> & _)],
               Hpd as [(_ & ->) | (-> & _)];
        cbn [List.app]; look Fts; reflexivity.
    + right. exists c5, msg. cbn [List.app]. look Fts. auto.
Qed.

End Layout.

Lemma l2s_cons (c : ascii) (l : list ascii) : l2s (c :: l) = String c (l2s l).
Proof. reflexivity. Qed.

Lemma length_l2s (l : list ascii) : String.length (l2s l) = length l.
Proof. induction l as [|c l IH]; simpl; [reflexivity|]. now rewrite IH. Qed.

Lemma token_l2s (n : nat) (w : list ascii) :
  1 <= length w <= n /\ Forall (fun c => Py.isspace c = false) w ->
  token n (l2s w).
Proof.
  intros (L & F). unfold token.
  now rewrite length_l2s, list_ascii_of_string_of_list_ascii.
Qed.

(** X6. A line the tokenizer matches is its groups put back together: the
    priority, the version, white space, the timestamp, then the host name,
    the application name, the process id, the message id and the structured
    data, each after exactly one white-space character, then the message
    after one more when there is one, then what the pattern did not read. *)
Theorem tokenized_line_reassembles (line : string) (st : mstate) :
  re_match syslog line = Some st ->
  exists (ws tail : string) (c0 c1 c2 c3 c4 : ascii),
    line
    = (group_or_empty st "priority" ++ group_or_empty st "version" ++ ws ++
       group_or_empty st "timestamp" ++
       String c0 (group_or_empty st "hostname") ++
       String c1 (group_or_empty st "appname") ++
       String c2 (group_or_empty st "procid") ++
       String c3 (group_or_empty st "msgid") ++
       String c4 (group_or_empty st "structureddata") ++
       tail ++ l2s (after st))%string
    /\ all_space ws
    /\ (Py.isspace c0 = true /\ Py.isspace c1 = true /\ Py.isspace c2 = true
        /\ Py.isspace c3 = true /\ Py.isspace c4 = true)
    /\ ((group st "msg" = None /\ tail = "")
        \/ exists c5 : ascii,
             Py.isspace c5 = true
             /\ tail = String c5 (group_or_empty st "msg")).
Proof.
  intros H. apply Layout.syslog_layout in H
    as (pw & vw & ws & ts & c0 & host & c1 & app & c2 & proc & c3 & mid & c4 &
        sd & tw & A & Fw & Hc & _ & _ & _ & _ & Hp & Hv & (Gt & _) &
        (Gh & Ga & Gpr & Gm & Gsd) & _ & Hmsg).
  assert (group_or_empty st "priority" = l2s pw) as Gp.
  { unfold group_or_empty.
    destruct Hp as [(-> & G) | (G & _)]; now rewrite G. }
  assert (group_or_empty st "version" = l2s vw) as Gv.
  { unfold group_or_empty.
    destruct Hv as [(-> & G) | (G & _)]; now rewrite G. }
  exists (l2s ws), (l2s tw), c0, c1, c2, c3, c4.
  split; [|split; [|split; [exact Hc|]]].
  - rewrite <- (string_of_list_ascii_of_string line), A.
    repeat (rewrite l2s_app || rewrite l2s_cons).
    rewrite Gp, Gv. unfold group_or_empty. rewrite Gt, Gh, Ga, Gpr, Gm, Gsd.
    reflexivity.
  - unfold all_space. now rewrite list_ascii_of_string_of_list_ascii.
  - destruct Hmsg as [(-> & Gn) | (c5 & msg & -> & E5 & _ & _ & Gmsg)].
    + left. auto.
    + right. exists c5. split; [exact E5|].
      unfold group_or_empty. now rewrite Gmsg.
Qed.

Lemma tokenized_line_reassembles_witness :
  re_match syslog scenario_sd = Some scenario_sd_match
  /\ exists (ws tail : string) (c0 c1 c2 c3 c4 : ascii),
       scenario_sd
       = (group_or_empty scenario_sd_match "priority" ++
          group_or_empty scenario_sd_match "version" ++ ws ++
          group_or_empty scenario_sd_match "timestamp" ++
          String c0 (group_or_empty scenario_sd_match "hostname") ++
          String c1 (group_or_empty scenario_sd_match "appname") ++
          String c2 (group_or_empty scenario_sd_match "procid") ++
          String c3 (group_or_empty scenario_sd_match "msgid") ++
          String c4 (group_or_empty scenario_sd_match "structureddata") ++
          tail ++ l2s (after scenario_sd_match))%string
       /\ all_space ws
       /\ (Py.isspace c0 = true /\ Py.isspace c1 = true
           /\ Py.isspace c2 = true /\ Py.isspace c3 = true
           /\ Py.isspace c4 = true)
       /\ ((group scenario_sd_match "msg" = None /\ tail = "")
           \/ exists c5 : ascii,
                Py.isspace c5 = true
                /\ tail = String c5 (group_or_empty scenario_sd_match "msg")).
Proof.
  split; [vm_compute; reflexivity|].
  apply (tokenized_line_reassembles scenario_sd scenario_sd_match).
  vm_compute; reflexivity.
Defined.

(** X7. In a line the tokenizer matches, the host name, the application
    name, the process id and the message id are never empty, hold no white
    space, and have at most 255, 48, 128 and 32 characters. *)
Theorem tokenized_fields_bounded (line : string) (st : mstate) :
  re_match syslog line = Some st ->
  exists host app proc mid : string,
    (group st "hostname" = Some host /\ token 255 host)
    /\ (group st "appname" = Some app /\ token 48 app)
    /\ (group st "procid" = Some proc /\ token 128 proc)
    /\ (group st "msgid" = Some mid /\ token 32 mid).
Proof.
  intros H. apply Layout.syslog_layout in H
    as (pw & vw & ws & ts & c0 & host & c1 & app & c2 & proc & c3 & mid & c4 &
        sd & tw & _ & _ & _ & Hh & Ha & Hp & Hm & _ & _ & _ &
        (Gh & Ga & Gpr & Gm & _) & _).
  exists (l2s host), (l2s app), (l2s proc), (l2s mid).
  split; [|split; [|split]]; (split; [assumption|now apply token_l2s]).
Qed.

Lemma tokenized_fields_bounded_witness :
  re_match syslog scenario_a = Some scenario_a_match
  /\ exists host app proc mid : string,
       (group scenario_a_match "hostname" = Some host /\ token 255 host)
       /\ (group scenario_a_match "appname" = Some app /\ token 48 app)
       /\ (group scenario_a_match "procid" = Some proc /\ token 128 proc)
       /\ (group scenario_a_match "msgid" = Some mid /\ token 32 mid).
Proof.
  split; [vm_compute; reflexivity|].
  apply (tokenized_fields_bounded scenario_a scenario_a_match).
  vm_compute; reflexivity.
Defined.

(** ** The normalizer on the record of a tokenized line *)

Module Clean.
Import Py.

Lemma lstrip_l_head (c : ascii) (t : list ascii) :
  isspace c = false -> lstrip_l (c :: t) = c :: t.
Proof. intros H. cbn [lstrip_l]. now rewrite H. Qed.

(** A text whose first and last characters are not white space does not
    change when stripped. *)
Lemma strip_l_ends (c : ascii) (m : list ascii) (e : ascii) :
  isspace c = false -> isspace e = false ->
  strip_l (c :: m ++ [e]) = c :: m ++ [e].
Proof.
  intros Hc He. unfold strip_l, rstrip_l. rewrite lstrip_l_head by assumption.
  change (c :: m ++ [e]) with ((c :: m) ++ [e]).
  rewrite rev_app_distr. cbn [rev List.app].
  rewrite lstrip_l_head by assumption.
  change (e :: rev m ++ [c]) with (rev [e] ++ rev (c :: m)).
  rewrite <- rev_app_distr. now rewrite rev_involutive.
Qed.

Lemma strip_l_one (c : ascii) : isspace c = false -> strip_l [c] = [c].
Proof.
  intros Hc. unfold strip_l, rstrip_l. rewrite lstrip_l_head by assumption.
  cbn [rev List.app]. now rewrite lstrip_l_head.
Qed.

Lemma strip_l_token (w : list ascii) :
  Forall (fun c => isspace c = false) w -> strip_l w = w.
Proof.
  intros F. destruct w as [|c t]; [reflexivity|].
  destruct (exists_last (l := c :: t)) as (m & e & E); [discriminate|].
  assert (isspace c = false) as Hc by (inversion F; assumption).
  assert (isspace e = false) as He.
  { rewrite E in F. apply Forall_app in F as (_ & F). now inversion F. }
  destruct m as [|c' m]; cbn [List.app] in E.
  - injection E as -> ->. now apply strip_l_one.
  - injection E as <- ->. now apply strip_l_ends.
Qed.

Lemma l2s_nonempty (c : ascii) (t : list ascii) : l2s (c :: t) <> "".
Proof. discriminate. Qed.

Lemma clean_none : clean None.
Proof. intros s H. discriminate H. Qed.

Lemma clean_l2s (w : list ascii) :
  strip_l w = w -> w <> [] -> clean (Some (l2s w)).
Proof.
  intros Hs Hn s E. assert (s = l2s w) as -> by congruence. split.
  - unfold strip. now rewrite list_ascii_of_string_of_list_ascii, Hs.
  - destruct w; [contradiction|discriminate].
Qed.

Lemma clean_token (w : list ascii) :
  1 <= length w -> Forall (fun c => isspace c = false) w ->
  clean (Some (l2s w)).
Proof.
  intros L F. apply clean_l2s; [now apply strip_l_token|].
  intros ->. cbn in L. lia.
Qed.

Lemma clean_ends (c : ascii) (m : list ascii) (e : ascii) :
  isspace c = false -> isspace e = false ->
  clean (Some (l2s (c :: m ++ [e]))).
Proof.
  intros Hc He. apply clean_l2s; [now apply strip_l_ends|discriminate].
Qed.

(** Turning the placeholder into null keeps a field clean. *)
Lemma clean_dash (s : string) :
  clean (Some s) -> clean (if String.eqb s "-" then None else Some s).
Proof. intros H. destruct (String.eqb s "-"); [apply clean_none|exact H]. Qed.

Lemma strip_clean (o : option string) :
  clean o -> strip_value (of_option o) = inr (of_option o).
Proof.
  intros H. destruct o as [s|]; [|reflexivity].
  destruct (H s eq_refl) as (Hs & Hn). unfold strip_value, of_option.
  cbn [truthy]. apply String.eqb_neq in Hn. rewrite Hn. cbn [negb].
  now rewrite Hs.
Qed.

Lemma present_clean (k : string) (d : record) (o : option string) :
  clean o -> Dict.get k d = Some (of_option o) -> present k d = o.
Proof.
  intros H G. unfold present. rewrite G.
  destruct o as [s|]; [|reflexivity]. cbn [of_option truthy].
  destruct (H s eq_refl) as (_ & Hn). apply String.eqb_neq in Hn.
  now rewrite Hn.
Qed.

Lemma present_text (k : string) (d : record) (o : option string) :
  Dict.get k d = Some (of_option o) ->
  present k d
  = match o with
    | Some s => if String.eqb s "" then None else Some s
    | None => None
    end.
Proof.
  intros G. unfold present. rewrite G.
  destruct o as [s|]; [|reflexivity]. cbn [of_option truthy].
  now destruct (String.eqb s "").
Qed.

Lemma decimal_not_space (c : ascii) : isdecimal c = true -> isspace c = false.
Proof.
  intros H. apply negb_true_iff.
  apply (Layout.class_within_spec not_space isdecimal c); [|exact H].
  vm_compute; reflexivity.
Qed.

Lemma slice_bracket (ds : list ascii) :
  slice_1_m1 (l2s ("<"%char :: ds ++ [">"%char])) = l2s ds.
Proof.
  unfold slice_1_m1, slice_1_m1_l.
  rewrite list_ascii_of_string_of_list_ascii. cbn [tl].
  now rewrite removelast_last.
Qed.

(** The digits of a priority: at least one, none of them white space. *)
Lemma priority_digits_token (ds : list ascii) :
  priority_digits ds = true ->
  1 <= length ds <= 3 /\ Forall (fun c => isspace c = false) ds.
Proof.
  assert (forall p c, class_within not_space p = true -> p c = true ->
                      isspace c = false) as W.
  { intros p c Hw Hp. apply negb_true_iff.
    exact (Layout.class_within_spec not_space p c Hw Hp). }
  destruct ds as [|a [|b [|c [|? ?]]]]; cbn [priority_digits length];
    try discriminate; intros H.
  - split; [lia|]. repeat constructor. now apply decimal_not_space.
  - apply andb_true_iff in H as (Ha & Hb). split; [lia|].
    repeat constructor; now apply decimal_not_space.
  - apply andb_true_iff in H as (Ha & H). split; [lia|].
    constructor; [apply (W (Ascii.eqb "1") a); [vm_compute; reflexivity|exact Ha]|].
    apply orb_true_iff in H as [H|H]; apply andb_true_iff in H as (Hb & Hc).
    + constructor;
        [apply (W (in_range (code "1") (code "8")) b);
         [vm_compute; reflexivity|exact Hb]|].
      repeat constructor. now apply decimal_not_space.
    + constructor;
        [apply (W (Ascii.eqb "9") b); [vm_compute; reflexivity|exact Hb]|].
      constructor; [|constructor].
      apply (W (mem "01") c); [vm_compute; reflexivity|exact Hc].
Qed.

End Clean.

Section Normalizer.
Variable timestamp : string -> list Z -> res timestamp_obj.
Variable convert_to_int : value -> res (option Z).

(** The normalizer on a record of the nine fields of a matched line. *)
Lemma process_fields (p v t h a pi mi sd msg : option string) :
  clean p -> clean v -> clean t -> clean h -> clean a -> clean pi ->
  clean mi -> clean sd -> (forall m, msg = Some m -> m <> "") ->
  _process timestamp convert_to_int
    [ ("priority", of_option p); ("version", of_option v);
      ("timestamp", of_option t); ("hostname", of_option h);
      ("appname", of_option a); ("proc_id", of_option pi);
      ("msg_id", of_option mi); ("structured_data", of_option sd);
      ("message", of_option msg) ]
  = normalized_fields timestamp convert_to_int p v t h a pi mi sd msg.
Proof.
  intros Cp Cv Ct Ch Ca Cpi Cmi Csd Cmsg.
  unfold _process, normalized_fields.
  cbn [mmap]. unfold strip_entry. cbn [fst snd].
  rewrite !Clean.strip_clean by assumption.
  assert (strip_value (of_option msg)
          = inr (of_option (option_map Py.strip msg))) as ->.
  { destruct msg as [m|]; [|reflexivity].
    specialize (Cmsg m eq_refl). apply String.eqb_neq in Cmsg.
    unfold strip_value. cbn [of_option truthy]. now rewrite Cmsg. }
  cbn [bind ret].
  rewrite (Clean.present_clean "timestamp" _ t) by (assumption || reflexivity).
  set (fixed := fun d : record =>
         match present "message" d with
         | Some m => Dict.set "message" (VStr (fixup_escaped m)) d
         | None => d
         end).
  set (structured := fun d : record =>
         match present "structured_data" d with
         | Some s =>
             Dict.set "structured_data"
               (VList (map struct_of (_extract_structs s))) d
         | None => d
         end).
  set (raw := fun tail : record =>
         [ ("priority", of_option p); ("version", of_option v);
           ("timestamp", of_option t); ("hostname", of_option h);
           ("appname", of_option a); ("proc_id", of_option pi);
           ("msg_id", of_option mi); ("structured_data", of_option sd);
           ("message", of_option (option_map Py.strip msg)) ] ++ tail).
  assert (forall tail,
            structured (fixed (raw tail))
            = [ ("priority", of_option p); ("version", of_option v);
                ("timestamp", of_option t); ("hostname", of_option h);
                ("appname", of_option a); ("proc_id", of_option pi);
                ("msg_id", of_option mi);
                ("structured_data",
                 match sd with
                 | Some s => VList (map struct_of (_extract_structs s))
                 | None => VNone
                 end);
                ("message",
                 match msg with
                 | Some m => VStr (fixup_escaped (Py.strip m))
                 | None => VNone
                 end) ] ++ tail) as Hstages.
  { intros tail. unfold fixed.
    rewrite (Clean.present_text "message" _ (option_map Py.strip msg))
      by reflexivity.
    assert (forall x,
              structured
                ([ ("priority", of_option p); ("version", of_option v);
                   ("timestamp", of_option t); ("hostname", of_option h);
                   ("appname", of_option a); ("proc_id", of_option pi);
                   ("msg_id", of_option mi); ("structured_data", of_option sd);
                   ("message", x) ] ++ tail)
              = [ ("priority", of_option p); ("version", of_option v);
                  ("timestamp", of_option t); ("hostname", of_option h);
                  ("appname", of_option a); ("proc_id", of_option pi);
                  ("msg_id", of_option mi);
                  ("structured_data",
                   match sd with
                   | Some s => VList (map struct_of (_extract_structs s))
                   | None => VNone
                   end);
                  ("message", x) ] ++ tail) as Hsd.
    { intros x. unfold structured.
      rewrite (Clean.present_clean "structured_data" _ sd)
        by (assumption || reflexivity).
      destruct sd; reflexivity. }
    destruct msg as [m|]; cbn [option_map].
    - destruct (String.eqb (Py.strip m) "") eqn:E.
      + unfold raw. cbn [option_map]. rewrite Hsd.
        apply String.eqb_eq in E. rewrite E. reflexivity.
      + change (Dict.set "message" (VStr (fixup_escaped (Py.strip m))) (raw tail))
          with ([ ("priority", of_option p); ("version", of_option v);
                  ("timestamp", of_option t); ("hostname", of_option h);
                  ("appname", of_option a); ("proc_id", of_option pi);
                  ("msg_id", of_option mi); ("structured_data", of_option sd);
                  ("message", VStr (fixup_escaped (Py.strip m))) ] ++ tail).
        now rewrite Hsd.
    - unfold raw. cbn [option_map]. now rewrite Hsd. }
  assert (forall tail : record,
            Forall (fun kv => in_int_list (fst kv) = false) tail ->
            mmap (fun kv : string * value =>
                    if in_int_list (fst kv)
                    then z <- convert_to_int (snd kv) ;; ret (fst kv, of_optionZ z)
                    else ret kv)
                 (structured (fixed (raw tail)))
            = (priority <- convert_to_int (of_option p) ;;
               version <- convert_to_int (of_option v) ;;
               proc_id <- convert_to_int (of_option pi) ;;
               ret ([ ("priority", of_optionZ priority);
                      ("version", of_optionZ version);
                      ("timestamp", of_option t);
                      ("hostname", of_option h);
                      ("appname", of_option a);
                      ("proc_id", of_optionZ proc_id);
                      ("msg_id", of_option mi);
                      ("structured_data",
                       match sd with
                       | Some s => VList (map struct_of (_extract_structs s))
                       | None => VNone
                       end);
                      ("message",
                       match msg with
                       | Some m => VStr (fixup_escaped (Py.strip m))
                       | None => VNone
                       end) ] ++ tail))) as Hints.
  { intros tail Ft. rewrite Hstages.
    assert (mmap (fun kv : string * value =>
                    if in_int_list (fst kv)
                    then z <- convert_to_int (snd kv) ;; ret (fst kv, of_optionZ z)
                    else ret kv) tail = inr tail) as Htail.
    { induction Ft as [|kv tail Hkv _ IH]; [reflexivity|].
      cbn [mmap]. rewrite Hkv, IH. reflexivity. }
    cbn [List.app mmap fst snd].
    change (in_int_list "priority") with true.
    change (in_int_list "version") with true.
    change (in_int_list "timestamp") with false.
    change (in_int_list "hostname") with false.
    change (in_int_list "appname") with false.
    change (in_int_list "proc_id") with true.
    change (in_int_list "msg_id") with false.
    change (in_int_list "structured_data") with false.
    change (in_int_list "message") with false.
    rewrite Htail. cbv beta iota.
    destruct (convert_to_int (of_option p)) as [e|zp]; [reflexivity|].
    cbn [bind ret].
    destruct (convert_to_int (of_option v)) as [e|zv]; [reflexivity|].
    cbn [bind ret].
    destruct (convert_to_int (of_option pi)) as [e|zpi]; reflexivity. }
  fold fixed structured.
  destruct t as [ts|].
  - destruct (timestamp ts [1300; 1310]%Z) as [e|dt]; [reflexivity|].
    cbn [bind ret].
    change (Dict.set "timestamp_epoch_utc" (of_optionZ (utc dt))
              (Dict.set "timestamp_epoch" (of_optionZ (naive dt)) _))
      with (raw [("timestamp_epoch", of_optionZ (naive dt));
                 ("timestamp_epoch_utc", of_optionZ (utc dt))]).
    refine (eq_trans (Hints _ _) _); [repeat constructor|reflexivity].
  - cbn [bind ret].
    change [("priority", of_option p); ("version", of_option v);
            ("timestamp", of_option None); ("hostname", of_option h);
            ("appname", of_option a); ("proc_id", of_option pi);
            ("msg_id", of_option mi); ("structured_data", of_option sd);
            ("message", of_option (option_map Py.strip msg))]
      with (raw []).
    refine (eq_trans (Hints _ _) _); [constructor|reflexivity].
Qed.
End Normalizer.

(** The fields of a matched line are null, or text that stripping leaves
    as it is; the message is null or not empty. *)
Lemma matched_fields_clean (line : string) (st : mstate) :
  re_match syslog line = Some st ->
  clean (raw_priority st)
  /\ clean (syslog_dict st "version")
  /\ clean (syslog_dict st "timestamp")
  /\ clean (syslog_dict st "hostname")
  /\ clean (syslog_dict st "appname")
  /\ clean (syslog_dict st "procid")
  /\ clean (syslog_dict st "msgid")
  /\ clean (syslog_dict st "structureddata")
  /\ (forall m, syslog_dict st "msg" = Some m -> m <> "").
Proof.
  intros H. pose proof (Tokens.syslog_timestamp _ _ H) as Hts.
  apply Layout.syslog_layout in H
    as (pw & vw & ws & ts & c0 & host & c1 & app & c2 & proc & c3 & mid & c4 &
        sd & tw & _ & _ & _ & (Lh & Fh) & (La & Fa) & (Lp & Fp) & (Lm & Fm) &
        Hp & Hv & (Gt & Ft) & (Gh & Ga & Gpr & Gm & Gsd) & Hsd & Hmsg).
  unfold raw_priority, syslog_dict in *.
  rewrite Gh, Ga, Gpr, Gm, Gsd. rewrite Gt in Hts |- *.
  split; [|split; [|split; [|split; [|split; [|split; [|split; [|split]]]]]]].
  - destruct Hp as [(_ & ->) | (-> & ds & -> & Hds)]; [apply Clean.clean_none|].
    match goal with
    | |- context [String.eqb ?x "-"] => destruct (String.eqb x "-")
    end; [apply Clean.clean_none|].
    match goal with
    | |- context [String.eqb ?x ""] => destruct (String.eqb x "")
    end; [apply Clean.clean_none|].
    rewrite Clean.slice_bracket.
    apply Clean.priority_digits_token in Hds as (L & F).
    apply Clean.clean_token; [lia|assumption].
  - destruct Hv as [(_ & ->) | (-> & L & F)]; [apply Clean.clean_none|].
    apply Clean.clean_dash, Clean.clean_token; [lia|].
    eapply Forall_impl; [|exact F]. apply Clean.decimal_not_space.
  - apply Clean.clean_dash.
    destruct ts as [|c t].
    { exfalso. cbn in Hts. destruct Hts as [E|(c & s & E & _)]; discriminate E. }
    apply Clean.clean_token; [cbn; lia|].
    eapply Forall_impl; [|exact Ft]. intros x Hx. now apply negb_true_iff.
  - apply Clean.clean_dash, Clean.clean_token; [lia|assumption].
  - apply Clean.clean_dash, Clean.clean_token; [lia|assumption].
  - apply Clean.clean_dash, Clean.clean_token; [lia|assumption].
  - apply Clean.clean_dash, Clean.clean_token; [lia|assumption].
  - apply Clean.clean_dash.
    destruct Hsd as [-> | (w & c & -> & _)].
    + apply Clean.clean_token; [cbn; lia|]. repeat constructor.
    + change (w ++ [c; "]"%char]) with (w ++ [c] ++ ["]"%char]).
      rewrite app_assoc. apply Clean.clean_ends; reflexivity.
  - intros m.
    destruct Hmsg as [(_ & ->) | (c5 & msg & _ & _ & L & _ & ->)];
      [discriminate|].
    match goal with
    | |- context [String.eqb ?x "-"] => destruct (String.eqb x "-")
    end; [discriminate|].
    intros E. injection E as <-.
    destruct msg; [cbn in L; lia|discriminate].
Qed.

Section Normalized_line.
Variable timestamp : string -> list Z -> res timestamp_obj.
Variable convert_to_int : value -> res (option Z).

Lemma process_matched (line : string) (st : mstate) :
  re_match syslog line = Some st ->
  _process timestamp convert_to_int (matched_line st)
  = normalized timestamp convert_to_int st.
Proof.
  intros H.
  apply matched_fields_clean in H
    as (Cp & Cv & Ct & Ch & Ca & Cpi & Cmi & Csd & Cmsg).
  unfold normalized.
  now rewrite <- process_fields.
Qed.

(** X8. The normalized record of a line the tokenizer matches, field by
    field: the timestamp, the host name, the application name and the
    message id are those of the raw record; the priority, the version and
    the process id are what [convert_to_int] makes of the raw values, null
    included; the structured data is the list of the structures of its
    blocks; the message is stripped and its escapes resolved; the two epoch
    fields come last when the timestamp is not null.  The first helper that
    raises, in the order timestamp, priority, version, process id, gives
    the exception. *)
Theorem normalized_record_of_tokenized_line (line : string) (st : mstate) :
  re_match syslog line = Some st ->
  _process timestamp convert_to_int (matched_line st)
  = normalized timestamp convert_to_int st.
Proof.
  intros H.
  destruct (matched_fields_clean line st H)
    as (Cp & Cv & Ct & Ch & Ca & Cpi & Cmi & Csd & Cmsg).
  unfold normalized.
  rewrite <- (process_fields timestamp convert_to_int) by assumption.
  reflexivity.
Qed.

(** X9. Normalizing the record of a line the tokenizer matches raises only
    what [jc.utils.timestamp] raises on its timestamp or what
    [jc.utils.convert_to_int] raises on its raw priority, version or
    process id; when these four calls return, a record is returned. *)
Theorem tokenized_line_raises_only_from_helpers (line : string) (st : mstate) :
  re_match syslog line = Some st ->
  (forall e,
     _process timestamp convert_to_int (matched_line st) = inl e ->
     (exists ts, syslog_dict st "timestamp" = Some ts
                 /\ timestamp ts [1300; 1310]%Z = inl e)
     \/ convert_to_int (of_option (raw_priority st)) = inl e
     \/ convert_to_int (of_option (syslog_dict st "version")) = inl e
     \/ convert_to_int (of_option (syslog_dict st "procid")) = inl e)
  /\ ((forall ts, syslog_dict st "timestamp" = Some ts ->
                  exists dt, timestamp ts [1300; 1310]%Z = inr dt) ->
      (exists z, convert_to_int (of_option (raw_priority st)) = inr z) ->
      (exists z, convert_to_int (of_option (syslog_dict st "version")) = inr z) ->
      (exists z, convert_to_int (of_option (syslog_dict st "procid")) = inr z) ->
      exists r, _process timestamp convert_to_int (matched_line st) = inr r).
Proof.
  intros H. rewrite (process_matched line st H).
  unfold normalized, normalized_fields. split.
  - intros e.
    destruct (syslog_dict st "timestamp") as [ts|].
    + destruct (timestamp ts [1300; 1310]%Z) as [e'|dt] eqn:Et; cbn [bind ret].
      * intros E. injection E as ->. left. eauto.
      * destruct (convert_to_int (of_option (raw_priority st))) as [e1|z1];
          cbn [bind]; [intros E; injection E as ->; auto|].
        destruct (convert_to_int (of_option (syslog_dict st "version")))
          as [e2|z2]; cbn [bind]; [intros E; injection E as ->; auto|].
        destruct (convert_to_int (of_option (syslog_dict st "procid")))
          as [e3|z3]; cbn [bind]; [intros E; injection E as ->; auto|].
        discriminate.
    + cbn [bind ret].
      destruct (convert_to_int (of_option (raw_priority st))) as [e1|z1];
        cbn [bind]; [intros E; injection E as ->; auto|].
      destruct (convert_to_int (of_option (syslog_dict st "version")))
        as [e2|z2]; cbn [bind]; [intros E; injection E as ->; auto|].
      destruct (convert_to_int (of_option (syslog_dict st "procid")))
        as [e3|z3]; cbn [bind]; [intros E; injection E as ->; auto|].
      discriminate.
  - intros Ht (z1 & E1) (z2 & E2) (z3 & E3). rewrite E1, E2, E3.
    destruct (syslog_dict st "timestamp") as [ts|].
    + destruct (Ht ts eq_refl) as (dt & Et). rewrite Et.
      cbn [bind ret]. eauto.
    + cbn [bind ret]. eauto.
Qed.

End Normalized_line.

Lemma normalized_record_of_tokenized_line_witness :
  re_match syslog scenario_sd = Some scenario_sd_match
  /\ _process (Utils.timestamp (fun _ => 0%Z)) Utils.convert_to_int
              (matched_line scenario_sd_match)
     = normalized (Utils.timestamp (fun _ => 0%Z)) Utils.convert_to_int
                  scenario_sd_match.
Proof.
  split; [vm_compute; reflexivity|].
  apply (normalized_record_of_tokenized_line
           (Utils.timestamp (fun _ => 0%Z)) Utils.convert_to_int
           scenario_sd scenario_sd_match).
  vm_compute; reflexivity.
Defined.

Lemma tokenized_line_raises_only_from_helpers_witness :
  re_match syslog scenario_a = Some scenario_a_match
  /\ exists r,
       _process (Utils.timestamp (fun _ => 0%Z)) Utils.convert_to_int
                (matched_line scenario_a_match) = inr r.
Proof.
  split; [vm_compute; reflexivity|].
  apply (tokenized_line_raises_only_from_helpers
           (Utils.timestamp (fun _ => 0%Z)) Utils.convert_to_int
           scenario_a scenario_a_match).
  - vm_compute; reflexivity.
  - intros ts E. vm_compute in E. injection E as <-.
    eexists. vm_compute. reflexivity.
  - eexists. vm_compute. reflexivity.
  - eexists. vm_compute. reflexivity.
  - eexists. vm_compute. reflexivity.
Defined.

(** ** The priority the tokenizer reports *)

Module Priority.
Import Py.

Lemma in_range_spec (lo hi : N) (c : ascii) :
  in_range lo hi c = true -> (lo <= code c <= hi)%N.
Proof.
  unfold in_range. intros H. apply andb_true_iff in H as (H1 & H2).
  apply N.leb_le in H1, H2. auto.
Qed.

Lemma decimal_value (c : ascii) : isdecimal c = true -> digit_value c <= 9.
Proof. intros H. apply in_range_spec in H. unfold digit_value. lia. Qed.

(** The digits between the brackets of a priority write a number up to
    191, and from 110 on when there are three of them. *)
Lemma priority_digits_value (ds : list ascii) :
  priority_digits ds = true ->
  Forall (fun c => isdecimal c = true) ds
  /\ 1 <= length ds <= 3
  /\ digits_value ds <= 191
  /\ (length ds = 3 -> 110 <= digits_value ds).
Proof.
  destruct ds as [|a [|b [|c [|? ?]]]]; cbn [priority_digits length];
    try discriminate; intros H; unfold digits_value; cbn [fold_left].
  - pose proof (decimal_value a H). repeat split; try lia. auto.
  - apply andb_true_iff in H as (Ha & Hb).
    pose proof (decimal_value a Ha). pose proof (decimal_value b Hb).
    repeat split; try lia. auto.
  - apply andb_true_iff in H as (Ha & H). apply Ascii.eqb_eq in Ha. subst a.
    change (digit_value "1") with 1.
    apply orb_true_iff in H as [H|H]; apply andb_true_iff in H as (Hb & Hc).
    + pose proof (decimal_value c Hc) as Vc.
      assert (isdecimal b = true) as Db.
      { apply in_range_spec in Hb. unfold isdecimal, in_range.
        change (code "1") with 49%N in Hb. change (code "8") with 56%N in Hb.
        apply andb_true_iff. split; apply N.leb_le; lia. }
      assert (1 <= digit_value b <= 8) as Vb.
      { apply in_range_spec in Hb. unfold digit_value.
        change (code "1") with 49%N in Hb. change (code "8") with 56%N in Hb.
        lia. }
      repeat split; try lia. repeat constructor; assumption.
    + apply Ascii.eqb_eq in Hb. subst b. change (digit_value "9") with 9.
      assert (c = "0"%char \/ c = "1"%char) as [-> | ->].
      { unfold mem in Hc. cbn [s2l existsb] in Hc.
        apply orb_true_iff in Hc as [Hc|Hc]; [left; now apply Ascii.eqb_eq|].
        apply orb_true_iff in Hc as [Hc|Hc]; [right; now apply Ascii.eqb_eq|].
        discriminate. }
      * change (digit_value "0") with 0. repeat split; try lia.
        repeat constructor.
      * change (digit_value "1") with 1. repeat split; try lia.
        repeat constructor.
Qed.

End Priority.

(** X10. The raw priority of a line the tokenizer matches, when it is not
    null, is a text of one to three decimal digits that writes a number up
    to 191; a text of three digits writes 110 at least, so that no
    priority from 100 to 109 is ever reported. *)
Theorem reported_priority_in_range (line : string) (st : mstate) (p : string) :
  re_match syslog line = Some st ->
  Dict.get "priority" (matched_line st) = Some (VStr p) ->
  Forall (fun c => Py.isdecimal c = true) (s2l p)
  /\ 1 <= String.length p <= 3
  /\ digits_value (s2l p) <= 191
  /\ (String.length p = 3 -> 110 <= digits_value (s2l p)).
Proof.
  intros H. apply Layout.syslog_layout in H
    as (pw & vw & ws & ts & c0 & host & c1 & app & c2 & proc & c3 & mid & c4 &
        sd & tw & _ & _ & _ & _ & _ & _ & _ & Hp & _).
  change (Dict.get "priority" (matched_line st))
    with (Some (of_option (raw_priority st))).
  unfold raw_priority, syslog_dict.
  destruct Hp as [(_ & ->) | (-> & ds & -> & Hds)]; [discriminate|].
  match goal with
  | |- context [String.eqb ?x "-"] => destruct (String.eqb x "-")
  end; [discriminate|].
  match goal with
  | |- context [String.eqb ?x ""] => destruct (String.eqb x "")
  end; [discriminate|].
  rewrite Clean.slice_bracket. cbn [of_option]. intros E. injection E as <-.
  rewrite list_ascii_of_string_of_list_ascii, length_l2s.
  now apply Priority.priority_digits_value.
Qed.

Lemma reported_priority_in_range_witness :
  re_match syslog scenario_a = Some scenario_a_match
  /\ Dict.get "priority" (matched_line scenario_a_match) = Some (VStr "165")
  /\ Forall (fun c => Py.isdecimal c = true) (s2l "165")
  /\ 1 <= String.length "165" <= 3
  /\ digits_value (s2l "165") <= 191
  /\ (String.length "165" = 3 -> 110 <= digits_value (s2l "165")).
Proof.
  split; [vm_compute; reflexivity|]. split; [vm_compute; reflexivity|].
  apply (reported_priority_in_range scenario_a scenario_a_match "165");
    vm_compute; reflexivity.
Defined.

(** ** Escapes *)

Module Escapes.
Import Py.

Lemma replace_l_no_head (b : ascii) (old new l : list ascii) :
  ~ In b l -> replace_l (b :: old) new 0 l = l.
Proof.
  induction l as [|c t IH]; intros H; [reflexivity|].
  cbn [replace_l prefixb].
  assert (Ascii.eqb b c = false) as ->.
  { apply Ascii.eqb_neq. intros ->. apply H. now left. }
  cbn [andb]. rewrite IH; [reflexivity|]. intros Hin. apply H. now right.
Qed.

Lemma fixup_escaped_lists (s : string) :
  fixup_escaped s
  = l2s (replace_l ["\"%char; "]"%char] ["]"%char] 0
           (replace_l ["\"%char; "034"%char] ["034"%char] 0
              (replace_l ["\"%char; "\"%char] ["\"%char] 0 (s2l s)))).
Proof.
  unfold fixup_escaped, escape_map. cbn [fold_left fst snd]. unfold replace.
  now rewrite !list_ascii_of_string_of_list_ascii.
Qed.

(** Where the text has no backslash after a backslash, the first
    replacement finds nothing. *)
Lemma replace_double (l : list ascii) :
  no_double_backslash l = true ->
  replace_l ["\"%char; "\"%char] ["\"%char] 0 l = l.
Proof.
  induction l as [|c t IH]; [reflexivity|].
  cbn [no_double_backslash replace_l prefixb]. intros H.
  apply andb_true_iff in H as (H & Ht). rewrite (IH Ht).
  destruct (Ascii.eqb_spec "\"%char c) as [<-|Hc]; [|reflexivity].
  rewrite Ascii.eqb_refl in H. cbn [andb] in H |- *.
  destruct t as [|e t']; [reflexivity|].
  rewrite Ascii.eqb_sym in H. apply negb_true_iff in H. now rewrite H.
Qed.

Lemma resolve_other (c : ascii) (t : list ascii) :
  c <> "\"%char -> resolve_escapes_l (c :: t) = c :: resolve_escapes_l t.
Proof.
  intros H. cbn [resolve_escapes_l]. apply Ascii.eqb_neq in H. rewrite H.
  now destruct t.
Qed.

Lemma replace_other (o n : ascii) (c : ascii) (t : list ascii) :
  c <> "\"%char ->
  replace_l ["\"%char; o] [n] 0 (c :: t)
  = c :: replace_l ["\"%char; o] [n] 0 t.
Proof.
  intros H. cbn [replace_l prefixb].
  assert (Ascii.eqb "\" c = false) as -> by (apply Ascii.eqb_neq; congruence).
  reflexivity.
Qed.

Lemma no_double_tail (c : ascii) (t : list ascii) :
  no_double_backslash (c :: t) = true -> no_double_backslash t = true.
Proof.
  cbn [no_double_backslash]. intros H. now apply andb_true_iff in H as (_ & H).
Qed.

(** The second and third replacements resolve the escapes of a quote and
    of a closing bracket, one by one, where no backslash follows a
    backslash. *)
Lemma replace_single (n : nat) :
  forall l, length l <= n -> no_double_backslash l = true ->
    replace_l ["\"%char; "]"%char] ["]"%char] 0
      (replace_l ["\"%char; "034"%char] ["034"%char] 0 l)
    = resolve_escapes_l l.
Proof.
  induction n as [|n IH]; intros l L H.
  - destruct l; [reflexivity|cbn in L; lia].
  - destruct l as [|c t]; [reflexivity|]. cbn [length] in L.
    pose proof (no_double_tail _ _ H) as Ht.
    destruct (Ascii.eqb_spec c "\"%char) as [->|Hc].
    + destruct t as [|e t'].
      { reflexivity. }
      cbn [length] in L. pose proof (no_double_tail _ _ Ht) as Ht'.
      assert (e <> "\"%char) as He.
      { cbn [no_double_backslash] in H. apply andb_true_iff in H as (H & _).
        rewrite Ascii.eqb_refl in H. cbn [andb] in H.
        apply negb_true_iff in H. now apply Ascii.eqb_neq. }
      destruct (Ascii.eqb_spec e "034"%char) as [->|Hq].
      { change (replace_l ["\"%char; "034"%char] ["034"%char] 0
                  ("\"%char :: "034"%char :: t'))
          with ("034"%char :: replace_l ["\"%char; "034"%char] ["034"%char] 0 t').
        rewrite replace_other by discriminate.
        rewrite IH by (assumption || lia). reflexivity. }
      destruct (Ascii.eqb_spec e "]"%char) as [->|Hb].
      { change (replace_l ["\"%char; "034"%char] ["034"%char] 0
                  ("\"%char :: "]"%char :: t'))
          with ("\"%char :: "]"%char
                :: replace_l ["\"%char; "034"%char] ["034"%char] 0 t').
        change (replace_l ["\"%char; "]"%char] ["]"%char] 0
                  ("\"%char :: "]"%char :: ?x))
          with ("]"%char :: replace_l ["\"%char; "]"%char] ["]"%char] 0 x).
        rewrite IH by (assumption || lia). reflexivity. }
      assert (forall o n' x,
                e <> o ->
                replace_l ["\"%char; o] [n'] 0 ("\"%char :: e :: x)
                = "\"%char :: e :: replace_l ["\"%char; o] [n'] 0 x) as Hstep.
      { intros o n' x Ho. cbn [replace_l prefixb]. rewrite Ascii.eqb_refl.
        assert (Ascii.eqb o e = false) as ->
            by (apply Ascii.eqb_neq; congruence).
        assert (Ascii.eqb "\" e = false) as ->
            by (apply Ascii.eqb_neq; congruence).
        reflexivity. }
      rewrite Hstep by assumption. rewrite Hstep by assumption.
      rewrite IH by (assumption || lia).
      cbn [resolve_escapes_l]. rewrite Ascii.eqb_refl.
      apply Ascii.eqb_neq in He, Hq, Hb. rewrite He, Hq, Hb. cbn [andb orb].
      destruct t'; reflexivity.
    + rewrite replace_other by assumption.
      rewrite replace_other by assumption.
      rewrite resolve_other by assumption.
      rewrite IH by (assumption || lia). reflexivity.
Qed.

End Escapes.

(** X11. A text without a backslash has no escape to resolve:
    [fixup_escaped] returns it as it is. *)
Theorem fixup_escaped_without_backslash (s : string) :
  ~ In "\"%char (s2l s) -> fixup_escaped s = s.
Proof.
  intros H. rewrite Escapes.fixup_escaped_lists.
  do 3 rewrite (Escapes.replace_l_no_head _ _ _ (s2l s)) by assumption.
  apply string_of_list_ascii_of_string.
Qed.

Lemma fixup_escaped_without_backslash_witness :
  ~ In "\"%char (s2l "su root failed [x]")
  /\ fixup_escaped "su root failed [x]" = "su root failed [x]".
Proof.
  assert (~ In "\"%char (s2l "su root failed [x]")) as H.
  { cbn [s2l In]. intros H.
    repeat (destruct H as [H|H]; [discriminate H|]). exact H. }
  split; [exact H|].
  exact (fixup_escaped_without_backslash "su root failed [x]" H).
Defined.

(** X12. Where no backslash follows a backslash, [fixup_escaped] resolves
    every escape once, left to right: a backslash before a quote or a
    closing bracket is dropped, and every other character is kept. *)
Theorem fixup_escaped_single_escapes (s : string) :
  no_double_backslash (s2l s) = true ->
  fixup_escaped s = resolve_escapes s.
Proof.
  intros H. rewrite Escapes.fixup_escaped_lists.
  rewrite Escapes.replace_double by assumption.
  unfold resolve_escapes. f_equal.
  now apply (Escapes.replace_single (length (s2l s))).
Qed.

Lemma fixup_escaped_single_escapes_witness :
  no_double_backslash (s2l "a\]b\xc") = true
  /\ fixup_escaped "a\]b\xc" = resolve_escapes "a\]b\xc".
Proof.
  split; [vm_compute; reflexivity|].
  apply (fixup_escaped_single_escapes "a\]b\xc"). vm_compute; reflexivity.
Defined.

(** ** Structured data *)

Module Pieces.
Import Runs ReFacts.

(** The matches [finditer] reports are pieces of the subject, left to
    right, with gaps between them. *)
Lemma finditer_pieces (r : regex) (T : mstate -> list ascii) :
  (forall bef aft st,
      match_here r (MState bef aft []) = Some st ->
      exists w, w <> [] /\ aft = w ++ after st
                /\ length (before st) = length w + length bef /\ T st = w) ->
  forall aft skip bef,
    skip <= length aft ->
    exists gaps,
      length gaps = S (length (finditer_from r skip bef aft))
      /\ skipn skip aft
         = interleave_l gaps (map T (finditer_from r skip bef aft)).
Proof.
  intros HT. induction aft as [|c rest IH]; intros skip bef L.
  - cbn [length] in L. assert (skip = 0) as -> by lia. cbn [finditer_from].
    destruct (match_here r (MState bef [] [])) as [st|] eqn:E.
    + apply HT in E as (w & Hw & A & _). destruct w; [contradiction|discriminate].
    + exists [[]]. split; reflexivity.
  - destruct skip as [|k]; cbn [finditer_from].
    + destruct (match_here r (MState bef (c :: rest) [])) as [st|] eqn:E.
      * apply HT in E as (w & Hw & A & B & Tw).
        destruct w as [|c' w']; [contradiction|].
        cbn [List.app] in A. injection A as <- A.
        rewrite B. cbn [length].
        replace (S (length w') + length bef - length bef - 1)
          with (length w') by lia.
        destruct (IH (length w') (c :: bef)) as (gaps & Lg & Hg).
        { rewrite A, length_app. lia. }
        exists ([] :: gaps). split; [cbn [length map]; now rewrite Lg|].
        cbn [skipn map interleave_l List.app]. rewrite Tw.
        remember (map T (finditer_from r (length w') (c :: bef) rest)) as ts.
        clear Heqts. rewrite <- Hg. rewrite A.
        rewrite skipn_app, skipn_all, Nat.sub_diag. reflexivity.
      * destruct (IH 0 (c :: bef)) as (gaps & Lg & Hg); [lia|].
        destruct gaps as [|g gaps]; [discriminate Lg|].
        exists ((c :: g) :: gaps). split; [exact Lg|].
        remember (map T (finditer_from r 0 (c :: bef) rest)) as ts.
        clear Heqts. cbn [skipn] in Hg |- *. rewrite Hg.
        destruct ts; reflexivity.
    + cbn [length] in L. destruct (IH k (c :: bef)) as (gaps & Lg & Hg); [lia|].
      exists gaps. split; [exact Lg|]. exact Hg.
Qed.

Lemma struct_match_piece bef aft st :
  match_here struct_match (MState bef aft []) = Some st ->
  exists w, w <> [] /\ aft = w ++ after st
            /\ length (before st) = length w + length bef
            /\ s2l (group_or_empty st "eachstruct") = w.
Proof.
  unfold match_here. cbn [before after]. intros H.
  apply m_sound in H as (st' & H & E). injection E as ->.
  change struct_match with (Group "eachstruct" TokenParts.block) in H.
  cbn [Run] in H. destruct H as (s1 & H & ->).
  apply Structs.block_text in H as (w & c & M & _).
  exists ("["%char :: w ++ [c; "]"%char]).
  split; [discriminate|].
  unfold group_or_empty. rewrite Structs.group_close.
  rewrite (moved_consumed _ _ _ _ M).
  destruct M as (B & A & _). cbn [before after close_group] in *.
  split; [exact A|]. split.
  - rewrite B, length_app, length_rev. reflexivity.
  - apply list_ascii_of_string_of_list_ascii.
Qed.

End Pieces.

(** X13. The entries [_extract_structs] returns are pieces of its argument,
    in the order of the text and without overlap: the argument is a gap, the
    first entry, a gap, the second entry, and so on to the last gap. *)
Theorem extract_structs_pieces (structs_string : string) :
  exists gaps : list string,
    length gaps = S (length (_extract_structs structs_string))
    /\ structs_string = interleave gaps (_extract_structs structs_string).
Proof.
  destruct (Pieces.finditer_pieces struct_match
              (fun st => s2l (group_or_empty st "eachstruct"))
              Pieces.struct_match_piece (s2l structs_string) 0 [])
    as (gaps & L & H); [lia|].
  exists (map l2s gaps). unfold _extract_structs, finditer, interleave.
  rewrite !length_map in *. split; [exact L|].
  rewrite !map_map.
  rewrite (map_ext (fun x => s2l (l2s x)) (fun x => x))
    by apply list_ascii_of_string_of_list_ascii.
  rewrite map_id. cbn [skipn] in H. rewrite <- H.
  symmetry. apply string_of_list_ascii_of_string.
Qed.

Module Found.
Import Runs ReFacts.

(** A match of [ident]: an opening bracket, the identity, a white-space
    character. *)
Lemma ident_match bef aft st :
  match_here ident (MState bef aft []) = Some st ->
  exists w c,
    aft = "["%char :: w ++ c :: after st
    /\ group st "ident" = Some (l2s w)
    /\ Py.isspace c = true /\ 1 <= length w <= 32
    /\ Forall (fun x => ident_char x = true) w.
Proof.
  unfold match_here. cbn [before after]. intros H.
  apply m_sound in H as (st' & H & E). injection E as ->.
  unfold ident in H. cbn [Run] in H.
  destruct H as (s1 & Ho & s2 & Hi & Hs).
  apply Run_Cls in Ho as (o & Mo & Eo). apply Ascii.eqb_eq in Eo. subst o.
  apply (Layout.class_group_run "ident" 1 32 ident_char) in Hi
    as (w & Mi & L & F).
  apply (Run_Cls Py.isspace) in Hs as (c & Mc & Ec).
  pose proof (moved_trans _ _ _ _ _ _ _ Mo (moved_trans _ _ _ _ _ _ _ Mi Mc))
    as (_ & A & C).
  cbn [after caps List.app] in A, C. rewrite <- app_assoc in A.
  exists w, c. split; [exact A|]. split; [|auto].
  rewrite Layout.group_lookup, C. apply Layout.lookup_here.
Qed.

(** A match of [key_vals]: a key, the sign, and a text between quotes. *)
Lemma key_vals_match bef aft st :
  match_here key_vals (MState bef aft []) = Some st ->
  exists k body,
    aft = k ++ "="%char :: "034"%char :: body ++ "034"%char :: after st
    /\ group st "key" = Some (l2s k)
    /\ group st "val" = Some (l2s ("034"%char :: body ++ ["034"%char]))
    /\ 1 <= length k /\ Forall (fun x => is_word x = true) k
    /\ ~ In "034"%char body.
Proof.
  unfold match_here. cbn [before after]. intros H.
  apply m_sound in H as (st' & H & E). injection E as ->.
  unfold key_vals in H. cbn [Run] in H.
  destruct H as (s1 & (s0 & Hk & ->) & s2 & He & s3 & Hv & ->).
  destruct Hk as (n & Hn & Hk).
  apply (iter_Cls is_word) in Hk as (k & Mk & Lk & Fk).
  pose proof (Tokens.moved_close "key" _ _ _ _ Mk) as Mk'.
  rewrite (moved_consumed _ _ _ _ Mk) in Mk'. clear Mk.
  apply Run_Cls in He as (e & Me & Ee). apply Ascii.eqb_eq in Ee. subst e.
  destruct Hv as (s4 & Hq & s5 & Hb & Hq').
  apply Run_Cls in Hq as (q & Mq & Eq). apply Ascii.eqb_eq in Eq. subst q.
  destruct Hb as (j & _ & Hb).
  apply (iter_Cls (fun c => negb (Ascii.eqb c "034"))) in Hb
    as (body & Mb & _ & Fb).
  apply Run_Cls in Hq' as (q & Mq' & Eq). apply Ascii.eqb_eq in Eq. subst q.
  pose proof (moved_trans _ _ _ _ _ _ _ Mq (moved_trans _ _ _ _ _ _ _ Mb Mq'))
    as Mv.
  cbn [List.app] in Mv.
  pose proof (Tokens.moved_close "val" _ _ _ _ Mv) as Mv'.
  rewrite (moved_consumed _ _ _ _ Mv) in Mv'. clear Mv.
  pose proof (moved_trans _ _ _ _ _ _ _ Mk' (moved_trans _ _ _ _ _ _ _ Me Mv'))
    as (_ & A & C).
  cbn [after caps List.app] in A, C.
  repeat (rewrite <- app_assoc in A || rewrite <- app_comm_cons in A).
  cbn [List.app] in A.
  exists k, body. split; [exact A|].
  rewrite !Layout.group_lookup, C.
  split; [rewrite Layout.lookup_next by reflexivity; apply Layout.lookup_here|].
  split; [apply Layout.lookup_here|].
  split; [lia|]. split; [exact Fk|].
  intros Hin. rewrite Forall_forall in Fb. specialize (Fb _ Hin).
  now rewrite Ascii.eqb_refl in Fb.
Qed.

Lemma position (bef aft : list ascii) (s : string) :
  rev bef ++ aft = s2l s -> s = (l2s (rev bef) ++ l2s aft)%string.
Proof.
  intros H. rewrite <- l2s_app, H. symmetry.
  apply string_of_list_ascii_of_string.
Qed.

End Found.

(** X14. An identity [_extract_ident] returns stands in its argument
    between an opening bracket and a white-space character; it has from 1
    to 32 characters, none of them an opening or closing bracket, an equals
    sign, a double quote or a space. *)
Theorem extract_ident_found (struct_string i : string) :
  _extract_ident struct_string = Some i ->
  exists (pre post : string) (c : ascii),
    struct_string = (pre ++ "[" ++ i ++ String c post)%string
    /\ Py.isspace c = true
    /\ 1 <= String.length i <= 32
    /\ Forall (fun x => ident_char x = true) (s2l i).
Proof.
  unfold _extract_ident, re_search.
  destruct (search_from ident [] (s2l struct_string)) as [st|] eqn:E;
    [|discriminate].
  apply Idents.search_from_some in E as (bef & aft & Hpos & Hm).
  apply Found.ident_match in Hm as (w & c & A & G & Ec & L & F).
  rewrite G. intros H. injection H as <-.
  exists (l2s (rev bef)), (l2s (after st)), c.
  split; [|split; [exact Ec|split]].
  - cbn [rev List.app] in Hpos. rewrite (Found.position _ _ _ Hpos), A.
    f_equal. cbn [string_of_list_ascii]. rewrite l2s_app. reflexivity.
  - now rewrite length_l2s.
  - now rewrite list_ascii_of_string_of_list_ascii.
Qed.

Lemma extract_ident_found_witness :
  _extract_ident "[exampleSDID@32473 iut=3]" = Some "exampleSDID@32473"
  /\ exists (pre post : string) (c : ascii),
       "[exampleSDID@32473 iut=3]"
       = (pre ++ "[" ++ "exampleSDID@32473" ++ String c post)%string
       /\ Py.isspace c = true
       /\ 1 <= String.length "exampleSDID@32473" <= 32
       /\ Forall (fun x => ident_char x = true) (s2l "exampleSDID@32473").
Proof.
  split; [vm_compute; reflexivity|].
  apply (extract_ident_found "[exampleSDID@32473 iut=3]" "exampleSDID@32473").
  vm_compute; reflexivity.
Defined.

(** X15. Every dictionary [_extract_kv] returns has one entry.  Its key is
    a non-empty run of word characters that stands in the argument before
    an equals sign and a text between double quotes with no double quote
    inside; its value is that quoted text with its escapes resolved and its
    first and last characters removed. *)
Theorem extract_kv_found (struct_string : string) (d : Dict.t string) :
  In d (_extract_kv struct_string) ->
  exists (pre post key body : string),
    struct_string
    = (pre ++ key ++ "=" ++ dquote ++ body ++ dquote ++ post)%string
    /\ d = [(key, Py.slice_1_m1 (fixup_escaped (dquote ++ body ++ dquote)))]
    /\ 1 <= String.length key
    /\ Forall (fun x => is_word x = true) (s2l key)
    /\ ~ In "034"%char (s2l body).
Proof.
  unfold _extract_kv, finditer. intros H.
  apply in_map_iff in H as (st & <- & H).
  apply Idents.finditer_from_some in H as (bef & aft & Hpos & Hm).
  apply Found.key_vals_match in Hm as (k & body & A & Gk & Gv & L & F & Hq).
  exists (l2s (rev bef)), (l2s (after st)), (l2s k), (l2s body).
  unfold group_or_empty. rewrite Gk, Gv.
  split; [|split; [|split; [|split]]].
  - cbn [rev List.app] in Hpos. rewrite (Found.position _ _ _ Hpos), A.
    f_equal. rewrite l2s_app. f_equal.
    cbn [string_of_list_ascii]. rewrite l2s_app. reflexivity.
  - do 3 f_equal. cbn [string_of_list_ascii]. rewrite l2s_app. reflexivity.
  - now rewrite length_l2s.
  - now rewrite list_ascii_of_string_of_list_ascii.
  - now rewrite list_ascii_of_string_of_list_ascii.
Qed.

Lemma extract_kv_found_witness :
  In [("iut", "3")] (_extract_kv ("[id iut=" ++ dquote ++ "3" ++ dquote ++ "]"))
  /\ exists (pre post key body : string),
       ("[id iut=" ++ dquote ++ "3" ++ dquote ++ "]")%string
       = (pre ++ key ++ "=" ++ dquote ++ body ++ dquote ++ post)%string
       /\ [("iut", "3")]
          = [(key, Py.slice_1_m1 (fixup_escaped (dquote ++ body ++ dquote)))]
       /\ 1 <= String.length key
       /\ Forall (fun x => is_word x = true) (s2l key)
       /\ ~ In "034"%char (s2l body).
Proof.
  split; [vm_compute; left; reflexivity|].
  apply (extract_kv_found ("[id iut=" ++ dquote ++ "3" ++ dquote ++ "]")
           [("iut", "3")]).
  vm_compute; left; reflexivity.
Defined.

(** ** The parameters of a structure *)

Module Updates.

Lemma get_set {V : Type} (k k' : string) (v : V) (d : Dict.t V) :
  Dict.get k (Dict.set k' v d)
  = if String.eqb k' k then Some v else Dict.get k d.
Proof.
  induction d as [|[k0 v0] d IH]; cbn [Dict.set Dict.get]; [reflexivity|].
  destruct (String.eqb_spec k0 k') as [->|Hn]; cbn [Dict.get].
  - now destruct (String.eqb k' k).
  - rewrite IH. destruct (String.eqb_spec k0 k) as [->|Hk]; [|reflexivity].
    apply String.eqb_neq in Hn. rewrite String.eqb_sym in Hn. now rewrite Hn.
Qed.

Lemma get_app {V : Type} (k : string) (a b : Dict.t V) :
  Dict.get k (a ++ b)
  = match Dict.get k a with
    | Some v => Some v
    | None => Dict.get k b
    end.
Proof.
  induction a as [|[k0 v0] a IH]; cbn [List.app Dict.get]; [reflexivity|].
  now destruct (String.eqb k0 k).
Qed.

Lemma get_update {V : Type} (k : string) (e d : Dict.t V) :
  Dict.get k (Dict.update d e)
  = match Dict.get k (rev e) with
    | Some v => Some v
    | None => Dict.get k d
    end.
Proof.
  unfold Dict.update. revert d.
  induction e as [|[k1 v1] e IH]; intros d; cbn [fold_left rev fst snd];
    [reflexivity|].
  rewrite IH, get_app, get_set. cbn [Dict.get].
  destruct (Dict.get k (rev e)); [reflexivity|].
  now destruct (String.eqb k1 k).
Qed.

Lemma get_updates {V : Type} (k : string) (ds : list (Dict.t V)) :
  forall acc,
    Dict.get k (fold_left Dict.update ds acc)
    = match Dict.get k (rev (concat ds)) with
      | Some v => Some v
      | None => Dict.get k acc
      end.
Proof.
  induction ds as [|d ds IH]; intros acc; cbn [fold_left concat];
    [reflexivity|].
  rewrite IH, rev_app_distr, get_app, get_update.
  destruct (Dict.get k (rev (concat ds))); reflexivity.
Qed.

Lemma add_key_nodup (k : string) (ks : list string) :
  NoDup ks -> NoDup (add_key k ks).
Proof.
  intros H. unfold add_key.
  destruct (existsb (fun k' => String.eqb k' k) ks) eqn:E; [exact H|].
  apply NoDup_app; [exact H|repeat constructor; intros []|].
  intros x Hx [->|[]].
  assert (existsb (fun k' => String.eqb k' x) ks = true) as E'.
  { apply existsb_exists. exists x. split; [exact Hx|apply String.eqb_refl]. }
  congruence.
Qed.

Lemma update_nodup {V : Type} (e : Dict.t V) :
  forall d, NoDup (Dict.keys d) -> NoDup (Dict.keys (Dict.update d e)).
Proof.
  unfold Dict.update.
  induction e as [|[k v] e IH]; intros d H; cbn [fold_left fst snd];
    [exact H|].
  apply IH. rewrite DictFacts.keys_set. now apply add_key_nodup.
Qed.

Lemma updates_nodup {V : Type} (ds : list (Dict.t V)) :
  forall acc, NoDup (Dict.keys acc) ->
              NoDup (Dict.keys (fold_left Dict.update ds acc)).
Proof.
  induction ds as [|d ds IH]; intros acc H; cbn [fold_left]; [exact H|].
  apply IH. now apply update_nodup.
Qed.

End Updates.

(** X16. In the parameters of a structure every key appears once, and its
    value is the one of the last pair with that key in the structure: a
    repeated key overwrites the earlier value. *)
Theorem parameters_last_value_wins (a_struct : string) :
  NoDup (Dict.keys (parameters (struct_of a_struct)))
  /\ forall k : string,
       Dict.get k (parameters (struct_of a_struct))
       = Dict.get k (rev (concat (_extract_kv a_struct))).
Proof.
  unfold struct_of. cbn [parameters]. split.
  - apply Updates.updates_nodup. constructor.
  - intros k. rewrite Updates.get_updates.
    now destruct (Dict.get k (rev (concat (_extract_kv a_struct)))).
Qed.

(** ** A tokenized line, end to end *)

Module NotBlank.
Import Py.

Lemma lstrip_l_spaces (l : list ascii) :
  Forall (fun c => isspace c = true) l -> lstrip_l l = [].
Proof.
  induction 1 as [|c l Hc _ IH]; [reflexivity|].
  cbn [lstrip_l]. now rewrite Hc.
Qed.

Lemma strip_l_nil (l : list ascii) :
  strip_l l = [] -> Forall (fun c => isspace c = true) l.
Proof.
  unfold strip_l, rstrip_l. intros H.
  apply (f_equal (@rev ascii)) in H. rewrite rev_involutive in H.
  cbn [rev] in H. apply StripFacts.lstrip_l_nil in H.
  apply Forall_rev in H. rewrite rev_involutive in H.
  apply lstrip_l_spaces in H. rewrite StripFacts.lstrip_l_idem in H.
  now apply StripFacts.lstrip_l_nil.
Qed.

(** A line the tokenizer matches is not blank. *)
Lemma matched_not_blank (line : string) (st : mstate) :
  re_match syslog line = Some st -> String.eqb (strip line) "" = false.
Proof.
  intros H. apply Layout.syslog_layout in H
    as (pw & vw & ws & ts & c0 & host & c1 & app & c2 & proc & c3 & mid & c4 &
        sd & tw & A & _ & _ & (Lh & Fh) & _).
  apply String.eqb_neq. intros E. unfold strip in E.
  assert (strip_l (s2l line) = []) as E'.
  { apply l2s_inj. exact E. }
  apply strip_l_nil in E'. rewrite A in E'.
  repeat (apply Forall_app in E' as (_ & E')).
  apply Forall_inv_tail in E'. apply Forall_app in E' as (E' & _).
  destruct host as [|h host]; [cbn in Lh; lia|].
  apply Forall_inv in E'. apply Forall_inv in Fh. congruence.
Qed.

End NotBlank.

Section Tokenized.
Variable timestamp : string -> list Z -> res timestamp_obj.
Variable convert_to_int : value -> res (option Z).

(** X17. A line of text the tokenizer matches is never taken for blank or
    unparsable and writes no warning: in raw mode it gives the record of
    its groups, otherwise that record normalized, or the exception of the
    helper that raised. *)
Theorem tokenized_line_output (raw quiet : bool) (line : string) (st : mstate) :
  re_match syslog line = Some st ->
  parse_line timestamp convert_to_int raw quiet (PyStr line)
  = ([], if raw then inr (Some (matched_line st))
         else r <- normalized timestamp convert_to_int st ;; ret (Some r)).
Proof.
  intros H. unfold parse_line. cbn [streaming_line_input_type_check].
  unfold ret at 1. rewrite (NotBlank.matched_not_blank line st H), H.
  rewrite (process_matched timestamp convert_to_int line st H).
  reflexivity.
Qed.

End Tokenized.

Lemma tokenized_line_output_witness :
  re_match syslog scenario_sd = Some scenario_sd_match
  /\ parse_line (Utils.timestamp (fun _ => 0%Z)) Utils.convert_to_int
                false false (PyStr scenario_sd)
     = ([], r <- normalized (Utils.timestamp (fun _ => 0%Z))
                            Utils.convert_to_int scenario_sd_match ;;
            ret (Some r)).
Proof.
  split; [vm_compute; reflexivity|].
  apply (tokenized_line_output
           (Utils.timestamp (fun _ => 0%Z)) Utils.convert_to_int
           false false scenario_sd scenario_sd_match).
  vm_compute; reflexivity.
Defined.
